(** * cloud-errors-nodejs: the configuration state machine, the list-errors
      query builder and the request dispatcher, embedded in Rocq.

    Sources embedded (paths relative to the repository):
    - [src/classes/list-error-options.js]   (module [ListErrorOptions])
    - [src/interfaces/listErrors.js]        (module [ListErrorsInterface])
    - [src/google-apis/errors.js] and the error classes next to it
                                            (module [RequestHandler])
    - [lib/configuration_new.js]            (module [Configuration])

    JavaScript values are an inductive type; objects are association lists
    in property order; functions are opaque and identified by a name.
    Third-party helpers ([is], [lodash.has], [lodash.pickby],
    [lodash.transform], [lodash.isempty], [extend], Node's [EventEmitter])
    are written out next to their first use, following their published
    behaviour. *)

From Stdlib Require Import String Ascii List ZArith NArith Bool Lia.
Import ListNotations.
Local Open Scope string_scope.

(* ================================================================== *)
(** * JavaScript values *)
(* ================================================================== *)

Module Js.

(** The five own properties that the [ListErrorOptions] constructor puts
    on every instance. *)
Record ListErrorOptions_ (V : Type) : Type := mkListErrorOptions
  { groupId : V;
    serviceFilter : V;
    timeRange : V;
    pageSize : V;
    pageToken : V }.

Arguments mkListErrorOptions {V}.
Arguments groupId {V}.
Arguments serviceFilter {V}.
Arguments timeRange {V}.
Arguments pageSize {V}.
Arguments pageToken {V}.

#[local] Set Warnings "-register-all".

(** Numbers are integers here: the sources only ask whether a value is a
    number. *)
Inductive value : Type :=
| Undefined
| Null
| Bool (b : bool)
| Num (n : Z)
| Str (s : string)
| Fn (name : string)                        (* an opaque function *)
| Err (name : string) (message : string)    (* an Error or a subclass *)
| Arr (elems : list value)
| Obj (props : list (string * value))       (* a plain object *)
| Instance (o : ListErrorOptions_ value).   (* new ListErrorOptions() *)

Definition props := list (string * value).
Definition ListErrorOptions := ListErrorOptions_ value.

(** ** Property tables *)

Fixpoint lookup {A : Type} (k : string) (ps : list (string * A)) : option A :=
  match ps with
  | [] => None
  | (k', v) :: tl => if String.eqb k k' then Some v else lookup k tl
  end.

(** [o[k] = v] on a plain object: overwrite in place, or append. *)
Fixpoint setProp (k : string) (v : value) (ps : props) : props :=
  match ps with
  | [] => [(k, v)]
  | (k', v') :: tl =>
      if String.eqb k k' then (k, v) :: tl else (k', v') :: setProp k v tl
  end.

Definition hasKey {A : Type} (k : string) (ps : list (string * A)) : bool :=
  match lookup k ps with Some _ => true | None => false end.

(** ** The [is] package: tests on [Object.prototype.toString] tags *)

Definition is_string (v : value) : bool :=
  match v with Str _ => true | _ => false end.

Definition is_number (v : value) : bool :=
  match v with Num _ => true | _ => false end.

(** [is.object]: the tag is [[object Object]], so plain objects and class
    instances pass; arrays, functions, errors, null and primitives do not. *)
Definition is_object (v : value) : bool :=
  match v with Obj _ | Instance _ => true | _ => false end.

Definition is_fn (v : value) : bool :=
  match v with Fn _ => true | _ => false end.

Definition is_null (v : value) : bool :=
  match v with Null => true | _ => false end.

Definition instanceofError (v : value) : bool :=
  match v with Err _ _ => true | _ => false end.

Definition instanceofListErrorOptions (v : value) : bool :=
  match v with Instance _ => true | _ => false end.

(** ** Own properties *)

Definition isDigit (c : ascii) : bool :=
  let n := nat_of_ascii c in (48 <=? n)%nat && (n <=? 57)%nat.

Fixpoint allDigits (s : string) : bool :=
  match s with
  | EmptyString => true
  | String c tl => isDigit c && allDigits tl
  end.

Fixpoint decimal (acc : N) (s : string) : N :=
  match s with
  | EmptyString => acc
  | String c tl => decimal (10 * acc + (N.of_nat (nat_of_ascii c) - 48))%N tl
  end.

(** An array index in canonical form ([0], or digits not starting with 0)
    that is below [len]. *)
Definition isIndex (k : string) (len : nat) : bool :=
  match k with
  | EmptyString => false
  | String c tl =>
      allDigits k
      && (negb (Ascii.eqb c "0") || match tl with EmptyString => true | _ => false end)
      && (decimal 0 k <? N.of_nat len)%N
  end.

Fixpoint charAt (n : nat) (s : string) : string :=
  match s, n with
  | EmptyString, _ => ""
  | String c _, O => String c ""
  | String _ tl, S n' => charAt n' tl
  end.

Definition instanceEntries (o : ListErrorOptions) : props :=
  [ ("groupId", groupId o); ("serviceFilter", serviceFilter o);
    ("timeRange", timeRange o); ("pageSize", pageSize o);
    ("pageToken", pageToken o) ].

(** The value of the own property [k] of [v], when [v] has one
    ([hasOwnProperty.call(v, k)] followed by [v[k]]).  Strings own
    [length] and their indices.  The own properties of functions and of
    error objects are not part of the model: no path in the repository
    reaches them. *)
Definition ownProp (v : value) (k : string) : option value :=
  match v with
  | Obj ps => lookup k ps
  | Instance o => lookup k (instanceEntries o)
  | Str s =>
      if String.eqb k "length" then Some (Num (Z.of_nat (String.length s)))
      else if isIndex k (String.length s)
           then Some (Str (charAt (N.to_nat (decimal 0 k)) s))
           else None
  | Arr l =>
      if String.eqb k "length" then Some (Num (Z.of_nat (List.length l)))
      else if isIndex k (List.length l)
           then nth_error l (N.to_nat (decimal 0 k))
           else None
  | _ => None
  end.

Definition hasOwn (v : value) (k : string) : bool :=
  match ownProp v k with Some _ => true | None => false end.

(** Own enumerable entries of an object, in property order (asked only of
    values that pass [is.object]). *)
Definition ownEntries (v : value) : props :=
  match v with
  | Obj ps => ps
  | Instance o => instanceEntries o
  | _ => []
  end.

(** [Object.prototype], as every plain object inherits it. *)
Definition objectPrototype : props :=
  [ ("constructor", Fn "Object");
    ("hasOwnProperty", Fn "hasOwnProperty");
    ("isPrototypeOf", Fn "isPrototypeOf");
    ("propertyIsEnumerable", Fn "propertyIsEnumerable");
    ("toLocaleString", Fn "toLocaleString");
    ("toString", Fn "toString");
    ("valueOf", Fn "valueOf");
    ("__defineGetter__", Fn "__defineGetter__");
    ("__defineSetter__", Fn "__defineSetter__");
    ("__lookupGetter__", Fn "__lookupGetter__");
    ("__lookupSetter__", Fn "__lookupSetter__");
    ("__proto__", Obj []) ].

(** The methods assigned on [ListErrorOptions.prototype]; being assigned,
    they are enumerable. *)
Definition listErrorOptionsPrototype : props :=
  [ ("setGroupId", Fn "setGroupId");
    ("setServiceFilter", Fn "setServiceFilter");
    ("setTimeRange", Fn "setTimeRange");
    ("setPageSize", Fn "setPageSize");
    ("setPageToken", Fn "setPageToken");
    ("exportAsRequestOptions", Fn "exportAsRequestOptions") ].

(** [v[k]] for an object [v]: the own property, else the inherited one. *)
Definition getProp (v : value) (k : string) : value :=
  match ownProp v k with
  | Some x => x
  | None =>
      match v with
      | Obj _ =>
          match lookup k objectPrototype with Some x => x | None => Undefined end
      | Instance _ =>
          match lookup k (listErrorOptionsPrototype ++ objectPrototype)%list with
          | Some x => x
          | None => Undefined
          end
      | _ => Undefined
      end
  end.

(** [lodash.isempty] on the values the sources hand to it: strings and
    arrays by length, objects by their own keys, anything else is empty. *)
Definition isEmpty (v : value) : bool :=
  match v with
  | Str s => match s with EmptyString => true | _ => false end
  | Arr l => match l with [] => true | _ => false end
  | Obj ps => match ps with [] => true | _ => false end
  | Instance _ => false
  | _ => true
  end.

(** ** [lodash.has]

    [has(object, path)] is [object != null && hasPath(object, path, baseHas)],
    and [hasPath] begins with
    [path = isKey(path, object) ? [path] : castPath(path)]: the second
    argument is a property path unless it is a plain key.  [isKey] accepts
    a name made of word characters, a name with no path syntax in it, or a
    name that the object itself carries; anything else is split by
    [stringToPath] and walked one own property at a time, [baseHas] being
    [hasOwnProperty.call(object, key)].  So
    [has({a: {b: 1}}, 'a.b')] holds, and so does [has({a: 'xyz'}, 'a.length')],
    a string owning its length. *)

Definition isWordChar (c : ascii) : bool :=
  let n := nat_of_ascii c in
  isDigit c
  || ((65 <=? n)%nat && (n <=? 90)%nat)
  || ((97 <=? n)%nat && (n <=? 122)%nat)
  || (n =? 95)%nat.

(** [/^\w*$/] *)
Fixpoint reIsPlainProp (s : string) : bool :=
  match s with
  | EmptyString => true
  | String c tl => isWordChar c && reIsPlainProp tl
  end.

(** The deep-property pattern finds a dot, or an opening bracket that is
    closed further on. *)
Fixpoint reIsDeepPropFrom (opened : bool) (s : string) : bool :=
  match s with
  | EmptyString => false
  | String c tl =>
      Ascii.eqb c "."
      || (opened && Ascii.eqb c "]")
      || reIsDeepPropFrom (opened || Ascii.eqb c "[") tl
  end.

Definition reIsDeepProp (s : string) : bool := reIsDeepPropFrom false s.

(** In [isKey] the test [value in Object(object)] is only reached by names
    with path syntax; inherited names have none, so it is an own-key test. *)
Definition isKey (path : string) (object : value) : bool :=
  reIsPlainProp path || negb (reIsDeepProp path) || hasOwn object path.

Definition isPathDelim (c : ascii) : bool :=
  Ascii.eqb c "." || Ascii.eqb c "[" || Ascii.eqb c "]".

(** The longest run of characters other than [.], [[] and []]. *)
Fixpoint spanName (s : string) : string * string :=
  match s with
  | EmptyString => ("", "")
  | String c tl =>
      if isPathDelim c then ("", s)
      else let (n, r) := spanName tl in (String c n, r)
  end.

Fixpoint spanDigits (s : string) : string * string :=
  match s with
  | EmptyString => ("", "")
  | String c tl =>
      if isDigit c then let (n, r) := spanDigits tl in (String c n, r)
      else ("", s)
  end.

(** After an opening bracket: [-?\d+(\.\d+)?] and the closing bracket. *)
Definition bracketNumber (s : string) : option (string * string) :=
  let (sign, s1) :=
    match s with
    | String "-" tl => ("-", tl)
    | _ => ("", s)
    end in
  let (ds, s2) := spanDigits s1 in
  match ds with
  | EmptyString => None
  | _ =>
      match s2 with
      | String "]" rest => Some (sign ++ ds, rest)
      | String "." s3 =>
          let (fs, s4) := spanDigits s3 in
          match fs, s4 with
          | String _ _, String "]" rest => Some (sign ++ ds ++ "." ++ fs, rest)
          | _, _ => None
          end
      | _ => None
      end
  end.

Definition isLineTerminator (c : ascii) : bool :=
  let n := nat_of_ascii c in (n =? 10)%nat || (n =? 13)%nat.

(** After an opening bracket and the quote [q]: the quoted key with its
    escapes removed, up to the same quote followed by the closing bracket. *)
Fixpoint quotedBody (q : ascii) (s : string) : option (string * string) :=
  match s with
  | EmptyString => None
  | String c tl =>
      if Ascii.eqb c q then
        match tl with
        | String "]" rest => Some ("", rest)
        | _ => None
        end
      else if Ascii.eqb c "\" then
        match tl with
        | String d tl' =>
            if isLineTerminator d then None
            else match quotedBody q tl' with
                 | Some (k, r) => Some (String d k, r)
                 | None => None
                 end
        | EmptyString => None
        end
      else match quotedBody q tl with
           | Some (k, r) => Some (String c k, r)
           | None => None
           end
  end.

Definition doubleQuote : ascii := ascii_of_nat 34.

Definition bracketKey (s : string) : option (string * string) :=
  match bracketNumber s with
  | Some r => Some r
  | None =>
      match s with
      | String q tl =>
          if Ascii.eqb q doubleQuote || Ascii.eqb q "'" then quotedBody q tl
          else None
      | EmptyString => None
      end
  end.

Definition dropSeparator (s : string) : option string :=
  match s with
  | String "." r => Some r
  | String "[" (String "]" r) => Some r
  | _ => None
  end.

(** The look-ahead that yields an empty key: a separator followed by a
    separator or by the end of the path (the pattern of lodash 4.17;
    earlier 4.x releases ask for the same separator twice, which only
    matters for paths with empty keys). *)
Definition emptyKeyAhead (s : string) : bool :=
  match dropSeparator s with
  | Some EmptyString => true
  | Some r => match dropSeparator r with Some _ => true | None => false end
  | None => false
  end.

Fixpoint pathKeys (fuel : nat) (s : string) : list string :=
  match fuel with
  | O => []
  | S fuel' =>
      match s with
      | EmptyString => []
      | String c tl =>
          if negb (isPathDelim c) then
            let (n, r) := spanName s in n :: pathKeys fuel' r
          else
            match (if Ascii.eqb c "[" then bracketKey tl else None) with
            | Some (k, r) => k :: pathKeys fuel' r
            | None =>
                if emptyKeyAhead s then "" :: pathKeys fuel' tl
                else pathKeys fuel' tl
            end
      end
  end.

Definition stringToPath (s : string) : list string :=
  ((match s with String "." _ => [""] | _ => [] end)
     ++ pathKeys (String.length s) s)%list.

(** Walk [path] through own properties; an empty path has nothing.  (The
    index fallback that [hasPath] has for array-likes adds nothing here:
    the arrays and strings of the model own all their indices.) *)
Fixpoint hasPath (object : value) (path : list string) : bool :=
  match path with
  | [] => false
  | [k] => hasOwn object k
  | k :: rest =>
      match ownProp object k with
      | Some next => hasPath next rest
      | None => false
      end
  end.

Definition has (object : value) (path : string) : bool :=
  match object with
  | Undefined | Null => false
  | _ =>
      if isKey path object then hasOwn object path
      else hasPath object (stringToPath path)
  end.

(** The object formed by the keys of a table of functions, as [has] sees
    it. *)
Definition tableObject {A : Type} (tbl : list (string * A)) : value :=
  Obj (map (fun kv => (fst kv, Fn (fst kv))) tbl).

(** ** [lodash.pickby], [lodash.transform], [extend] *)

(** [pickBy(object, predicate)] on the enumerable entries [entries] of
    [object], own and inherited: the result is a plain object. *)
Definition pickBy (entries : props) (predicate : value -> string -> bool) : props :=
  filter (fun kv => predicate (snd kv) (fst kv)) entries.

(** [transform(object, iteratee, accumulator)] over own entries. *)
Definition transform {A : Type} (entries : props)
    (iteratee : A -> value -> string -> A) (accumulator : A) : A :=
  fold_left (fun acc kv => iteratee acc (snd kv) (fst kv)) entries accumulator.

(** [extend(target, source)] (the [extend] package, a port of
    [jQuery.extend]), shallow: its loop is
    [for (name in options) { copy = options[name]; ...
       else if (typeof copy !== 'undefined') { target[name] = copy; } }],
    so every enumerable property of [source] is copied onto [target]
    except those whose value is [undefined]. *)
Definition extend (target source : props) : props :=
  fold_left
    (fun acc kv =>
       match snd kv with
       | Undefined => acc
       | v => setProp (fst kv) v acc
       end)
    source target.

End Js.


(* ================================================================== *)
(** * src/classes/list-error-options.js *)
(* ================================================================== *)

Module ListErrorOptions.
Import Js.

(** [function ListErrorOptions ()] *)
Definition new : ListErrorOptions :=
  {| groupId := Null;
     serviceFilter := Null;
     timeRange := Null;
     pageSize := Num 10;
     pageToken := Null |}.

Definition validateQueryObjectsForExport (v : value) : bool :=
  is_object v && negb (isEmpty v).

(** [acc[[prefix, key].join('.')] = v] for every own entry of [trgObject]. *)
Definition prefixQueryObjectForExport (prefix : string) (trgObject : value) : props :=
  transform (ownEntries trgObject)
    (fun acc v key => setProp (prefix ++ "." ++ key) v acc) [].

Definition exportFilter : list (string * (value -> bool)) :=
  [ ("groupId", is_string);
    ("serviceFilter", validateQueryObjectsForExport);
    ("timeRange", validateQueryObjectsForExport);
    ("pageSize", is_number);
    ("pageToken", is_string) ].

Definition exportTransformer : list (string * (value -> props)) :=
  [ ("serviceFilter",
     fun serviceFilterObject =>
       prefixQueryObjectForExport "serviceFilter" serviceFilterObject);
    ("timeRange",
     fun timeRangeObject =>
       prefixQueryObjectForExport "timeRange" timeRangeObject) ].

Definition timePeriods : value :=
  Obj [ ("PERIOD_ONE_HOUR", Str "PERIOD_ONE_HOUR");
        ("PERIOD_SIX_HOURS", Str "PERIOD_SIX_HOURS");
        ("PERIOD_ONE_DAY", Str "PERIOD_ONE_DAY");
        ("PERIOD_ONE_WEEK", Str "PERIOD_ONE_WEEK");
        ("PERIOD_30_DAYS", Str "PERIOD_30_DAYS") ].

Definition setGroupId (groupId' : value) (this : ListErrorOptions) : ListErrorOptions :=
  {| groupId := groupId';
     serviceFilter := serviceFilter this;
     timeRange := timeRange this;
     pageSize := pageSize this;
     pageToken := pageToken this |}.

Definition setServiceFilter (service version resourceType : value)
    (this : ListErrorOptions) : ListErrorOptions :=
  {| groupId := groupId this;
     serviceFilter :=
       Obj (pickBy [ ("service", service);
                     ("version", version);
                     ("resourceType", resourceType) ]
                   (fun v _ => is_string v));
     timeRange := timeRange this;
     pageSize := pageSize this;
     pageToken := pageToken this |}.

(** The argument is a string here, as at the call in
    [populateRequestOptions] and as the exposed enumeration provides. *)
Definition setTimeRange (timeRange' : string) (this : ListErrorOptions) : ListErrorOptions :=
  {| groupId := groupId this;
     serviceFilter := serviceFilter this;
     timeRange := Obj [ ("period", getProp timePeriods timeRange') ];
     pageSize := pageSize this;
     pageToken := pageToken this |}.

Definition setPageSize (pageSize' : value) (this : ListErrorOptions) : ListErrorOptions :=
  {| groupId := groupId this;
     serviceFilter := serviceFilter this;
     timeRange := timeRange this;
     pageSize := pageSize';
     pageToken := pageToken this |}.

Definition setPageToken (pageToken' : value) (this : ListErrorOptions) : ListErrorOptions :=
  {| groupId := groupId this;
     serviceFilter := serviceFilter this;
     timeRange := timeRange this;
     pageSize := pageSize this;
     pageToken := pageToken' |}.

(** What [pickBy(this, ...)] enumerates: the own properties, then the
    enumerable methods of the prototype. *)
Definition entriesIn (this : ListErrorOptions) : props :=
  (instanceEntries this ++ listErrorOptionsPrototype)%list.

Definition exportPredicate (v : value) (key : string) : bool :=
  if has (tableObject exportFilter) key then
    match lookup key exportFilter with
    | Some accepts => accepts v
    | None => false
    end
  else false.

Definition exportStep (acc : props) (v : value) (key : string) : props :=
  if has (tableObject exportTransformer) key then
    match lookup key exportTransformer with
    | Some flatten => extend acc (flatten v)
    | None => acc
    end
  else setProp key v acc.

Definition exportAsRequestOptions (this : ListErrorOptions) : props :=
  transform (pickBy (entriesIn this) exportPredicate) exportStep [].

(** No key of [o] lies under [field], that is, starts with [field.]. *)
Definition noKeysUnder (field : string) (o : props) : bool :=
  forallb (fun kv => negb (String.prefix (field ++ ".") (fst kv))) o.

End ListErrorOptions.


(* ================================================================== *)
(** * src/interfaces/listErrors.js *)
(* ================================================================== *)

Module ListErrorsInterface.
Import Js.
Import ListErrorOptions.

(** [new Error(message)] *)
Definition newError (message : string) : value := Err "Error" message.

Definition newline : string := String (ascii_of_nat 10) "".

(** A stage of [populateRequestOptions] either returns from the function
    with an error ([inl]) or goes on with the builder ([inr]). *)
Definition stage : Type := value + ListErrorOptions.

Definition andThen (r : stage) (k : ListErrorOptions -> stage) : stage :=
  match r with
  | inl e => inl e
  | inr opts => k opts
  end.

(** Attempt to extract serviceFilter. *)
Definition extractServiceFilter (userOptions : value) (opts : ListErrorOptions) : stage :=
  let serviceFilter' := getProp userOptions "serviceFilter" in
  if negb (has userOptions "serviceFilter") then inr opts
  else if negb (is_object serviceFilter') then
    inl (newError
      "Optional argument property serviceFilter must be of type object if supplied")
  else if has serviceFilter' "service"
          && negb (is_string (getProp serviceFilter' "service")) then
    inl (newError
      "Optional argument serviceFilter.service must be of type string if supplied")
  else if has serviceFilter' "version"
          && negb (is_string (getProp serviceFilter' "version")) then
    inl (newError
      "Optional argument serviceFilter.version must be of type string if supplied")
  else if has serviceFilter' "resourceType"
          && negb (is_string (getProp serviceFilter' "resourceType")) then
    inl (newError
      "Optional argument serviceFilter.resourceType must of type string if supplied")
  else
    inr (setServiceFilter (getProp serviceFilter' "service")
           (getProp serviceFilter' "version")
           (getProp serviceFilter' "resourceType") opts).

(** Attempt to extract timeRange. *)
Definition extractTimeRange (userOptions : value) (opts : ListErrorOptions) : stage :=
  if negb (has userOptions "timeRange") then inr opts
  else
    match getProp userOptions "timeRange" with
    | Str timeRange' =>
        if negb (has timePeriods timeRange') then
          inl (newError
            ("Optional argument serviceFilter.timeRange must one of the following "
             ++ "if supplied: " ++ newline
             ++ String.concat ", " (map fst (ownEntries timePeriods))))
        else inr (setTimeRange timeRange' opts)
    | _ =>
        inl (newError
          ("Optional argument serviceFilter.timeRange must one of the following "
           ++ "if supplied: " ++ newline
           ++ String.concat ", " (map fst (ownEntries timePeriods))))
    end.

(** Attempt to extract pageSize. *)
Definition extractPageSize (userOptions : value) (opts : ListErrorOptions) : stage :=
  if negb (has userOptions "pageSize") then inr opts
  else if negb (is_number (getProp userOptions "pageSize")) then
    inl (newError "Optional argument pageSize must of type number if supplied")
  else inr (setPageSize (getProp userOptions "pageSize") opts).

(** Attempt to extract pageToken. *)
Definition extractPageToken (userOptions : value) (opts : ListErrorOptions) : stage :=
  if negb (has userOptions "pageToken") then inr opts
  else if negb (is_string (getProp userOptions "pageToken")) then
    inl (newError "Optional argument pageToken must be of type string if supplied")
  else inr (setPageToken (getProp userOptions "pageToken") opts).

Definition populateRequestOptions (userOptions : value) : value :=
  let opts := new in
  if is_string userOptions then Instance (setGroupId userOptions opts)
  else if instanceofListErrorOptions userOptions then userOptions
  else if negb (is_object userOptions)
          || negb (is_string (getProp userOptions "groupId")) then
    newError
      ("Must provide a groupId in either the form of a string or an object "
       ++ "with a groupId property that is a string.")
  else
    match
      andThen (extractServiceFilter userOptions
                 (setGroupId (getProp userOptions "groupId") opts))
        (fun opts =>
      andThen (extractTimeRange userOptions opts)
        (fun opts =>
      andThen (extractPageSize userOptions opts)
        (fun opts =>
      extractPageToken userOptions opts)))
    with
    | inl e => e
    | inr opts => Instance opts
    end.

(** What a call of the handler does to its collaborators. *)
Inductive effect : Type :=
| CallCallback (error : value) (response : value)      (* callback(e, null) *)
| ClientListErrors (requestOptions callback : value).  (* client.listErrors *)

(** [handlerSetup(client, config)] returns [listErrors]; [lacksCredentials]
    is the answer of [config.lacksCredentials()].  The result is the list
    of effects in order, and the value returned to the caller. *)
Definition listErrors (lacksCredentials : bool) (userOptions callback : value)
    : list effect * value :=
  if lacksCredentials then
    ([], newError "Valid credentials have not been supplied")
  else
    let requestOptions := populateRequestOptions userOptions in
    if instanceofError requestOptions then
      ((if is_fn callback then [CallCallback requestOptions Null] else []),
       requestOptions)
    else
      ([ClientListErrors requestOptions callback], requestOptions).

End ListErrorsInterface.


(* ================================================================== *)
(** * src/google-apis/errors.js, with the error classes it requires *)
(* ================================================================== *)

Module RequestHandler.
Import Js.

(** ** The error classes *)

Definition ClientNotConfiguredToSendErrors : value :=
  Err "ClientNotConfiguredToSendErrors"
    (String.concat " "
       [ "Stackdriver error reporting client has not been configured to send";
         "errors, please check the NODE_ENV environment variable and make sure it";
         "is set to " ++ String doubleQuote "production" ++ String doubleQuote " or set the ignoreEnvironmentCheck property to ";
         "true in the runtime configuration object" ]).

Definition UnableToRetrieveProjectId (errMsg : string) : value :=
  Err "UnableToRetrieveProjectId"
    (String.concat " "
       [ "Unable to retrieve a project id from the Google Metadata Service or";
         "the local environment. Client will not be able to communicate with";
         "the Stackdriver Error Reporting API without a valid project id";
         "Please make sure to supply a project id either through the";
         "GCLOUD_PROJECT environmental variable or through the configuration";
         "object given to this library on startup if not running on Google";
         "Cloud Platform." ++ ListErrorsInterface.newline ++ " Returned error message: "
           ++ ListErrorsInterface.newline;
         errMsg ]).

(** [e.message] of an error [e] that [requestPreflight] has just built
    with one of the two classes above; it is applied to nothing else. *)
Definition message (e : value) : string :=
  match e with Err _ m => m | _ => "" end.

(** [err.message] of whatever truthy value the transport hands back as
    [err]: an error object has the message it was built with, a plain
    object its own or inherited [message], a string or an array has none
    and reads as [undefined], and so does every other value. *)
Definition errMessage (err : value) : value :=
  match err with
  | Err _ m => Str m
  | _ => getProp err "message"
  end.

(** ** Collaborators

    The configuration answers [getProjectId(callback)] with an error or
    with the project id; the transport answers a request with the triple
    [(err, response, body)], [err] being [null] or an error object. *)

Record Config : Type :=
  { getShouldReportErrorsToAPI : bool;
    getProjectId : string + string;      (* inl: err.message; inr: id *)
    getKey : value }.

Record uri : Type :=
  { href : string;          (* [API, projectId, endpoint].join('/') *)
    query : props }.        (* followed by '?' + stringify(query) if not empty *)

Record requestOptions : Type :=
  { uri_ : uri;
    method : string;
    json : option value }.

Record RequestHandler : Type :=
  { _request : requestOptions -> value * value * value;
    _config : Config }.

(** What an operation does, in order.  A failed request is logged as a
    new [BadAPIInteraction], an error object that its two constructor
    arguments determine: its message joins a fixed text, the intended
    action and [errMsg], which may be any value. *)
Inductive effect : Type :=
| LoggerError (arg : value)                      (* self._logger.error(arg) *)
| LoggerBadAPIInteraction (intendedAction : string) (errMsg : value)
    (* self._logger.error(new errors.BadAPIInteraction(intendedAction, errMsg)) *)
| Request (opts : requestOptions)                (* self._request(opts, ...) *)
| Call (cb : value) (err response body : value). (* cb(err, response, body) *)

Definition API : string :=
  "https://clouderrorreporting.googleapis.com/v1beta1/projects".

Definition API_ENDPOINTS_report : string := "events:report".
Definition API_ENDPOINTS_deleteAllEvents : string := "events".
Definition API_ENDPOINTS_listEvents : string := "events".

Definition noOp : value := Fn "noop".

Definition truthy (v : value) : bool :=
  match v with
  | Undefined | Null => false
  | Bool b => b
  | Num n => negb (Z.eqb n 0)
  | Str s => match s with EmptyString => false | _ => true end
  | _ => true
  end.

(** [projectId] is [None] for [null], which [join] renders as the empty
    string. *)
Definition manufactureAPIHref (projectId : option string) (endpoint : string)
    (query' : props) : uri :=
  {| href := String.concat "/"
               [API; match projectId with Some id => id | None => "" end; endpoint];
     query := query' |}.

Definition requestPreflight (self : RequestHandler) (userCb : value)
    (readyCb : value -> value -> option string -> list effect) : list effect :=
  let validatedCb := if is_fn userCb then userCb else noOp in
  if negb (getShouldReportErrorsToAPI (_config self)) then
    let e := ClientNotConfiguredToSendErrors in
    LoggerError (Str (message e)) :: readyCb validatedCb e None
  else
    match getProjectId (_config self) with
    | inl errMessage =>
        let e := UnableToRetrieveProjectId errMessage in
        LoggerError (Str (message e)) :: readyCb validatedCb e None
    | inr id => readyCb validatedCb Null (Some id)
    end.

Definition getAPIKeyOptions (self : RequestHandler) : props :=
  if truthy (getKey (_config self)) then [("key", getKey (_config self))]
  else [].

(** The transport is asked, and its answer is handed to [onAnswer]. *)
Definition request (self : RequestHandler) (opts : requestOptions)
    (onAnswer : value -> value -> value -> list effect) : list effect :=
  let '(err, response, body) := _request self opts in
  Request opts :: onAnswer err response body.

Definition sendError (self : RequestHandler) (errorMessage userCb : value)
    : list effect :=
  requestPreflight self userCb (fun cb err id =>
    if truthy err then [Call cb err Null Null]
    else
      let opts := getAPIKeyOptions self in
      request self
        {| uri_ := manufactureAPIHref id API_ENDPOINTS_report opts;
           method := "POST";
           json := Some errorMessage |}
        (fun err response body =>
           (if truthy err then
              [LoggerBadAPIInteraction "write an error to the API" (errMessage err)]
            else [])
           ++ [Call cb err response body])%list).

Definition deleteAllErrors (self : RequestHandler) (userCb : value)
    : list effect :=
  requestPreflight self userCb (fun cb err id =>
    if truthy err then [Call cb err Null Null]
    else
      let opts := getAPIKeyOptions self in
      request self
        {| uri_ := manufactureAPIHref id API_ENDPOINTS_deleteAllEvents opts;
           method := "DELETE";
           json := None |}
        (fun err response body =>
           (if truthy err then
              [LoggerBadAPIInteraction
                 ("delete all errors from project: "
                  ++ match id with Some i => i | None => "null" end)
                 (errMessage err)]
            else [])
           ++ [Call cb err response body])%list).

Definition listErrors (self : RequestHandler) (listErrorOptions : ListErrorOptions)
    (userCb : value) : list effect :=
  requestPreflight self userCb (fun cb err id =>
    let opts := extend (getAPIKeyOptions self)
                  (ListErrorOptions.exportAsRequestOptions listErrorOptions) in
    request self
      {| uri_ := manufactureAPIHref id API_ENDPOINTS_listEvents opts;
         method := "GET";
         json := None |}
      (fun err response body =>
         (if truthy err then
            [LoggerBadAPIInteraction
               ("list errors from project "
                ++ match id with Some i => i | None => "null" end)
               (errMessage err)]
          else [])
         ++ [Call cb err response body])%list).

(** The transport was asked at least once. *)
Definition requested (t : list effect) : bool :=
  existsb (fun e => match e with Request _ => true | _ => false end) t.

(** The calls made to [cb], with their arguments. *)
Definition callsTo (cb : string) (t : list effect) : list (value * value * value) :=
  flat_map
    (fun e =>
       match e with
       | Call (Fn f) err response body =>
           if String.eqb f cb then [(err, response, body)] else []
       | _ => []
       end) t.

End RequestHandler.


(* ================================================================== *)
(** * lib/configuration_new.js *)
(* ================================================================== *)

Module Configuration.
Import Js.

(** The variables of [process.env] that the class reads; an unset
    variable is [None]. *)
Record Env : Type :=
  { NODE_ENV : option string;
    GCLOUD_PROJECT : option string;
    GAE_MODULE_NAME : option string;
    GAE_MODULE_VERSION : option string }.

Record ServiceContext : Type :=
  { service : string;
    version : string }.

(** The instance: the fields set by the constructor, and the listeners
    that [EventEmitter] keeps for it, in registration order. *)
Record Configuration : Type :=
  { _initState : bool;
    _initError : value;
    _reportUncaughtExceptions : bool;
    _shouldReportErrorsToAPI : bool;
    _projectId : value;
    _projectNumber : value;
    _key : value;
    _serviceContext : ServiceContext;
    _version : string;
    _givenConfiguration : value;
    _events : list (string * value) }.

(** What an event carries: the [ready] event carries the instance, the
    [error] event carries the error. *)
Inductive argument : Type :=
| TheInstance
| TheError (e : value).

Inductive effect : Type :=
| ConsoleError                                   (* console.error(...) *)
| Emit (event : string) (arg : argument)         (* this.emit(event, arg) *)
| Invoke (listener : value) (arg : argument).    (* listener(arg) *)

(** ** Methods run on the instance, log effects, and may throw *)

Inductive completion (A : Type) : Type :=
| Normal (a : A)
| Throw (exception : value).

Arguments Normal {A}.
Arguments Throw {A}.

Definition M (A : Type) : Type :=
  Configuration -> Configuration * list effect * completion A.

Definition ret {A : Type} (a : A) : M A := fun this => (this, [], Normal a).

Definition bind {A B : Type} (m : M A) (k : A -> M B) : M B :=
  fun this =>
    match m this with
    | (this', t, Normal a) =>
        match k a this' with
        | (this'', t', r) => (this'', (t ++ t')%list, r)
        end
    | (this', t, Throw e) => (this', t, Throw e)
    end.

Definition throw {A : Type} (e : value) : M A := fun this => (this, [], Throw e).
Definition read : M Configuration := fun this => (this, [], Normal this).
Definition update (f : Configuration -> Configuration) : M unit :=
  fun this => (f this, [], Normal tt).
Definition log (e : effect) : M unit := fun this => (this, [e], Normal tt).
Definition skip : M unit := ret tt.

Declare Scope js_scope.
Delimit Scope js_scope with js.
Notation "x <- m ;; k" := (bind m (fun x => k))
  (at level 61, m at next level, right associativity) : js_scope.
Notation "m ;; k" := (bind m (fun _ => k))
  (at level 61, right associativity) : js_scope.
Local Open Scope js_scope.

(** ** Field assignments *)

Definition set_initState (b : bool) (c : Configuration) : Configuration :=
  {| _initState := b; _initError := _initError c;
     _reportUncaughtExceptions := _reportUncaughtExceptions c;
     _shouldReportErrorsToAPI := _shouldReportErrorsToAPI c;
     _projectId := _projectId c; _projectNumber := _projectNumber c;
     _key := _key c; _serviceContext := _serviceContext c;
     _version := _version c; _givenConfiguration := _givenConfiguration c;
     _events := _events c |}.

Definition set_initError (e : value) (c : Configuration) : Configuration :=
  {| _initState := _initState c; _initError := e;
     _reportUncaughtExceptions := _reportUncaughtExceptions c;
     _shouldReportErrorsToAPI := _shouldReportErrorsToAPI c;
     _projectId := _projectId c; _projectNumber := _projectNumber c;
     _key := _key c; _serviceContext := _serviceContext c;
     _version := _version c; _givenConfiguration := _givenConfiguration c;
     _events := _events c |}.

Definition set_reportUncaughtExceptions (b : bool) (c : Configuration) : Configuration :=
  {| _initState := _initState c; _initError := _initError c;
     _reportUncaughtExceptions := b;
     _shouldReportErrorsToAPI := _shouldReportErrorsToAPI c;
     _projectId := _projectId c; _projectNumber := _projectNumber c;
     _key := _key c; _serviceContext := _serviceContext c;
     _version := _version c; _givenConfiguration := _givenConfiguration c;
     _events := _events c |}.

Definition set_projectId (v : value) (c : Configuration) : Configuration :=
  {| _initState := _initState c; _initError := _initError c;
     _reportUncaughtExceptions := _reportUncaughtExceptions c;
     _shouldReportErrorsToAPI := _shouldReportErrorsToAPI c;
     _projectId := v; _projectNumber := _projectNumber c;
     _key := _key c; _serviceContext := _serviceContext c;
     _version := _version c; _givenConfiguration := _givenConfiguration c;
     _events := _events c |}.

Definition set_projectNumber (v : value) (c : Configuration) : Configuration :=
  {| _initState := _initState c; _initError := _initError c;
     _reportUncaughtExceptions := _reportUncaughtExceptions c;
     _shouldReportErrorsToAPI := _shouldReportErrorsToAPI c;
     _projectId := _projectId c; _projectNumber := v;
     _key := _key c; _serviceContext := _serviceContext c;
     _version := _version c; _givenConfiguration := _givenConfiguration c;
     _events := _events c |}.

Definition set_key (v : value) (c : Configuration) : Configuration :=
  {| _initState := _initState c; _initError := _initError c;
     _reportUncaughtExceptions := _reportUncaughtExceptions c;
     _shouldReportErrorsToAPI := _shouldReportErrorsToAPI c;
     _projectId := _projectId c; _projectNumber := _projectNumber c;
     _key := v; _serviceContext := _serviceContext c;
     _version := _version c; _givenConfiguration := _givenConfiguration c;
     _events := _events c |}.

Definition set_serviceContext (sc : ServiceContext) (c : Configuration) : Configuration :=
  {| _initState := _initState c; _initError := _initError c;
     _reportUncaughtExceptions := _reportUncaughtExceptions c;
     _shouldReportErrorsToAPI := _shouldReportErrorsToAPI c;
     _projectId := _projectId c; _projectNumber := _projectNumber c;
     _key := _key c; _serviceContext := sc;
     _version := _version c; _givenConfiguration := _givenConfiguration c;
     _events := _events c |}.

Definition set_events (l : list (string * value)) (c : Configuration) : Configuration :=
  {| _initState := _initState c; _initError := _initError c;
     _reportUncaughtExceptions := _reportUncaughtExceptions c;
     _shouldReportErrorsToAPI := _shouldReportErrorsToAPI c;
     _projectId := _projectId c; _projectNumber := _projectNumber c;
     _key := _key c; _serviceContext := _serviceContext c;
     _version := _version c; _givenConfiguration := _givenConfiguration c;
     _events := l |}.

(** ** lodash type tests *)

Definition isPlainObject (v : value) : bool :=
  match v with Obj _ => true | _ => false end.
Definition isUndefined (v : value) : bool :=
  match v with Undefined => true | _ => false end.
Definition isBoolean (v : value) : bool :=
  match v with Bool _ => true | _ => false end.
Definition isFunction := is_fn.
Definition isNumber := is_number.
Definition isString := is_string.
Definition isNull := is_null.

(** [process.env.NAME] as a value. *)
Definition envValue (x : option string) : value :=
  match x with Some s => Str s | None => Undefined end.

(** ** The part of [EventEmitter] that the class uses *)

Definition listenersOf (event : string) (c : Configuration) : list value :=
  map snd (filter (fun l => String.eqb (fst l) event) (_events c)).

(** [this.once(event, listener)] *)
Definition once (event : string) (listener : value) : M unit :=
  update (fun c => set_events (_events c ++ [(event, listener)])%list c).

Fixpoint invokeAll (ls : list value) (arg : argument) : M unit :=
  match ls with
  | [] => skip
  | l :: rest => log (Invoke l arg) ;; invokeAll rest arg
  end.

(** [this.emit(event, arg)]: an [error] event that nobody listens to is
    thrown; otherwise the listeners of the event, all registered with
    [once], are removed and called in registration order. *)
Definition emit (event : string) (arg : argument) : M unit :=
  this <- read ;;
  log (Emit event arg) ;;
  match listenersOf event this, arg with
  | [], TheError e =>
      if String.eqb event "error" then throw e else skip
  | ls, _ =>
      update (fun c =>
        set_events (filter (fun l => negb (String.eqb (fst l) event)) (_events c)) c) ;;
      invokeAll ls arg
  end.

(** ** The class

    Two places of the file do not parse as they stand: the condition of
    [_gatherLocalConfiguration] lacks its closing parenthesis, and the
    left-hand side of the definition of [_checkLocalServiceContext] ends in
    [()].  Both are read the only way they can be meant.  Everything else
    is taken as written, including the two assignments of
    [_checkLocalServiceContext] whose targets ([this_serviceContext] and
    [this.serviceContext]) do not exist. *)

Section Class.

(** The global [isNaN] on strings, as the host provides it. *)
Variable isNaN : string -> bool.

(** The [version] field of [package.json]. *)
Variable packageVersion : string.

(** [var Configuration = function(givenConfig)].  The constructor ends by
    handing [_assimilateProjectNumber] to the metadata utility, which calls
    it later. *)
Definition construct (env : Env) (givenConfig : value) : Configuration :=
  {| _initState := false;
     _initError := Null;
     _reportUncaughtExceptions := true;
     _shouldReportErrorsToAPI :=
       match NODE_ENV env with
       | Some s => String.eqb s "production"
       | None => false
       end;
     _projectId := Null;
     _projectNumber := Null;
     _key := Null;
     _serviceContext := {| service := ""; version := "" |};
     _version := packageVersion;
     _givenConfiguration := if isPlainObject givenConfig then givenConfig else Null;
     _events := [] |}.

(** [isString(v) && !isEmpty(v) && isNaN(v)], or with [!isNaN(v)] when
    [numeric] is set. *)
Definition namesProject (numeric : bool) (v : value) : bool :=
  match v with
  | Str s => negb (isEmpty v) && Bool.eqb (negb (isNaN s)) numeric
  | _ => false
  end.

Definition _checkLocalProjectId (env : Env) : M unit :=
  this <- read ;;
  if isString (_projectId this) then skip
  else if namesProject false (envValue (GCLOUD_PROJECT env)) then
    update (set_projectId (envValue (GCLOUD_PROJECT env)))
  else if isPlainObject (_givenConfiguration this)
          && namesProject false (getProp (_givenConfiguration this) "projectId") then
    update (set_projectId (getProp (_givenConfiguration this) "projectId"))
  else skip.

Definition _checkLocalProjectNumber (env : Env) : M unit :=
  this <- read ;;
  if isNumber (_projectNumber this) then skip
  else if namesProject true (envValue (GCLOUD_PROJECT env)) then
    update (set_projectNumber (envValue (GCLOUD_PROJECT env)))
  else if isPlainObject (_givenConfiguration this)
          && namesProject true (getProp (_givenConfiguration this) "projectId") then
    update (set_projectNumber (getProp (_givenConfiguration this) "projectId"))
  else skip.

Definition ReferenceError (m : string) : value := Err "ReferenceError" m.
Definition TypeError (m : string) : value := Err "TypeError" m.

Definition _checkLocalServiceContext (env : Env) : M unit :=
  let gaeModuleName := envValue (GAE_MODULE_NAME env) in
  let gaeModuleVer := envValue (GAE_MODULE_VERSION env) in
  update (fun c =>
    set_serviceContext
      {| service := match gaeModuleName with Str s => s | _ => "" end;
         version := version (_serviceContext c) |} c) ;;
  update (fun c =>
    set_serviceContext
      {| service := service (_serviceContext c);
         version := match gaeModuleVer with Str s => s | _ => "" end |} c) ;;
  this <- read ;;
  if isPlainObject (_givenConfiguration this)
     && isPlainObject (getProp (_givenConfiguration this) "serviceContext") then
    (if isString (getProp (getProp (_givenConfiguration this) "serviceContext") "service")
     then throw (ReferenceError "this_serviceContext is not defined")
     else skip) ;;
    (if isString (getProp (getProp (_givenConfiguration this) "serviceContext") "version")
     then throw (TypeError "Cannot set property 'version' of undefined")
     else skip)
  else skip.

Definition _gatherLocalConfiguration (env : Env) : M unit :=
  _checkLocalProjectId env ;;
  _checkLocalProjectNumber env ;;
  _checkLocalServiceContext env ;;
  this <- read ;;
  if isPlainObject (_givenConfiguration this) then
    (match getProp (_givenConfiguration this) "reportUncaughtExceptions" with
     | Bool b => update (set_reportUncaughtExceptions b)
     | _ => skip
     end) ;;
    (if isString (getProp (_givenConfiguration this) "key")
     then update (set_key (getProp (_givenConfiguration this) "key"))
     else skip)
  else skip.

Definition _checkConfigurationIntegrity : M unit :=
  this <- read ;;
  if negb (_initState this) then
    update (set_initState true) ;;
    this <- read ;;
    if isNull (_projectId this) && isNull (_projectNumber this) then
      update (set_initError (Err "Error" "Unable to gather project id or number")) ;;
      this <- read ;;
      emit "error" (TheError (_initError this))
    else
      emit "ready" TheInstance
  else skip.

Definition _assimilateProjectId (env : Env) (err projectId : value) : M unit :=
  (if isNull err && isString projectId then update (set_projectId projectId)
   else log ConsoleError) ;;
  _gatherLocalConfiguration env ;;
  _checkConfigurationIntegrity.

Definition _assimilateProjectNumber (env : Env) (err projectNum : value) : M unit :=
  (if isUndefined err && isNumber projectNum then update (set_projectNumber projectNum)
   else log ConsoleError) ;;
  _gatherLocalConfiguration env ;;
  _checkConfigurationIntegrity.

(** Calling a value that is not a function throws. *)
Definition callListener (callback : value) (arg : argument) : M unit :=
  if isFunction callback then log (Invoke callback arg)
  else throw (TypeError "callback is not a function").

Definition addReadyListener (callback : value) : M unit :=
  this <- read ;;
  if negb (_initState this) && isFunction callback then
    once "ready" callback
  else if _initState this && isNull (_initError this) then
    callListener callback TheInstance
  else skip.

Definition addErrorListener (callback : value) : M unit :=
  this <- read ;;
  if negb (_initState this) && isFunction callback then
    once "error" callback
  else if _initState this && negb (isNull (_initError this)) then
    callListener callback (TheError (_initError this))
  else skip.

(** ** Lifetimes

    What happens to an instance after its construction: the metadata
    utility (or anything holding the bound method) runs the settlement
    path, and components register listeners. *)
Inductive call : Type :=
| AssimilateProjectNumber (env : Env) (err projectNum : value)
| AssimilateProjectId (env : Env) (err projectId : value)
| AddReadyListener (callback : value)
| AddErrorListener (callback : value).

Definition perform (c : call) : M unit :=
  match c with
  | AssimilateProjectNumber env err projectNum =>
      _assimilateProjectNumber env err projectNum
  | AssimilateProjectId env err projectId =>
      _assimilateProjectId env err projectId
  | AddReadyListener callback => addReadyListener callback
  | AddErrorListener callback => addErrorListener callback
  end.

Definition isSettlement (c : call) : bool :=
  match c with
  | AssimilateProjectNumber _ _ _ | AssimilateProjectId _ _ _ => true
  | _ => false
  end.

(** The calls of a lifetime one after the other; a call that throws
    throws to its own caller, and the instance lives on as the call left
    it.  The result is the instance and everything logged so far. *)
Fixpoint lifetime (calls : list call) (this : Configuration) (t : list effect)
    : Configuration * list effect :=
  match calls with
  | [] => (this, t)
  | c :: rest =>
      match perform c this with
      | (this', t', _) => lifetime rest this' (t ++ t')%list
      end
  end.

(** The three parts of what a method call leaves. *)
Definition instanceAfter {A : Type} (x : Configuration * list effect * completion A)
    : Configuration := fst (fst x).
Definition effectsOf {A : Type} (x : Configuration * list effect * completion A)
    : list effect := snd (fst x).
Definition resultOf {A : Type} (x : Configuration * list effect * completion A)
    : completion A := snd x.

Definition emitted (event : string) (t : list effect) : nat :=
  List.length
    (filter (fun e => match e with
                      | Emit ev _ => String.eqb ev event
                      | _ => false
                      end) t).

Definition emissions (t : list effect) : list effect :=
  filter (fun e => match e with Emit _ _ => true | _ => false end) t.

Definition invocations (t : list effect) : list effect :=
  filter (fun e => match e with Invoke _ _ => true | _ => false end) t.

End Class.

End Configuration.


(* ================================================================== *)
(** * Properties of the query builder *)
(* ================================================================== *)

Module ExportFacts.
Import Js.
Import ListErrorOptions.

(** ** Keys of a property table *)

Definition allKeys (P : string -> bool) (o : props) : bool :=
  forallb (fun kv => P (fst kv)) o.

Lemma allKeys_setProp P k v o :
  P k = true -> allKeys P o = true -> allKeys P (setProp k v o) = true.
Proof.
  intros Hk. induction o as [|[k' v'] tl IH]; simpl.
  - now rewrite Hk.
  - intros H. apply andb_true_iff in H as [H1 H2].
    destruct (String.eqb k k'); simpl.
    + now rewrite Hk.
    + now rewrite H1, IH.
Qed.

Lemma allKeys_extend P src : forall acc,
  allKeys P src = true -> allKeys P acc = true ->
  allKeys P (extend acc src) = true.
Proof.
  unfold extend. induction src as [|[k v] tl IH]; simpl; intros acc Hs Ha.
  - exact Ha.
  - apply andb_true_iff in Hs as [Hk Hs].
    apply IH; [exact Hs|].
    destruct v; try (apply allKeys_setProp; assumption); exact Ha.
Qed.

Lemma allKeys_prefixed P prefix entries : forall acc,
  (forall k, P (prefix ++ "." ++ k) = true) ->
  allKeys P acc = true ->
  allKeys P
    (transform entries (fun acc v key => setProp (prefix ++ "." ++ key) v acc) acc)
  = true.
Proof.
  unfold transform. induction entries as [|[k v] tl IH]; simpl; intros acc HP Ha.
  - exact Ha.
  - apply IH; [exact HP|]. apply allKeys_setProp; [apply HP | exact Ha].
Qed.

Lemma extend_undefined acc k : extend acc [(k, Undefined)] = acc.
Proof. reflexivity. Qed.

(** ** The export, field by field *)

Lemma exportPredicate_groupId v : exportPredicate v "groupId" = is_string v.
Proof. vm_compute. reflexivity. Qed.

Lemma exportPredicate_serviceFilter v :
  exportPredicate v "serviceFilter" = validateQueryObjectsForExport v.
Proof. vm_compute. reflexivity. Qed.

Lemma exportPredicate_timeRange v :
  exportPredicate v "timeRange" = validateQueryObjectsForExport v.
Proof. vm_compute. reflexivity. Qed.

Lemma exportPredicate_pageSize v : exportPredicate v "pageSize" = is_number v.
Proof. vm_compute. reflexivity. Qed.

Lemma exportPredicate_pageToken v : exportPredicate v "pageToken" = is_string v.
Proof. vm_compute. reflexivity. Qed.

(** The enumerable methods of the prototype are seen by [pickBy] and are
    all turned down by the filter. *)
Lemma exportPredicate_methods :
  filter (fun kv => exportPredicate (snd kv) (fst kv)) listErrorOptionsPrototype
  = [].
Proof. vm_compute. reflexivity. Qed.

Lemma exportStep_groupId acc v :
  exportStep acc v "groupId" = setProp "groupId" v acc.
Proof. vm_compute. reflexivity. Qed.

Lemma exportStep_serviceFilter acc v :
  exportStep acc v "serviceFilter"
  = extend acc (prefixQueryObjectForExport "serviceFilter" v).
Proof. vm_compute. reflexivity. Qed.

Lemma exportStep_timeRange acc v :
  exportStep acc v "timeRange"
  = extend acc (prefixQueryObjectForExport "timeRange" v).
Proof. vm_compute. reflexivity. Qed.

Lemma exportStep_pageSize acc v :
  exportStep acc v "pageSize" = setProp "pageSize" v acc.
Proof. vm_compute. reflexivity. Qed.

Lemma exportStep_pageToken acc v :
  exportStep acc v "pageToken" = setProp "pageToken" v acc.
Proof. vm_compute. reflexivity. Qed.

(** [exportAsRequestOptions] goes through the five fields in order; a
    field that passes its test is written, the two record fields being
    flattened under their name. *)
Definition exportSteps (this : ListErrorOptions) : props :=
  let acc := [] in
  let acc :=
    if is_string (groupId this)
    then setProp "groupId" (groupId this) acc else acc in
  let acc :=
    if validateQueryObjectsForExport (serviceFilter this)
    then extend acc (prefixQueryObjectForExport "serviceFilter" (serviceFilter this))
    else acc in
  let acc :=
    if validateQueryObjectsForExport (timeRange this)
    then extend acc (prefixQueryObjectForExport "timeRange" (timeRange this))
    else acc in
  let acc :=
    if is_number (pageSize this)
    then setProp "pageSize" (pageSize this) acc else acc in
  if is_string (pageToken this)
  then setProp "pageToken" (pageToken this) acc else acc.

#[local] Opaque exportPredicate exportStep.

Lemma exportAsRequestOptions_steps this :
  exportAsRequestOptions this = exportSteps this.
Proof.
  unfold exportAsRequestOptions, exportSteps, pickBy, entriesIn.
  rewrite filter_app, exportPredicate_methods, app_nil_r.
  unfold instanceEntries, transform. cbn [filter fst snd].
  rewrite exportPredicate_groupId, exportPredicate_serviceFilter,
    exportPredicate_timeRange, exportPredicate_pageSize, exportPredicate_pageToken.
  destruct (is_string (groupId this)),
    (validateQueryObjectsForExport (serviceFilter this)),
    (validateQueryObjectsForExport (timeRange this)),
    (is_number (pageSize this)),
    (is_string (pageToken this));
    cbn [fold_left fst snd];
    rewrite ?exportStep_groupId, ?exportStep_serviceFilter, ?exportStep_timeRange,
      ?exportStep_pageSize, ?exportStep_pageToken;
    reflexivity.
Qed.

(** ** What the export holds *)

Definition periodNames : list string := map fst (ownEntries timePeriods).

Lemma noKeysUnder_allKeys field o :
  noKeysUnder field o
  = allKeys (fun k => negb (String.prefix (field ++ ".") k)) o.
Proof. reflexivity. Qed.

Lemma lookup_none_not_in {A} k (ps : list (string * A)) :
  ~ In k (map fst ps) -> lookup k ps = None.
Proof.
  induction ps as [|[k' v] tl IH]; simpl; intros H; [reflexivity|].
  destruct (String.eqb_spec k k') as [->|Hne].
  - exfalso. apply H. now left.
  - apply IH. intros Hin. apply H. now right.
Qed.

(** A name that [timePeriods] neither owns nor inherits reads as
    [undefined]. *)
Lemma getProp_timePeriods_unknown t :
  ~ In t periodNames -> ~ In t (map fst objectPrototype) ->
  getProp timePeriods t = Undefined.
Proof.
  intros Hown Hinh. unfold getProp.
  change (ownProp timePeriods t) with (lookup t (ownEntries timePeriods)).
  rewrite (lookup_none_not_in t _ Hown). cbn [timePeriods].
  now rewrite (lookup_none_not_in t _ Hinh).
Qed.

(** C4, as the code has it: on a fresh builder, [setTimeRange] with
    [PERIOD_ONE_HOUR] followed by the export gives the flattened period
    and, after it, the page size that the constructor set to 10. *)
Theorem setTimeRange_export_fresh :
  exportAsRequestOptions (setTimeRange "PERIOD_ONE_HOUR" new)
  = [ ("timeRange.period", Str "PERIOD_ONE_HOUR"); ("pageSize", Num 10) ].
Proof. vm_compute. reflexivity. Qed.

(** C4 as stated fails: the export of the fresh builder after
    [setTimeRange('PERIOD_ONE_HOUR')] is not the one-entry mapping, it also
    holds [pageSize]. *)
Lemma setTimeRange_export_not_single_entry :
  exportAsRequestOptions (setTimeRange "PERIOD_ONE_HOUR" new)
  <> [ ("timeRange.period", Str "PERIOD_ONE_HOUR") ]
  /\ lookup "pageSize" (exportAsRequestOptions (setTimeRange "PERIOD_ONE_HOUR" new))
     = Some (Num 10).
Proof. split; [rewrite setTimeRange_export_fresh; discriminate | reflexivity]. Qed.



(** C10, as the code has it: [setTimeRange] with a name that is neither
    one of the five periods nor a property that every object inherits
    stores [{period: undefined}]; that record has a key and passes the
    export test, but [extend] does not copy a property whose value is
    [undefined], so the export has no key under [timeRange.]. *)
Theorem setTimeRange_unknown_period (this : ListErrorOptions) (t : string) :
  ~ In t periodNames ->
  ~ In t (map fst objectPrototype) ->
  timeRange (setTimeRange t this) = Obj [ ("period", Undefined) ]
  /\ validateQueryObjectsForExport (timeRange (setTimeRange t this)) = true
  /\ noKeysUnder "timeRange" (exportAsRequestOptions (setTimeRange t this)) = true.
Proof.
  intros Hown Hinh.
  assert (Htr : timeRange (setTimeRange t this) = Obj [ ("period", Undefined) ]).
  { unfold setTimeRange. cbn [timeRange].
    now rewrite (getProp_timePeriods_unknown t Hown Hinh). }
  split; [exact Htr|]. split; [now rewrite Htr|].
  rewrite exportAsRequestOptions_steps, noKeysUnder_allKeys.
  unfold exportSteps. rewrite Htr.
  change (validateQueryObjectsForExport (Obj [ ("period", Undefined) ])) with true.
  change (prefixQueryObjectForExport "timeRange" (Obj [ ("period", Undefined) ]))
    with [ ("timeRange.period", Undefined) ].
  cbv iota. rewrite !extend_undefined.
  change (groupId (setTimeRange t this)) with (groupId this).
  change (serviceFilter (setTimeRange t this)) with (serviceFilter this).
  change (pageSize (setTimeRange t this)) with (pageSize this).
  change (pageToken (setTimeRange t this)) with (pageToken this).
  destruct (is_string (groupId this)),
    (validateQueryObjectsForExport (serviceFilter this)),
    (is_number (pageSize this)), (is_string (pageToken this));
    repeat first
      [ reflexivity
      | apply allKeys_setProp; [reflexivity|]
      | apply allKeys_extend;
        [ apply allKeys_prefixed; [intros k; reflexivity | reflexivity] | ] ].
Qed.

Lemma not_in_names (t : string) (l : list string) :
  forallb (fun k => negb (String.eqb t k)) l = true -> ~ In t l.
Proof.
  induction l as [|k tl IH]; simpl; intros H Hin; [exact Hin|].
  apply andb_true_iff in H as [H1 H2]. destruct Hin as [->|Hin].
  - now rewrite String.eqb_refl in H1.
  - now apply IH.
Qed.

(** An instance of [setTimeRange_unknown_period]: the name
    [PERIOD_ONE_MINUTE] on a fresh builder. *)
Lemma setTimeRange_unknown_period_witness :
  timeRange (setTimeRange "PERIOD_ONE_MINUTE" new) = Obj [ ("period", Undefined) ]
  /\ validateQueryObjectsForExport (timeRange (setTimeRange "PERIOD_ONE_MINUTE" new))
     = true
  /\ noKeysUnder "timeRange"
       (exportAsRequestOptions (setTimeRange "PERIOD_ONE_MINUTE" new)) = true.
Proof.
  apply (setTimeRange_unknown_period new "PERIOD_ONE_MINUTE");
    apply not_in_names; reflexivity.
Defined.

(** C10 as stated fails: after [setTimeRange('PERIOD_ONE_MINUTE')] the
    export has no [timeRange.period] entry bound to [undefined]; it has no
    [timeRange.period] key at all. *)
Lemma setTimeRange_unknown_period_not_exported :
  ~ In ("timeRange.period", Undefined)
      (exportAsRequestOptions (setTimeRange "PERIOD_ONE_MINUTE" new))
  /\ hasKey "timeRange.period"
       (exportAsRequestOptions (setTimeRange "PERIOD_ONE_MINUTE" new)) = false.
Proof.
  split; [|vm_compute; reflexivity].
  replace (exportAsRequestOptions (setTimeRange "PERIOD_ONE_MINUTE" new))
    with [ ("pageSize", Num 10) ] by (vm_compute; reflexivity).
  intros [H|[]]. discriminate H.
Qed.

(** A name that every object inherits is not [undefined] in
    [timePeriods]: [setTimeRange('toString')] stores a function, and the
    export carries it. *)
Lemma setTimeRange_inherited_name :
  exportAsRequestOptions (setTimeRange "toString" new)
  = [ ("timeRange.period", Fn "toString"); ("pageSize", Num 10) ].
Proof. vm_compute. reflexivity. Qed.

End ExportFacts.

(* ================================================================== *)
(** * Properties of [populateRequestOptions] and of the list handler *)
(* ================================================================== *)

Module PopulateFacts.
Import Js.
Import ListErrorOptions.
Import ListErrorsInterface.

(** Every result is a value: an error object or a builder instance (the
    function has no throwing path). *)
Lemma stage_value (r : stage) :
  let v := match r with inl e => e | inr opts => Instance opts end in
  (forall e, r = inl e -> instanceofError e = true) ->
  instanceofError v = true \/ instanceofListErrorOptions v = true.
Proof. destruct r as [e|opts]; simpl; intros H; [left; now apply H | now right]. Qed.

Lemma extractServiceFilter_error u opts e :
  extractServiceFilter u opts = inl e -> instanceofError e = true.
Proof.
  unfold extractServiceFilter.
  repeat match goal with
         | |- context [if ?b then _ else _] => destruct b
         end; intros H; inversion H; reflexivity.
Qed.

Lemma extractTimeRange_error u opts e :
  extractTimeRange u opts = inl e -> instanceofError e = true.
Proof.
  unfold extractTimeRange.
  destruct (negb (has u "timeRange")); [discriminate|].
  destruct (getProp u "timeRange"); try (intros H; inversion H; reflexivity).
  destruct (negb (has timePeriods s)); intros H; inversion H; reflexivity.
Qed.

Lemma extractPageSize_error u opts e :
  extractPageSize u opts = inl e -> instanceofError e = true.
Proof.
  unfold extractPageSize.
  repeat match goal with
         | |- context [if ?b then _ else _] => destruct b
         end; intros H; inversion H; reflexivity.
Qed.

Lemma extractPageToken_error u opts e :
  extractPageToken u opts = inl e -> instanceofError e = true.
Proof.
  unfold extractPageToken.
  repeat match goal with
         | |- context [if ?b then _ else _] => destruct b
         end; intros H; inversion H; reflexivity.
Qed.

(** [populateRequestOptions] always returns, and what it returns is an
    [Error] or a [ListErrorOptions] instance. *)
Lemma populateRequestOptions_returns (userOptions : value) :
  instanceofError (populateRequestOptions userOptions) = true
  \/ instanceofListErrorOptions (populateRequestOptions userOptions) = true.
Proof.
  unfold populateRequestOptions.
  destruct (is_string userOptions); [now right|].
  destruct (instanceofListErrorOptions userOptions) eqn:Hi; [now right|].
  destruct (negb (is_object userOptions)
            || negb (is_string (getProp userOptions "groupId"))); [now left|].
  apply stage_value. intros e. unfold andThen.
  destruct (extractServiceFilter userOptions _) as [e1|o1] eqn:H1.
  { intros H; inversion H; subst. eapply extractServiceFilter_error; eauto. }
  destruct (extractTimeRange userOptions o1) as [e2|o2] eqn:H2.
  { intros H; inversion H; subst. eapply extractTimeRange_error; eauto. }
  destruct (extractPageSize userOptions o2) as [e3|o3] eqn:H3.
  { intros H; inversion H; subst. eapply extractPageSize_error; eauto. }
  apply extractPageToken_error.
Qed.

(** The first check is the group id: whatever else the record holds, a
    record without a string [groupId] gets the group-id error. *)
Lemma populateRequestOptions_groupId_first (fields : props) :
  is_string (getProp (Obj fields) "groupId") = false ->
  populateRequestOptions (Obj fields)
  = newError
      ("Must provide a groupId in either the form of a string or an object "
       ++ "with a groupId property that is a string.").
Proof.
  intros H. unfold populateRequestOptions.
  change (is_string (Obj fields)) with false.
  change (instanceofListErrorOptions (Obj fields)) with false.
  cbv iota. rewrite H. reflexivity.
Qed.

(** What the code turns down in a record that has a string group id,
    stage by stage. *)
Definition invalidServiceFilter (u : value) : bool :=
  let serviceFilter' := getProp u "serviceFilter" in
  has u "serviceFilter"
  && (negb (is_object serviceFilter')
      || (has serviceFilter' "service"
          && negb (is_string (getProp serviceFilter' "service")))
      || (has serviceFilter' "version"
          && negb (is_string (getProp serviceFilter' "version")))
      || (has serviceFilter' "resourceType"
          && negb (is_string (getProp serviceFilter' "resourceType")))).

Definition invalidTimeRange (u : value) : bool :=
  has u "timeRange"
  && negb (match getProp u "timeRange" with
           | Str timeRange' => has timePeriods timeRange'
           | _ => false
           end).

Definition invalidPageSize (u : value) : bool :=
  has u "pageSize" && negb (is_number (getProp u "pageSize")).

Definition invalidPageToken (u : value) : bool :=
  has u "pageToken" && negb (is_string (getProp u "pageToken")).

Lemma extractServiceFilter_invalid u opts :
  (if invalidServiceFilter u
   then exists e, extractServiceFilter u opts = inl e
   else exists opts', extractServiceFilter u opts = inr opts').
Proof.
  unfold invalidServiceFilter, extractServiceFilter.
  destruct (has u "serviceFilter"); cbn [negb andb]; [|eauto].
  destruct (is_object (getProp u "serviceFilter")); cbn [negb orb]; [|eauto].
  destruct (has (getProp u "serviceFilter") "service"
            && negb (is_string (getProp (getProp u "serviceFilter") "service")));
    cbn [orb]; [eauto|].
  destruct (has (getProp u "serviceFilter") "version"
            && negb (is_string (getProp (getProp u "serviceFilter") "version")));
    cbn [orb]; [eauto|].
  destruct (has (getProp u "serviceFilter") "resourceType"
            && negb (is_string (getProp (getProp u "serviceFilter") "resourceType")));
    eauto.
Qed.

Lemma extractTimeRange_invalid u opts :
  (if invalidTimeRange u
   then exists e, extractTimeRange u opts = inl e
   else exists opts', extractTimeRange u opts = inr opts').
Proof.
  unfold invalidTimeRange, extractTimeRange.
  destruct (has u "timeRange"); cbn [negb andb]; [|eauto].
  destruct (getProp u "timeRange"); cbn [negb]; eauto.
  destruct (has timePeriods s); cbn [negb]; eauto.
Qed.

Lemma extractPageSize_invalid u opts :
  (if invalidPageSize u
   then exists e, extractPageSize u opts = inl e
   else exists opts', extractPageSize u opts = inr opts').
Proof.
  unfold invalidPageSize, extractPageSize.
  destruct (has u "pageSize"); cbn [negb andb]; [|eauto].
  destruct (is_number (getProp u "pageSize")); cbn [negb]; eauto.
Qed.

Lemma extractPageToken_invalid u opts :
  (if invalidPageToken u
   then exists e, extractPageToken u opts = inl e
   else exists opts', extractPageToken u opts = inr opts').
Proof.
  unfold invalidPageToken, extractPageToken.
  destruct (has u "pageToken"); cbn [negb andb]; [|eauto].
  destruct (is_string (getProp u "pageToken")); cbn [negb]; eauto.
Qed.

(** On a record with a string group id, an error is returned exactly when
    one of the four optional fields is present and turned down; the time
    range is turned down when it is not a string or fails
    [has(timePeriods(), timeRange)]. *)
Lemma populateRequestOptions_error_iff (fields : props) :
  is_string (getProp (Obj fields) "groupId") = true ->
  instanceofError (populateRequestOptions (Obj fields))
  = invalidServiceFilter (Obj fields) || invalidTimeRange (Obj fields)
    || invalidPageSize (Obj fields) || invalidPageToken (Obj fields).
Proof.
  intros Hg. unfold populateRequestOptions.
  change (is_string (Obj fields)) with false.
  change (instanceofListErrorOptions (Obj fields)) with false.
  cbv iota. rewrite Hg. cbn [negb is_object orb]. unfold andThen.
  set (u := Obj fields).
  pose proof (extractServiceFilter_invalid u
                (setGroupId (getProp u "groupId") new)) as H1.
  destruct (invalidServiceFilter u).
  { destruct H1 as [e H1]. rewrite H1.
    apply (extractServiceFilter_error _ _ _ H1). }
  destruct H1 as [o1 H1]. rewrite H1.
  pose proof (extractTimeRange_invalid u o1) as H2.
  destruct (invalidTimeRange u).
  { destruct H2 as [e H2]. rewrite H2. apply (extractTimeRange_error _ _ _ H2). }
  destruct H2 as [o2 H2]. rewrite H2.
  pose proof (extractPageSize_invalid u o2) as H3.
  destruct (invalidPageSize u).
  { destruct H3 as [e H3]. rewrite H3. apply (extractPageSize_error _ _ _ H3). }
  destruct H3 as [o3 H3]. rewrite H3.
  pose proof (extractPageToken_invalid u o3) as H4.
  destruct (invalidPageToken u).
  { destruct H4 as [e H4]. rewrite H4. apply (extractPageToken_error _ _ _ H4). }
  destruct H4 as [o4 H4]. rewrite H4. reflexivity.
Qed.

(** A builder instance is handed back as it is, unchecked. *)
Lemma populateRequestOptions_instance (o : ListErrorOptions) :
  populateRequestOptions (Instance o) = Instance o.
Proof. reflexivity. Qed.

(** The time-range check is [has(timePeriods(), timeRange)]: the five
    period names pass it. *)
Lemma has_timePeriods_names :
  forallb (has timePeriods) ExportFacts.periodNames = true.
Proof. vm_compute. reflexivity. Qed.

(** C9: a bare string and a record holding only that string as [groupId]
    give builders in the same state (that group id, no service filter, no
    time range, page size 10, no page token), hence the same export; in
    particular for ['xyz']. *)
Theorem populateRequestOptions_string_is_groupId_record (s : string) :
  populateRequestOptions (Str s)
  = Instance {| groupId := Str s; serviceFilter := Null; timeRange := Null;
                pageSize := Num 10; pageToken := Null |}
  /\ populateRequestOptions (Obj [ ("groupId", Str s) ])
     = populateRequestOptions (Str s)
  /\ exportAsRequestOptions
       {| groupId := Str s; serviceFilter := Null; timeRange := Null;
          pageSize := Num 10; pageToken := Null |}
     = [ ("groupId", Str s); ("pageSize", Num 10) ].
Proof.
  split; [reflexivity|]. split; [vm_compute; reflexivity|].
  rewrite ExportFacts.exportAsRequestOptions_steps. reflexivity.
Qed.

(** C8, at the input where the code departs from it: a [timeRange] that
    spells a path into one of the period strings is not one of the declared
    periods, yet passes the [has] check; no error is returned, and the
    builder gets the period [undefined]. *)
Theorem populateRequestOptions_accepts_period_path :
  ~ In "PERIOD_ONE_HOUR.length" ExportFacts.periodNames
  /\ has timePeriods "PERIOD_ONE_HOUR.length" = true
  /\ populateRequestOptions
       (Obj [ ("groupId", Str "xyz"); ("timeRange", Str "PERIOD_ONE_HOUR.length") ])
     = Instance {| groupId := Str "xyz"; serviceFilter := Null;
                   timeRange := Obj [ ("period", Undefined) ];
                   pageSize := Num 10; pageToken := Null |}.
Proof.
  split; [apply ExportFacts.not_in_names; reflexivity|].
  split; vm_compute; reflexivity.
Qed.

(** The example of the claim does return an error: the group id is
    missing, and that is the error returned. *)
Lemma populateRequestOptions_version_number :
  populateRequestOptions (Obj [ ("serviceFilter", Obj [ ("version", Num 123) ]) ])
  = newError
      ("Must provide a groupId in either the form of a string or an object "
       ++ "with a groupId property that is a string.").
Proof. vm_compute. reflexivity. Qed.

(** With a group id, the same service filter gets the version error. *)
Lemma populateRequestOptions_groupId_version_number :
  populateRequestOptions
    (Obj [ ("groupId", Str "xyz"); ("serviceFilter", Obj [ ("version", Num 123) ]) ])
  = newError
      "Optional argument serviceFilter.version must be of type string if supplied".
Proof. vm_compute. reflexivity. Qed.

(** Two invalid fields: only the first one met is reported. *)
Lemma populateRequestOptions_stops_at_first :
  populateRequestOptions
    (Obj [ ("groupId", Str "xyz"); ("pageToken", Num 1); ("pageSize", Str "1");
           ("serviceFilter", Bool true) ])
  = newError
      "Optional argument property serviceFilter must be of type object if supplied".
Proof. vm_compute. reflexivity. Qed.

(** C6, as the code has it: when the configuration lacks credentials the
    handler returns the error at once; nothing else happens, so a callback
    that was given is not called. *)
Theorem listErrors_lacking_credentials (userOptions callback : value) :
  listErrors true userOptions callback
  = ([], newError "Valid credentials have not been supplied").
Proof. reflexivity. Qed.

(** The validation branch of the same handler does call the callback with
    the error before returning it. *)
Lemma listErrors_validation_error (userOptions : value) (cb : string) :
  instanceofError (populateRequestOptions userOptions) = true ->
  listErrors false userOptions (Fn cb)
  = ([CallCallback (populateRequestOptions userOptions) Null],
     populateRequestOptions userOptions).
Proof. intros H. unfold listErrors. rewrite H. reflexivity. Qed.

End PopulateFacts.

(* ================================================================== *)
(** * Properties of the dispatcher *)
(* ================================================================== *)

Module DispatcherFacts.
Import Js.
Import RequestHandler.

(** What the preflight reports as an error, if anything. *)
Definition preflightError (self : RequestHandler) : option value :=
  if negb (getShouldReportErrorsToAPI (_config self)) then
    Some ClientNotConfiguredToSendErrors
  else
    match getProjectId (_config self) with
    | inl errMessage => Some (UnableToRetrieveProjectId errMessage)
    | inr _ => None
    end.

Lemma requestPreflight_error self userCb readyCb e :
  preflightError self = Some e ->
  requestPreflight self userCb readyCb
  = LoggerError (Str (message e))
      :: readyCb (if is_fn userCb then userCb else noOp) e None.
Proof.
  unfold preflightError, requestPreflight.
  destruct (negb (getShouldReportErrorsToAPI (_config self))).
  - intros H; inversion H; reflexivity.
  - destruct (getProjectId (_config self)); intros H; inversion H; reflexivity.
Qed.

Lemma preflightError_truthy self e : preflightError self = Some e -> truthy e = true.
Proof.
  unfold preflightError.
  destruct (negb (getShouldReportErrorsToAPI (_config self))).
  - intros H; inversion H; reflexivity.
  - destruct (getProjectId (_config self)); intros H; inversion H; reflexivity.
Qed.

(** [sendError] stops at a preflight error: the error is logged and handed
    to the callback, the transport is not asked. *)
Lemma sendError_short_circuits self errorMessage (cb : string) e :
  preflightError self = Some e ->
  sendError self errorMessage (Fn cb)
  = [LoggerError (Str (message e)); Call (Fn cb) e Null Null].
Proof.
  intros H. unfold sendError. rewrite (requestPreflight_error _ _ _ _ H).
  now rewrite (preflightError_truthy _ _ H).
Qed.

(** So does [deleteAllErrors]. *)
Lemma deleteAllErrors_short_circuits self (cb : string) e :
  preflightError self = Some e ->
  deleteAllErrors self (Fn cb)
  = [LoggerError (Str (message e)); Call (Fn cb) e Null Null].
Proof.
  intros H. unfold deleteAllErrors. rewrite (requestPreflight_error _ _ _ _ H).
  now rewrite (preflightError_truthy _ _ H).
Qed.

(** C3, as the code has it for [listErrors]: its continuation does not look
    at the preflight error.  The transport is asked all the same, with an
    address that has no project id, and the callback gets the answer of the
    transport instead of the preflight error. *)
Theorem listErrors_ignores_preflight_error self listErrorOptions (cb : string) e :
  preflightError self = Some e ->
  let opts := {| uri_ := manufactureAPIHref None API_ENDPOINTS_listEvents
                           (extend (getAPIKeyOptions self)
                              (ListErrorOptions.exportAsRequestOptions listErrorOptions));
                 method := "GET"; json := None |} in
  let t := listErrors self listErrorOptions (Fn cb) in
  requested t = true
  /\ In (Request opts) t
  /\ callsTo cb t
     = [ (fst (fst (_request self opts)), snd (fst (_request self opts)),
          snd (_request self opts)) ].
Proof.
  intros H opts t. subst t. unfold listErrors.
  rewrite (requestPreflight_error _ _ _ _ H). fold opts.
  unfold request. destruct (_request self opts) as [[err response] body].
  cbn [fst snd]. repeat split.
  - simpl. right. now left.
  - unfold callsTo. cbn [flat_map app]. rewrite flat_map_app.
    destruct (truthy err); cbn; rewrite String.eqb_refl; reflexivity.
Qed.

(** An instance of [listErrors_ignores_preflight_error]: reporting is
    disabled, the transport answers without error. *)
Lemma listErrors_ignores_preflight_error_witness :
  let self := {| _request := fun _ => (Null, Obj [], Obj []);
                 _config := {| getShouldReportErrorsToAPI := false;
                               getProjectId := inr "my-project";
                               getKey := Null |} |} in
  requested (listErrors self ListErrorOptions.new (Fn "cb")) = true
  /\ callsTo "cb" (listErrors self ListErrorOptions.new (Fn "cb"))
     = [ (Null, Obj [], Obj []) ].
Proof.
  intros self.
  destruct (listErrors_ignores_preflight_error self ListErrorOptions.new "cb"
              ClientNotConfiguredToSendErrors eq_refl) as [H1 [_ H3]].
  split; [exact H1 | exact H3].
Defined.

End DispatcherFacts.

(* ================================================================== *)
(** * Properties of the configuration state machine *)
(* ================================================================== *)

Module ConfigurationFacts.
Import Js.
Import Configuration.
Local Open Scope js_scope.

(** ** Running the monad *)

Lemma bind_normal {A B} (m : M A) (k : A -> M B) c c1 t1 a :
  m c = (c1, t1, Normal a) ->
  bind m k c = (let '(c2, t2, r) := k a c1 in (c2, (t1 ++ t2)%list, r)).
Proof. intros H. unfold bind. rewrite H. reflexivity. Qed.

Lemma bind_throw {A B} (m : M A) (k : A -> M B) c c1 t1 e :
  m c = (c1, t1, Throw e) -> bind m k c = (c1, t1, Throw e).
Proof. intros H. unfold bind. rewrite H. reflexivity. Qed.

Lemma invokeAll_run ls arg c :
  invokeAll ls arg c = (c, map (fun l => Invoke l arg) ls, Normal tt).
Proof.
  induction ls as [|l rest IH]; [reflexivity|].
  cbn [invokeAll]. rewrite (bind_normal _ _ c c [Invoke l arg] tt) by reflexivity.
  rewrite IH. reflexivity.
Qed.

(** [emit], as one step. *)
Lemma emit_run event arg c :
  emit event arg c =
  match listenersOf event c, arg with
  | [], TheError e =>
      (c, [Emit event arg], if String.eqb event "error" then Throw e else Normal tt)
  | ls, _ =>
      (set_events (filter (fun l => negb (String.eqb (fst l) event)) (_events c)) c,
       Emit event arg :: map (fun l => Invoke l arg) ls, Normal tt)
  end.
Proof.
  unfold emit.
  rewrite (bind_normal _ _ c c [] c) by reflexivity.
  rewrite (bind_normal _ _ c c [Emit event arg] tt) by reflexivity.
  destruct (listenersOf event c) as [|l ls] eqn:Hl; destruct arg as [|e].
  - rewrite (bind_normal _ _ c _ [] tt) by reflexivity. rewrite invokeAll_run.
    reflexivity.
  - destruct (String.eqb event "error"); reflexivity.
  - rewrite (bind_normal _ _ c _ [] tt) by reflexivity. rewrite invokeAll_run.
    reflexivity.
  - rewrite (bind_normal _ _ c _ [] tt) by reflexivity. rewrite invokeAll_run.
    reflexivity.
Qed.

(** ** What local gathering leaves alone *)

Definition sameCore (c c' : Configuration) : Prop :=
  _initState c' = _initState c
  /\ _initError c' = _initError c
  /\ _events c' = _events c
  /\ _givenConfiguration c' = _givenConfiguration c.

Lemma sameCore_refl c : sameCore c c.
Proof. repeat split. Qed.

Lemma sameCore_trans c1 c2 c3 : sameCore c1 c2 -> sameCore c2 c3 -> sameCore c1 c3.
Proof.
  intros (A1 & A2 & A3 & A4) (B1 & B2 & B3 & B4).
  repeat split; congruence.
Qed.

#[local] Hint Resolve sameCore_refl : core.

(** The exception that [_checkLocalServiceContext] ends in, when the
    supplied configuration names a service or a version as a string. *)
Definition fault (given : value) : option value :=
  if isPlainObject given && isPlainObject (getProp given "serviceContext") then
    if isString (getProp (getProp given "serviceContext") "service") then
      Some (ReferenceError "this_serviceContext is not defined")
    else if isString (getProp (getProp given "serviceContext") "version") then
      Some (TypeError "Cannot set property 'version' of undefined")
    else None
  else None.

Definition gatherCompletion (given : value) : completion unit :=
  match fault given with Some e => Throw e | None => Normal tt end.

Section Class.

Variable isNaN : string -> bool.
Variable packageVersion : string.

Lemma _checkLocalProjectId_run env c :
  exists c', _checkLocalProjectId isNaN env c = (c', [], Normal tt) /\ sameCore c c'.
Proof.
  unfold _checkLocalProjectId.
  rewrite (bind_normal _ _ c c [] c) by reflexivity.
  repeat match goal with
         | |- context [if ?b then _ else _] => destruct b
         end; eexists; (split; [reflexivity | repeat split]).
Qed.

Lemma _checkLocalProjectNumber_run env c :
  exists c', _checkLocalProjectNumber isNaN env c = (c', [], Normal tt) /\ sameCore c c'.
Proof.
  unfold _checkLocalProjectNumber.
  rewrite (bind_normal _ _ c c [] c) by reflexivity.
  repeat match goal with
         | |- context [if ?b then _ else _] => destruct b
         end; eexists; (split; [reflexivity | repeat split]).
Qed.

Lemma _checkLocalServiceContext_run env c :
  exists c',
    _checkLocalServiceContext env c = (c', [], gatherCompletion (_givenConfiguration c))
    /\ sameCore c c'.
Proof.
  unfold _checkLocalServiceContext, gatherCompletion, fault.
  erewrite bind_normal by reflexivity.
  erewrite bind_normal by reflexivity.
  erewrite bind_normal by reflexivity.
  cbn [_givenConfiguration set_serviceContext].
  destruct (isPlainObject (_givenConfiguration c)
            && isPlainObject (getProp (_givenConfiguration c) "serviceContext")).
  - destruct (isString (getProp (getProp (_givenConfiguration c) "serviceContext")
                          "service")).
    + eexists; split; [reflexivity | repeat split].
    + erewrite bind_normal by reflexivity.
      destruct (isString (getProp (getProp (_givenConfiguration c) "serviceContext")
                            "version"));
        eexists; (split; [reflexivity | repeat split]).
  - eexists; split; [reflexivity | repeat split].
Qed.

(** Local gathering logs nothing, touches neither the settlement fields
    nor the listeners, and throws exactly when [fault] says so. *)
Lemma _gatherLocalConfiguration_run env c :
  exists c',
    _gatherLocalConfiguration isNaN env c
    = (c', [], gatherCompletion (_givenConfiguration c))
    /\ sameCore c c'.
Proof.
  unfold _gatherLocalConfiguration.
  destruct (_checkLocalProjectId_run env c) as (c1 & E1 & S1).
  destruct (_checkLocalProjectNumber_run env c1) as (c2 & E2 & S2).
  destruct (_checkLocalServiceContext_run env c2) as (c3 & E3 & S3).
  assert (S13 : sameCore c c3) by eauto using sameCore_trans.
  assert (G : _givenConfiguration c2 = _givenConfiguration c).
  { destruct S1 as (_ & _ & _ & G1), S2 as (_ & _ & _ & G2). congruence. }
  rewrite G in E3.
  rewrite (bind_normal _ _ _ _ _ _ E1), (bind_normal _ _ _ _ _ _ E2).
  unfold gatherCompletion in *.
  destruct (fault (_givenConfiguration c)) as [e|].
  - rewrite (bind_throw _ _ _ _ _ _ E3). eexists; split; [reflexivity | exact S13].
  - rewrite (bind_normal _ _ _ _ _ _ E3).
    rewrite (bind_normal _ _ c3 c3 [] c3) by reflexivity.
    destruct (isPlainObject (_givenConfiguration c3)).
    + destruct (getProp (_givenConfiguration c3) "reportUncaughtExceptions");
        (erewrite bind_normal by reflexivity);
        destruct (isString (getProp _ "key"));
        eexists; (split; [reflexivity | ]);
        destruct S13 as (A & B & C & D); repeat split; assumption.
    + eexists; split; [reflexivity | exact S13].
Qed.

(** ** The integrity check *)

Definition unableToGather : value :=
  Err "Error" "Unable to gather project id or number".

Lemma _checkConfigurationIntegrity_settled c :
  _initState c = true -> _checkConfigurationIntegrity c = (c, [], Normal tt).
Proof.
  intros H. unfold _checkConfigurationIntegrity.
  rewrite (bind_normal _ _ c c [] c) by reflexivity. rewrite H. reflexivity.
Qed.

Lemma emissions_app t t' : emissions (t ++ t') = (emissions t ++ emissions t')%list.
Proof. apply filter_app. Qed.

Lemma invocations_app t t' :
  invocations (t ++ t') = (invocations t ++ invocations t')%list.
Proof. apply filter_app. Qed.

Lemma emissions_invokes ls arg : emissions (map (fun l => Invoke l arg) ls) = [].
Proof. induction ls; [reflexivity | exact IHls]. Qed.

Lemma invocations_invokes ls arg :
  invocations (map (fun l => Invoke l arg) ls) = map (fun l => Invoke l arg) ls.
Proof. induction ls; cbn; [reflexivity | now f_equal]. Qed.

Lemma listenersOf_core event c c' :
  _events c' = _events c -> listenersOf event c' = listenersOf event c.
Proof. intros H. unfold listenersOf. now rewrite H. Qed.

(** The first run of the check: the instance is marked initialized; with
    neither project id nor project number the error is stored and emitted,
    otherwise [ready] is emitted; nothing else of the settlement fields
    moves. *)
Lemma _checkConfigurationIntegrity_first c :
  _initState c = false ->
  let '(c', t, r) := _checkConfigurationIntegrity c in
  _initState c' = true
  /\ _givenConfiguration c' = _givenConfiguration c
  /\ _projectId c' = _projectId c
  /\ _projectNumber c' = _projectNumber c
  /\ (if isNull (_projectId c) && isNull (_projectNumber c)
      then _initError c' = unableToGather
           /\ emissions t = [Emit "error" (TheError unableToGather)]
           /\ invocations t
              = map (fun l => Invoke l (TheError unableToGather)) (listenersOf "error" c)
           /\ r = (match listenersOf "error" c with
                   | [] => Throw unableToGather
                   | _ => Normal tt
                   end)
      else _initError c' = _initError c
           /\ emissions t = [Emit "ready" TheInstance]
           /\ invocations t
              = map (fun l => Invoke l TheInstance) (listenersOf "ready" c)
           /\ r = Normal tt).
Proof.
  intros H. unfold _checkConfigurationIntegrity.
  rewrite (bind_normal _ _ c c [] c) by reflexivity. rewrite H.
  cbn [negb]. erewrite bind_normal by reflexivity.
  erewrite bind_normal by reflexivity.
  cbn [_projectId _projectNumber set_initState].
  destruct (isNull (_projectId c) && isNull (_projectNumber c)).
  - erewrite bind_normal by reflexivity. erewrite bind_normal by reflexivity.
    rewrite emit_run.
    rewrite (listenersOf_core "error" c (set_initError _ (set_initState true c)))
      by reflexivity.
    destruct (listenersOf "error" c) as [|l ls]; cbn;
      rewrite ?emissions_invokes, ?invocations_invokes; repeat split.
  - rewrite emit_run.
    rewrite (listenersOf_core "ready" c (set_initState true c)) by reflexivity.
    destruct (listenersOf "ready" c) as [|l ls]; cbn;
      rewrite ?emissions_invokes, ?invocations_invokes; repeat split.
Qed.

(** ** The settlement path *)

Definition quiet (t : list effect) : Prop := emissions t = [] /\ invocations t = [].

Lemma settlement_run (head : M unit) env c :
  (forall c, exists c0 t0, head c = (c0, t0, Normal tt) /\ sameCore c c0 /\ quiet t0) ->
  exists c1 t0,
    sameCore c c1 /\ quiet t0
    /\ (head ;; _gatherLocalConfiguration isNaN env ;; _checkConfigurationIntegrity) c
       = match fault (_givenConfiguration c) with
         | Some e => (c1, t0, Throw e)
         | None =>
             let '(c2, t2, r) := _checkConfigurationIntegrity c1 in
             (c2, (t0 ++ t2)%list, r)
         end.
Proof.
  intros Hhead. destruct (Hhead c) as (c0 & t0 & E0 & S0 & Q0).
  destruct (_gatherLocalConfiguration_run env c0) as (c1 & E1 & S1).
  exists c1, t0. split; [eauto using sameCore_trans|]. split; [exact Q0|].
  rewrite (bind_normal _ _ _ _ _ _ E0).
  assert (G : _givenConfiguration c0 = _givenConfiguration c) by apply S0.
  rewrite G in E1. unfold gatherCompletion in E1.
  destruct (fault (_givenConfiguration c)) as [e|].
  - rewrite (bind_throw _ _ _ _ _ _ E1). now rewrite app_nil_r.
  - rewrite (bind_normal _ _ _ _ _ _ E1).
    destruct (_checkConfigurationIntegrity c1) as [[c2 t2] r]. reflexivity.
Qed.

Lemma head_number err projectNum c :
  exists c0 t0,
    (if isUndefined err && isNumber projectNum
     then update (set_projectNumber projectNum) else log ConsoleError) c
    = (c0, t0, Normal tt)
    /\ sameCore c c0 /\ quiet t0.
Proof.
  destruct (isUndefined err && isNumber projectNum);
    do 2 eexists; (split; [reflexivity|]); repeat split.
Qed.

Lemma head_id err projectId c :
  exists c0 t0,
    (if isNull err && isString projectId
     then update (set_projectId projectId) else log ConsoleError) c
    = (c0, t0, Normal tt)
    /\ sameCore c c0 /\ quiet t0.
Proof.
  destruct (isNull err && isString projectId);
    do 2 eexists; (split; [reflexivity|]); repeat split.
Qed.

(** Every settlement call, whichever callback it comes through, is local
    gathering followed by the integrity check, after a quiet first step. *)
Lemma settlement_call_run (k : call) c :
  isSettlement k = true ->
  exists c1 t0,
    sameCore c c1 /\ quiet t0
    /\ perform isNaN k c
       = match fault (_givenConfiguration c) with
         | Some e => (c1, t0, Throw e)
         | None =>
             let '(c2, t2, r) := _checkConfigurationIntegrity c1 in
             (c2, (t0 ++ t2)%list, r)
         end.
Proof.
  destruct k as [env err projectNum | env err projectId | cb | cb];
    try discriminate; intros _; cbn [perform].
  - apply (settlement_run _ env c). intros c'. apply head_number.
  - apply (settlement_run _ env c). intros c'. apply head_id.
Qed.

(** ** Registering listeners *)

Lemma addReadyListener_run callback c :
  let x := addReadyListener callback c in
  emissions (effectsOf x) = []
  /\ _initState (instanceAfter x) = _initState c
  /\ _initError (instanceAfter x) = _initError c
  /\ _givenConfiguration (instanceAfter x) = _givenConfiguration c.
Proof.
  unfold addReadyListener. rewrite (bind_normal _ _ c c [] c) by reflexivity.
  destruct (negb (_initState c) && isFunction callback); [repeat split|].
  destruct (_initState c && isNull (_initError c)); [|repeat split].
  unfold callListener. destruct (isFunction callback); repeat split.
Qed.

Lemma addErrorListener_run callback c :
  let x := addErrorListener callback c in
  emissions (effectsOf x) = []
  /\ _initState (instanceAfter x) = _initState c
  /\ _initError (instanceAfter x) = _initError c
  /\ _givenConfiguration (instanceAfter x) = _givenConfiguration c.
Proof.
  unfold addErrorListener. rewrite (bind_normal _ _ c c [] c) by reflexivity.
  destruct (negb (_initState c) && isFunction callback); [repeat split|].
  destruct (_initState c && negb (isNull (_initError c))); [|repeat split].
  unfold callListener. destruct (isFunction callback); repeat split.
Qed.

(** ** The invariant of a lifetime

    Before the first integrity check nothing was emitted and no error is
    stored.  After it, exactly one event was emitted, [ready] with no
    error stored or [error] with the stored error, and local gathering is
    known to run to its end. *)
Definition settledOnce (c : Configuration) (t : list effect) : Prop :=
  if _initState c then
    fault (_givenConfiguration c) = None
    /\ ((_initError c = Null /\ emissions t = [Emit "ready" TheInstance])
        \/ (_initError c = unableToGather
            /\ emissions t = [Emit "error" (TheError unableToGather)]))
  else
    _initError c = Null /\ emissions t = [].

Lemma settledOnce_construct env givenConfig :
  settledOnce (construct packageVersion env givenConfig) [].
Proof. split; reflexivity. Qed.

Lemma settledOnce_same c t c' t' :
  settledOnce c t ->
  _initState c' = _initState c -> _initError c' = _initError c ->
  _givenConfiguration c' = _givenConfiguration c -> emissions t' = [] ->
  settledOnce c' (t ++ t').
Proof.
  unfold settledOnce. intros H A B C D.
  rewrite A, B, C, emissions_app, D, app_nil_r. exact H.
Qed.

Lemma settledOnce_perform (k : call) c t :
  settledOnce c t ->
  settledOnce (instanceAfter (perform isNaN k c))
    (t ++ effectsOf (perform isNaN k c)).
Proof.
  intros Inv. destruct (isSettlement k) eqn:Hk.
  - destruct (settlement_call_run k c Hk) as (c1 & t0 & S & [Q _] & E).
    rewrite E. destruct S as (S1 & S2 & S3 & S4).
    destruct (fault (_givenConfiguration c)) as [e|] eqn:Hf.
    { cbn [instanceAfter effectsOf fst snd].
      apply (settledOnce_same c t); assumption. }
    destruct (_initState c1) eqn:Hs.
    + rewrite (_checkConfigurationIntegrity_settled c1 Hs).
      cbn [instanceAfter effectsOf fst snd]. rewrite app_nil_r.
      apply (settledOnce_same c t); try assumption. congruence.
    + pose proof (_checkConfigurationIntegrity_first c1 Hs) as F.
      destruct (_checkConfigurationIntegrity c1) as [[c2 t2] r].
      cbn [instanceAfter effectsOf fst snd].
      destruct F as (F1 & F2 & _ & _ & F5).
      unfold settledOnce in *. rewrite F1, F2, S4, Hf.
      rewrite <- S1 in Inv. destruct Inv as [I1 I2].
      rewrite !emissions_app, I2, Q. cbn [app].
      split; [reflexivity|].
      destruct (isNull (_projectId c1) && isNull (_projectNumber c1)).
      * right. split; apply F5.
      * left. destruct F5 as (F5 & F6 & _). split; [congruence | exact F6].
  - destruct k as [env err projectNum | env err projectId | cb | cb];
      try discriminate; cbn [perform].
    + destruct (addReadyListener_run cb c) as (A & B & C & D).
      apply (settledOnce_same c t); assumption.
    + destruct (addErrorListener_run cb c) as (A & B & C & D).
      apply (settledOnce_same c t); assumption.
Qed.

Lemma lifetime_step (k : call) rest c t :
  lifetime isNaN (k :: rest) c t
  = lifetime isNaN rest (instanceAfter (perform isNaN k c))
      (t ++ effectsOf (perform isNaN k c)).
Proof.
  cbn [lifetime]. destruct (perform isNaN k c) as [[c' t'] r]. reflexivity.
Qed.

Lemma settledOnce_lifetime calls : forall c t,
  settledOnce c t ->
  settledOnce (fst (lifetime isNaN calls c t)) (snd (lifetime isNaN calls c t)).
Proof.
  induction calls as [|k rest IH]; intros c t Inv; [exact Inv|].
  rewrite lifetime_step. apply IH. now apply settledOnce_perform.
Qed.

Lemma emitted_emissions event t : emitted event t = emitted event (emissions t).
Proof.
  unfold emitted, emissions. induction t as [|e t IH]; [reflexivity|].
  destruct e; cbn; try exact IH.
  destruct (String.eqb event0 event); cbn; now rewrite IH.
Qed.

(** Local gathering runs to its end exactly when [fault] finds nothing
    to throw. *)
Lemma _gatherLocalConfiguration_completes env c :
  resultOf (_gatherLocalConfiguration isNaN env c) = Normal tt
  <-> fault (_givenConfiguration c) = None.
Proof.
  destruct (_gatherLocalConfiguration_run env c) as (c' & E & _). rewrite E.
  unfold gatherCompletion, resultOf. cbn [snd].
  destruct (fault (_givenConfiguration c)); split; congruence.
Qed.

(** A settlement call whose local gathering runs to its end leaves the
    instance initialized. *)
Lemma settlement_initializes (k : call) c :
  isSettlement k = true ->
  fault (_givenConfiguration c) = None ->
  _initState (instanceAfter (perform isNaN k c)) = true.
Proof.
  intros Hk Hf.
  destruct (settlement_call_run k c Hk) as (c1 & t0 & S & _ & E).
  rewrite E, Hf. destruct (_initState c1) eqn:Hs.
  - now rewrite (_checkConfigurationIntegrity_settled c1 Hs).
  - pose proof (_checkConfigurationIntegrity_first c1 Hs) as F.
    destruct (_checkConfigurationIntegrity c1) as [[c2 t2] r]. apply F.
Qed.

(** A settlement call whose local gathering throws stops there: the
    integrity check is not reached, nothing is emitted, and the
    initialization flag is as before. *)
Lemma settlement_stopped (k : call) c e :
  isSettlement k = true ->
  fault (_givenConfiguration c) = Some e ->
  resultOf (perform isNaN k c) = Throw e
  /\ emissions (effectsOf (perform isNaN k c)) = []
  /\ _initState (instanceAfter (perform isNaN k c)) = _initState c.
Proof.
  intros Hk Hf.
  destruct (settlement_call_run k c Hk) as (c1 & t0 & S & [Q _] & E).
  rewrite E, Hf. cbn [resultOf effectsOf instanceAfter fst snd].
  repeat split; [exact Q | apply S].
Qed.

(** ** Events over a lifetime *)

(** Over any lifetime of an instance (any number of listeners registered,
    any number of runs of the settlement path, in any order), [ready] is
    emitted at most once, [error] is emitted at most once, and not both;
    and once the instance is initialized, a further run of the settlement
    path emits nothing, calls no listener and does not throw. *)
Theorem ready_error_exclusive_once (env : Env) (givenConfig : value)
    (calls : list call) :
  let this := fst (lifetime isNaN calls (construct packageVersion env givenConfig) []) in
  let t := snd (lifetime isNaN calls (construct packageVersion env givenConfig) []) in
  emitted "ready" t <= 1
  /\ emitted "error" t <= 1
  /\ (emitted "ready" t = 0 \/ emitted "error" t = 0)
  /\ (forall k : call,
        isSettlement k = true -> _initState this = true ->
        emissions (effectsOf (perform isNaN k this)) = []
        /\ invocations (effectsOf (perform isNaN k this)) = []
        /\ resultOf (perform isNaN k this) = Normal tt).
Proof.
  intros this t.
  pose proof (settledOnce_lifetime calls _ _ (settledOnce_construct env givenConfig))
    as Inv.
  fold this in Inv. fold t in Inv. unfold settledOnce in Inv.
  assert (Counts : emitted "ready" t <= 1 /\ emitted "error" t <= 1
                   /\ (emitted "ready" t = 0 \/ emitted "error" t = 0)).
  { rewrite (emitted_emissions "ready"), (emitted_emissions "error").
    destruct (_initState this).
    - destruct Inv as [_ [[_ E] | [_ E]]]; rewrite E; cbn; auto.
    - destruct Inv as [_ E]. rewrite E. cbn. auto. }
  destruct Counts as (C1 & C2 & C3). repeat split; try assumption.
  all: rename H into Hk; rename H0 into Hs; rewrite Hs in Inv;
    destruct Inv as [Hf _];
    destruct (settlement_call_run k this Hk) as (c1 & t0 & S & [Q1 Q2] & E);
    rewrite E, Hf;
    assert (Hs1 : _initState c1 = true) by (destruct S as [S1 _]; congruence);
    rewrite (_checkConfigurationIntegrity_settled c1 Hs1);
    cbn [effectsOf resultOf fst snd]; rewrite ?app_nil_r; auto.
Qed.

(** On the first run of the settlement path (the instance is not
    initialized yet) in which local gathering runs to its end, the
    instance becomes initialized, and settlement fails exactly when both
    [_projectId] and [_projectNumber] are still [null]: then [_initError]
    is the error and the [error] event is emitted with it; otherwise
    [_initError] stays [null] and [ready] is emitted with the instance. *)
Theorem settlement_fails_iff_unidentified (env : Env) (givenConfig : value)
    (calls : list call) (k : call) :
  let this := fst (lifetime isNaN calls (construct packageVersion env givenConfig) []) in
  isSettlement k = true ->
  _initState this = false ->
  fault (_givenConfiguration this) = None ->
  let this' := instanceAfter (perform isNaN k this) in
  let t' := effectsOf (perform isNaN k this) in
  _initState this' = true
  /\ (if isNull (_projectId this') && isNull (_projectNumber this')
      then _initError this' = Err "Error" "Unable to gather project id or number"
           /\ emissions t' = [Emit "error" (TheError (_initError this'))]
      else _initError this' = Null
           /\ emissions t' = [Emit "ready" TheInstance]).
Proof.
  intros this Hk Hs Hf this' t'.
  pose proof (settledOnce_lifetime calls _ _ (settledOnce_construct env givenConfig))
    as Inv.
  fold this in Inv. unfold settledOnce in Inv. rewrite Hs in Inv.
  destruct Inv as [Hnull _].
  destruct (settlement_call_run k this Hk) as (c1 & t0 & S & [Q1 Q2] & E).
  subst this' t'. rewrite E, Hf.
  destruct S as (S1 & S2 & S3 & S4).
  assert (Hs1 : _initState c1 = false) by congruence.
  pose proof (_checkConfigurationIntegrity_first c1 Hs1) as F.
  destruct (_checkConfigurationIntegrity c1) as [[c2 t2] r].
  cbn [instanceAfter effectsOf fst snd].
  destruct F as (F1 & _ & F3 & F4 & F5).
  split; [exact F1|]. rewrite F3, F4, emissions_app, Q1. cbn [app].
  destruct (isNull (_projectId c1) && isNull (_projectNumber c1)).
  - destruct F5 as (F5 & F6 & _). rewrite F5. split; [reflexivity | exact F6].
  - destruct F5 as (F5 & F6 & _). split; [congruence | exact F6].
Qed.

End Class.

(** C5: on an initialized instance, a listener (a function) that is
    registered late is called at once with the outcome of its kind and is
    not called otherwise: after success [addReadyListener] calls it with
    the instance and [addErrorListener] does nothing; after failure
    [addErrorListener] calls it with the stored error and
    [addReadyListener] does nothing.  Neither registers anything. *)
Theorem late_listener_gets_outcome (this : Configuration) (cb : string) :
  _initState this = true ->
  if isNull (_initError this)
  then addReadyListener (Fn cb) this = (this, [Invoke (Fn cb) TheInstance], Normal tt)
       /\ addErrorListener (Fn cb) this = (this, [], Normal tt)
  else addErrorListener (Fn cb) this
       = (this, [Invoke (Fn cb) (TheError (_initError this))], Normal tt)
       /\ addReadyListener (Fn cb) this = (this, [], Normal tt).
Proof.
  intros Hs. unfold addReadyListener, addErrorListener.
  rewrite !(bind_normal _ _ this this [] this) by reflexivity. rewrite Hs.
  destruct (isNull (_initError this)); split; reflexivity.
Qed.

(** ** Instances *)

(** A stand-in for the host's [isNaN] on strings of digits and letters. *)
Definition notDigits (s : string) : bool := negb (allDigits s).

Definition noEnv : Env :=
  {| NODE_ENV := None; GCLOUD_PROJECT := None;
     GAE_MODULE_NAME := None; GAE_MODULE_VERSION := None |}.

(** An instance with two listeners whose metadata callback succeeded, and
    which is then settled a second time. *)
Lemma ready_error_exclusive_once_witness :
  let calls :=
    [ AddReadyListener (Fn "onReady"); AddErrorListener (Fn "onError");
      AssimilateProjectNumber noEnv Undefined (Num 1234) ] in
  let this := fst (lifetime notDigits calls (construct "0.1.0" noEnv (Obj [])) []) in
  let again := AssimilateProjectNumber noEnv (Err "Error" "ENOTFOUND") Undefined in
  emissions (effectsOf (perform notDigits again this)) = []
  /\ invocations (effectsOf (perform notDigits again this)) = []
  /\ resultOf (perform notDigits again this) = Normal tt.
Proof.
  intros calls this again.
  apply (ready_error_exclusive_once notDigits "0.1.0" noEnv (Obj []) calls);
    reflexivity.
Defined.

(** The metadata callback fails and the supplied configuration names the
    project: the first settlement is a success. *)
Lemma settlement_fails_iff_unidentified_witness :
  let given := Obj [ ("projectId", Str "my-project") ] in
  let k := AssimilateProjectNumber noEnv (Err "Error" "ENOTFOUND") Undefined in
  let x := perform notDigits k (construct "0.1.0" noEnv given) in
  _initState (instanceAfter x) = true
  /\ (if isNull (_projectId (instanceAfter x)) && isNull (_projectNumber (instanceAfter x))
      then _initError (instanceAfter x) = Err "Error" "Unable to gather project id or number"
           /\ emissions (effectsOf x) = [Emit "error" (TheError (_initError (instanceAfter x)))]
      else _initError (instanceAfter x) = Null
           /\ emissions (effectsOf x) = [Emit "ready" TheInstance]).
Proof.
  intros given k x.
  apply (settlement_fails_iff_unidentified notDigits "0.1.0" noEnv given [] k);
    reflexivity.
Defined.

(** A listener registered after a failed settlement. *)
Lemma late_listener_gets_outcome_witness :
  let this :=
    fst (lifetime notDigits
           [ AssimilateProjectNumber noEnv (Err "Error" "ENOTFOUND") Undefined ]
           (construct "0.1.0" noEnv (Obj [])) []) in
  addErrorListener (Fn "late") this
  = (this, [Invoke (Fn "late") (TheError (_initError this))], Normal tt)
  /\ addReadyListener (Fn "late") this = (this, [], Normal tt).
Proof.
  intros this. apply (late_listener_gets_outcome this "late"). reflexivity.
Defined.

(** The two outcomes of the first settlement, run. *)
Example settles_to_error :
  emissions
    (snd (lifetime notDigits
            [ AddErrorListener (Fn "onError");
              AssimilateProjectNumber noEnv (Err "Error" "ENOTFOUND") Undefined ]
            (construct "0.1.0" noEnv (Obj [])) []))
  = [ Emit "error" (TheError (Err "Error" "Unable to gather project id or number")) ].
Proof. reflexivity. Qed.

(** With nobody listening for [error], [emit] throws the error out of the
    settlement path; the instance is initialized all the same. *)
Example settles_to_error_unheard :
  let x := _assimilateProjectNumber notDigits noEnv (Err "Error" "ENOTFOUND") Undefined
             (construct "0.1.0" noEnv (Obj [])) in
  resultOf x = Throw (Err "Error" "Unable to gather project id or number")
  /\ _initState (instanceAfter x) = true
  /\ emissions (effectsOf x)
     = [ Emit "error" (TheError (Err "Error" "Unable to gather project id or number")) ].
Proof. repeat split. Qed.

Example settles_to_ready :
  let x := lifetime notDigits
             [ AssimilateProjectNumber noEnv Undefined (Num 1234) ]
             (construct "0.1.0" noEnv (Obj [])) [] in
  emissions (snd x) = [ Emit "ready" TheInstance ]
  /\ _projectNumber (fst x) = Num 1234 /\ _projectId (fst x) = Null.
Proof. repeat split. Qed.

(** A supplied service name stops local gathering before the integrity
    check: the instance stays uninitialized and nothing is emitted. *)
Example service_name_stops_gathering :
  let given := Obj [ ("projectId", Str "my-project");
                     ("serviceContext", Obj [ ("service", Str "web") ]) ] in
  let x := _assimilateProjectNumber notDigits noEnv Undefined (Num 1234)
             (construct "0.1.0" noEnv given) in
  resultOf x = Throw (ReferenceError "this_serviceContext is not defined")
  /\ _initState (instanceAfter x) = false
  /\ emissions (effectsOf x) = [].
Proof. repeat split. Qed.

End ConfigurationFacts.

(* ================================================================== *)
(** * More on the query builder: what the export holds, key by key *)
(* ================================================================== *)

Module ExportMore.
Import Js.
Import ListErrorOptions.
Import ExportFacts.

(** ** Reading a property table after writes *)

Lemma lookup_setProp_same k v o : lookup k (setProp k v o) = Some v.
Proof.
  induction o as [|[k' v'] tl IH]; simpl.
  - now rewrite String.eqb_refl.
  - destruct (String.eqb k k') eqn:E; simpl; rewrite ?String.eqb_refl, ?E; auto.
Qed.

Lemma lookup_setProp_other k k' v o :
  k <> k' -> lookup k (setProp k' v o) = lookup k o.
Proof.
  intros Hne. apply String.eqb_neq in Hne.
  induction o as [|[k0 v0] tl IH]; simpl.
  - now rewrite Hne.
  - destruct (String.eqb_spec k' k0) as [->|Hk]; simpl.
    + now rewrite Hne.
    + now rewrite IH.
Qed.

Lemma lookup_outside (P : string -> bool) o k :
  allKeys P o = true -> P k = false -> lookup k o = None.
Proof.
  intros Ha Hk. induction o as [|[k' v'] tl IH]; simpl in *; [reflexivity|].
  apply andb_true_iff in Ha as [H1 H2].
  destruct (String.eqb_spec k k') as [->|Hne]; [congruence | now apply IH].
Qed.

Lemma extend_cons acc k v src :
  extend acc ((k, v) :: src)
  = extend (match v with Undefined => acc | _ => setProp k v acc end) src.
Proof. destruct v; reflexivity. Qed.

(** Merging entries whose keys all satisfy [P] leaves every other key as
    it was. *)
Lemma lookup_extend_outside (P : string -> bool) src : forall acc k,
  allKeys P src = true -> P k = false ->
  lookup k (extend acc src) = lookup k acc.
Proof.
  induction src as [|[k' v] tl IH]; intros acc k Ha Hk; [reflexivity|].
  simpl in Ha. apply andb_true_iff in Ha as [H1 H2].
  rewrite extend_cons, (IH _ k H2 Hk).
  assert (Hne : k <> k') by congruence.
  destruct v; try reflexivity; now apply lookup_setProp_other.
Qed.

Definition under (field k : string) : bool := String.prefix (field ++ ".") k.

Lemma prefix_append a b : String.prefix a (a ++ b) = true.
Proof.
  induction a as [|c a IH]; simpl; [now destruct b|].
  destruct (ascii_dec c c); [exact IH | congruence].
Qed.

Lemma append_assoc_ a b c : ((a ++ b) ++ c)%string = (a ++ b ++ c)%string.
Proof. induction a as [|x a IH]; simpl; [reflexivity | now rewrite IH]. Qed.

Lemma under_prefixed field k : under field (field ++ "." ++ k) = true.
Proof. unfold under. rewrite <- append_assoc_. apply prefix_append. Qed.

Lemma prefixed_under field v :
  allKeys (under field) (prefixQueryObjectForExport field v) = true.
Proof.
  unfold prefixQueryObjectForExport.
  apply allKeys_prefixed; [apply under_prefixed | reflexivity].
Qed.

Lemma lookup_extend_serviceFilter acc v k :
  under "serviceFilter" k = false ->
  lookup k (extend acc (prefixQueryObjectForExport "serviceFilter" v)) = lookup k acc.
Proof.
  intros H. apply (lookup_extend_outside (under "serviceFilter")); [|exact H].
  apply prefixed_under.
Qed.

Lemma lookup_extend_timeRange acc v k :
  under "timeRange" k = false ->
  lookup k (extend acc (prefixQueryObjectForExport "timeRange" v)) = lookup k acc.
Proof.
  intros H. apply (lookup_extend_outside (under "timeRange")); [|exact H].
  apply prefixed_under.
Qed.

(** Peel the layers of [exportSteps] off a [lookup]. *)
Ltac peel :=
  repeat first
    [ rewrite lookup_setProp_same
    | rewrite lookup_setProp_other by discriminate
    | rewrite lookup_extend_serviceFilter by reflexivity
    | rewrite lookup_extend_timeRange by reflexivity ].

Lemma export_scalars (this : ListErrorOptions) :
  lookup "groupId" (exportAsRequestOptions this)
  = (if is_string (groupId this) then Some (groupId this) else None)
  /\ lookup "pageSize" (exportAsRequestOptions this)
     = (if is_number (pageSize this) then Some (pageSize this) else None)
  /\ lookup "pageToken" (exportAsRequestOptions this)
     = (if is_string (pageToken this) then Some (pageToken this) else None).
Proof.
  rewrite exportAsRequestOptions_steps. unfold exportSteps.
  destruct (is_string (groupId this)),
    (validateQueryObjectsForExport (serviceFilter this)),
    (validateQueryObjectsForExport (timeRange this)),
    (is_number (pageSize this)),
    (is_string (pageToken this));
    repeat split; peel; reflexivity.
Qed.

(** X1: the three scalar fields come out of the export under their own
    name exactly when they pass their type test: [groupId] and [pageToken]
    when they are strings, [pageSize] when it is a number; otherwise the
    key is absent.  The flattened records never overwrite them. *)
Theorem export_scalar_fields (this : ListErrorOptions) :
  lookup "groupId" (exportAsRequestOptions this)
  = (if is_string (groupId this) then Some (groupId this) else None)
  /\ lookup "pageSize" (exportAsRequestOptions this)
     = (if is_number (pageSize this) then Some (pageSize this) else None)
  /\ lookup "pageToken" (exportAsRequestOptions this)
     = (if is_string (pageToken this) then Some (pageToken this) else None).
Proof. exact (export_scalars this). Qed.

Lemma string_defined v : is_string v = true -> exists s, v = Str s.
Proof. destruct v; try discriminate. eauto. Qed.

(** X2: [setServiceFilter] followed by the export gives each of the three
    subfields back under [serviceFilter.<name>] when the argument was a
    string, and no such key when it was anything else, whatever the rest of
    the builder holds. *)
Theorem setServiceFilter_export (this : ListErrorOptions)
    (service version resourceType : value) :
  let that := setServiceFilter service version resourceType this in
  lookup "serviceFilter.service" (exportAsRequestOptions that)
  = (if is_string service then Some service else None)
  /\ lookup "serviceFilter.version" (exportAsRequestOptions that)
     = (if is_string version then Some version else None)
  /\ lookup "serviceFilter.resourceType" (exportAsRequestOptions that)
     = (if is_string resourceType then Some resourceType else None).
Proof.
  intros that. subst that.
  rewrite exportAsRequestOptions_steps. unfold exportSteps.
  change (groupId (setServiceFilter service version resourceType this))
    with (groupId this).
  change (timeRange (setServiceFilter service version resourceType this))
    with (timeRange this).
  change (pageSize (setServiceFilter service version resourceType this))
    with (pageSize this).
  change (pageToken (setServiceFilter service version resourceType this))
    with (pageToken this).
  unfold setServiceFilter, pickBy. cbn [serviceFilter filter fst snd].
  destruct (is_string service) eqn:H1;
    [destruct (string_defined _ H1) as [s1 ->]|];
    (destruct (is_string version) eqn:H2;
      [destruct (string_defined _ H2) as [s2 ->]|]);
    (destruct (is_string resourceType) eqn:H3;
      [destruct (string_defined _ H3) as [s3 ->]|]);
    destruct (is_string (groupId this)),
      (validateQueryObjectsForExport (timeRange this)),
      (is_number (pageSize this)),
      (is_string (pageToken this));
    cbn [validateQueryObjectsForExport is_object isEmpty negb andb
         prefixQueryObjectForExport ownEntries transform fold_left fst snd
         String.append setProp lookup extend];
    repeat split; peel; reflexivity.
Qed.

(** X3: each of the five period names goes through [setTimeRange] and the
    export unchanged: the export binds [timeRange.period] to that very
    name, whatever the rest of the builder holds. *)
Theorem setTimeRange_export_period (this : ListErrorOptions) (p : string) :
  In p periodNames ->
  timeRange (setTimeRange p this) = Obj [ ("period", Str p) ]
  /\ lookup "timeRange.period" (exportAsRequestOptions (setTimeRange p this))
     = Some (Str p).
Proof.
  intros Hp.
  assert (Hget : getProp timePeriods p = Str p).
  { cbn in Hp. repeat (destruct Hp as [<-|Hp]; [reflexivity|]). destruct Hp. }
  assert (Htr : timeRange (setTimeRange p this) = Obj [ ("period", Str p) ]).
  { unfold setTimeRange. cbn [timeRange]. now rewrite Hget. }
  split; [exact Htr|].
  rewrite exportAsRequestOptions_steps. unfold exportSteps. rewrite Htr.
  change (validateQueryObjectsForExport (Obj [ ("period", Str p) ])) with true.
  change (prefixQueryObjectForExport "timeRange" (Obj [ ("period", Str p) ]))
    with [ ("timeRange.period", Str p) ].
  cbv iota.
  destruct (is_string (groupId (setTimeRange p this))),
    (validateQueryObjectsForExport (serviceFilter (setTimeRange p this))),
    (is_number (pageSize (setTimeRange p this))),
    (is_string (pageToken (setTimeRange p this)));
    cbn [extend fold_left fst snd]; peel; reflexivity.
Qed.

(** An instance of [setTimeRange_export_period]: thirty days on a builder
    that has a group id. *)
Lemma setTimeRange_export_period_witness :
  timeRange (setTimeRange "PERIOD_30_DAYS" (setGroupId (Str "xyz") new))
  = Obj [ ("period", Str "PERIOD_30_DAYS") ]
  /\ lookup "timeRange.period"
       (exportAsRequestOptions
          (setTimeRange "PERIOD_30_DAYS" (setGroupId (Str "xyz") new)))
     = Some (Str "PERIOD_30_DAYS").
Proof.
  apply (setTimeRange_export_period (setGroupId (Str "xyz") new) "PERIOD_30_DAYS").
  simpl. tauto.
Defined.

(** The keys an export can have. *)
Definition exportKey (k : string) : bool :=
  String.eqb k "groupId" || String.eqb k "pageSize" || String.eqb k "pageToken"
  || under "serviceFilter" k || under "timeRange" k.

Lemma exportKey_serviceFilter k : exportKey ("serviceFilter" ++ "." ++ k) = true.
Proof.
  unfold exportKey. rewrite under_prefixed.
  now rewrite orb_true_r.
Qed.

Lemma exportKey_timeRange k : exportKey ("timeRange" ++ "." ++ k) = true.
Proof. unfold exportKey. rewrite (under_prefixed "timeRange"). apply orb_true_r. Qed.

Lemma export_keys (this : ListErrorOptions) :
  allKeys exportKey (exportAsRequestOptions this) = true.
Proof.
  { rewrite exportAsRequestOptions_steps. unfold exportSteps.
    destruct (is_string (groupId this)),
      (validateQueryObjectsForExport (serviceFilter this)),
      (validateQueryObjectsForExport (timeRange this)),
      (is_number (pageSize this)), (is_string (pageToken this));
      repeat first
        [ reflexivity
        | apply allKeys_setProp; [reflexivity|]
        | apply allKeys_extend;
          [ apply allKeys_prefixed;
            [first [exact exportKey_serviceFilter | exact exportKey_timeRange]
            | reflexivity] | ] ]. }
Qed.

(** X4: the export is flat and closed: whatever the five fields hold,
    every key of the export is [groupId], [pageSize], [pageToken], or lies
    under [serviceFilter.] or [timeRange.]; the record fields themselves
    ([serviceFilter], [timeRange]) and the methods of the builder never
    appear as keys. *)
Theorem export_keys_closed (this : ListErrorOptions) :
  allKeys exportKey (exportAsRequestOptions this) = true
  /\ lookup "serviceFilter" (exportAsRequestOptions this) = None
  /\ lookup "timeRange" (exportAsRequestOptions this) = None.
Proof.
  pose proof (export_keys this) as H.
  split; [exact H|].
  split; apply (lookup_outside exportKey _ _ H); reflexivity.
Qed.

Definition defined (v : value) : bool :=
  match v with Undefined => false | _ => true end.

Definition allValues (Q : value -> bool) (o : props) : bool :=
  forallb (fun kv => Q (snd kv)) o.

Lemma allValues_setProp Q k v o :
  Q v = true -> allValues Q o = true -> allValues Q (setProp k v o) = true.
Proof.
  intros Hv. induction o as [|[k' v'] tl IH]; simpl.
  - now rewrite Hv.
  - intros H. apply andb_true_iff in H as [H1 H2].
    destruct (String.eqb k k'); simpl.
    + now rewrite Hv.
    + now rewrite H1, IH.
Qed.

Lemma allValues_extend src : forall acc,
  allValues defined acc = true -> allValues defined (extend acc src) = true.
Proof.
  induction src as [|[k v] tl IH]; intros acc Ha; [exact Ha|].
  rewrite extend_cons. apply IH.
  destruct v; try exact Ha; now apply allValues_setProp.
Qed.

Lemma export_defined (this : ListErrorOptions) :
  allValues defined (exportAsRequestOptions this) = true.
Proof.
  rewrite exportAsRequestOptions_steps. unfold exportSteps.
  destruct (is_string (groupId this)) eqn:Hg,
    (validateQueryObjectsForExport (serviceFilter this)),
    (validateQueryObjectsForExport (timeRange this)),
    (is_number (pageSize this)) eqn:Hn, (is_string (pageToken this)) eqn:Ht;
    repeat first
      [ reflexivity
      | apply allValues_extend
      | apply allValues_setProp;
        [ first [ now destruct (groupId this) | now destruct (pageSize this)
                | now destruct (pageToken this) ] | ] ].
Qed.

(** X5: no key of an export is bound to [undefined]: the scalar fields are
    written only when they are a string or a number, and the merge of the
    flattened records skips undefined subfields. *)
Theorem export_values_defined (this : ListErrorOptions) :
  allValues defined (exportAsRequestOptions this) = true.
Proof. exact (export_defined this). Qed.

Lemma append_inj_l a b c : (a ++ b)%string = (a ++ c)%string -> b = c.
Proof. induction a as [|x a IH]; simpl; intros H; [exact H|]. inversion H. auto. Qed.

Lemma lookup_not_in {A} k (ps : list (string * A)) :
  ~ In k (map fst ps) -> lookup k ps = None.
Proof. apply lookup_none_not_in. Qed.

Lemma flatten_lookup prefix ps : forall acc k,
  NoDup (map fst ps) ->
  lookup (prefix ++ "." ++ k)
    (transform ps (fun acc v key => setProp (prefix ++ "." ++ key) v acc) acc)
  = match lookup k ps with
    | Some v => Some v
    | None => lookup (prefix ++ "." ++ k) acc
    end.
Proof.
  unfold transform.
  induction ps as [|[k' v'] tl IH]; intros acc k Hnd; [reflexivity|].
  inversion Hnd as [|? ? Hnotin Hnd']; subst. cbn [fold_left fst snd lookup].
  rewrite (IH _ k Hnd').
  destruct (String.eqb_spec k k') as [->|Hne].
  - rewrite (lookup_not_in _ _ Hnotin). apply lookup_setProp_same.
  - destruct (lookup k tl); [reflexivity|].
    apply lookup_setProp_other. intros E.
    apply append_inj_l, append_inj_l in E. contradiction.
Qed.

(** X6: flattening keeps every entry and invents none: for a record with
    distinct keys, [prefix.k] is bound in the flattened record exactly as
    [k] is bound in the record. *)
Theorem prefixQueryObjectForExport_lookup (prefix : string) (ps : props) (k : string) :
  NoDup (map fst ps) ->
  lookup (prefix ++ "." ++ k) (prefixQueryObjectForExport prefix (Obj ps))
  = lookup k ps.
Proof.
  intros H. unfold prefixQueryObjectForExport. cbn [ownEntries].
  rewrite (flatten_lookup prefix ps [] k H). now destruct (lookup k ps).
Qed.

(** An instance of [prefixQueryObjectForExport_lookup]: a service filter
    with two subfields. *)
Lemma prefixQueryObjectForExport_lookup_witness :
  lookup ("serviceFilter" ++ "." ++ "version")
    (prefixQueryObjectForExport "serviceFilter"
       (Obj [ ("service", Str "web"); ("version", Str "1.2") ]))
  = lookup "version" [ ("service", Str "web"); ("version", Str "1.2") ].
Proof.
  apply (prefixQueryObjectForExport_lookup "serviceFilter"
           [ ("service", Str "web"); ("version", Str "1.2") ] "version").
  repeat constructor; simpl; intuition discriminate.
Defined.

(** X7: the query of the integration test, for any group id and any of
    the five periods: a fresh builder with [setGroupId] and [setTimeRange]
    exports the group id, the period and the default page size, in that
    order, and nothing else. *)
Theorem groupId_timeRange_export (g p : string) :
  In p periodNames ->
  exportAsRequestOptions (setTimeRange p (setGroupId (Str g) new))
  = [ ("groupId", Str g); ("timeRange.period", Str p); ("pageSize", Num 10) ].
Proof.
  intros Hp. rewrite exportAsRequestOptions_steps.
  cbn in Hp. repeat (destruct Hp as [<-|Hp]; [reflexivity|]). destruct Hp.
Qed.

(** An instance of [groupId_timeRange_export]. *)
Lemma groupId_timeRange_export_witness :
  exportAsRequestOptions (setTimeRange "PERIOD_ONE_WEEK" (setGroupId (Str "xyz") new))
  = [ ("groupId", Str "xyz"); ("timeRange.period", Str "PERIOD_ONE_WEEK");
      ("pageSize", Num 10) ].
Proof.
  apply (groupId_timeRange_export "xyz" "PERIOD_ONE_WEEK"). simpl. tauto.
Defined.

End ExportMore.

(* ================================================================== *)
(** * More on [populateRequestOptions] and the list handler *)
(* ================================================================== *)

Module PopulateMore.
Import Js.
Import ListErrorOptions.
Import ListErrorsInterface.
Import ExportFacts.
Import ExportMore.
Import PopulateFacts.

(** ** What a validated builder holds *)

Definition serviceFilterOK (v : value) : bool :=
  match v with
  | Null => true
  | Obj ps => allValues is_string ps
  | _ => false
  end.

Definition timeRangeOK (v : value) : bool :=
  match v with
  | Null => true
  | Obj [ (k, Str _) ] | Obj [ (k, Undefined) ] => String.eqb k "period"
  | _ => false
  end.

Definition validated (o : ListErrorOptions) : bool :=
  is_string (groupId o)
  && serviceFilterOK (serviceFilter o)
  && timeRangeOK (timeRange o)
  && is_number (pageSize o)
  && (is_null (pageToken o) || is_string (pageToken o)).

Lemma lookup_in {A} k (ps : list (string * A)) v :
  lookup k ps = Some v -> In (k, v) ps.
Proof.
  induction ps as [|[k' v'] tl IH]; simpl; [discriminate|].
  destruct (String.eqb_spec k k') as [->|Hne].
  - intros H; inversion H; now left.
  - intros H; right; now apply IH.
Qed.

(** A name that passes [has(timePeriods(), name)] reads in [timePeriods]
    as itself (one of the five periods) or as [undefined] (a path into a
    period string). *)
Lemma has_timePeriods_getProp t :
  has timePeriods t = true ->
  getProp timePeriods t = Str t \/ getProp timePeriods t = Undefined.
Proof.
  unfold has. cbn [timePeriods]. fold timePeriods.
  destruct (isKey t timePeriods) eqn:Hk.
  - unfold hasOwn, getProp. destruct (ownProp timePeriods t) as [v|] eqn:Ho;
      [intros _|discriminate].
    apply lookup_in in Ho. cbn in Ho.
    repeat (destruct Ho as [Ho|Ho]; [inversion Ho; now left|]). destruct Ho.
  - intros _. right. unfold isKey in Hk.
    apply orb_false_iff in Hk as [Hk Hown].
    apply orb_false_iff in Hk as [Hplain _].
    unfold getProp. unfold hasOwn in Hown.
    destruct (ownProp timePeriods t); [discriminate|].
    destruct (lookup t objectPrototype) as [v|] eqn:Hl; [|reflexivity].
    apply lookup_in in Hl. cbn in Hl.
    repeat (destruct Hl as [Hl|Hl];
            [inversion Hl; subst; vm_compute in Hplain; discriminate|]).
    destruct Hl.
Qed.

Lemma extractServiceFilter_validated u o o' :
  extractServiceFilter u o = inr o' -> validated o = true -> validated o' = true.
Proof.
  unfold extractServiceFilter.
  repeat match goal with
         | |- context [if ?b then _ else _] => destruct b
         end; intros H; inversion H; subst; try (intros; assumption).
  unfold validated, setServiceFilter, pickBy.
  cbn [groupId serviceFilter timeRange pageSize pageToken filter fst snd].
  intros Hv.
  repeat (apply andb_true_iff in Hv as [Hv ?]).
  repeat (apply andb_true_iff; split); try assumption.
  destruct (is_string (getProp (getProp u "serviceFilter") "service")) eqn:E1,
    (is_string (getProp (getProp u "serviceFilter") "version")) eqn:E2,
    (is_string (getProp (getProp u "serviceFilter") "resourceType")) eqn:E3;
    cbn; rewrite ?E1, ?E2, ?E3; reflexivity.
Qed.

Lemma extractTimeRange_validated u o o' :
  extractTimeRange u o = inr o' -> validated o = true -> validated o' = true.
Proof.
  unfold extractTimeRange.
  destruct (negb (has u "timeRange")); [intros H; inversion H; auto|].
  destruct (getProp u "timeRange"); try discriminate.
  destruct (has timePeriods s) eqn:Hh; cbn [negb]; [|discriminate].
  intros H; inversion H; subst. unfold validated, setTimeRange.
  cbn [groupId serviceFilter timeRange pageSize pageToken].
  intros Hv. repeat (apply andb_true_iff in Hv as [Hv ?]).
  repeat (apply andb_true_iff; split); try assumption.
  destruct (has_timePeriods_getProp s Hh) as [-> | ->]; reflexivity.
Qed.

Lemma extractPageSize_validated u o o' :
  extractPageSize u o = inr o' -> validated o = true -> validated o' = true.
Proof.
  unfold extractPageSize.
  destruct (negb (has u "pageSize")); [intros H; inversion H; auto|].
  destruct (is_number (getProp u "pageSize")) eqn:Hn; cbn [negb]; [|discriminate].
  intros H; inversion H; subst. unfold validated, setPageSize.
  cbn [groupId serviceFilter timeRange pageSize pageToken].
  intros Hv. repeat (apply andb_true_iff in Hv as [Hv ?]).
  repeat (apply andb_true_iff; split); assumption.
Qed.

Lemma extractPageToken_validated u o o' :
  extractPageToken u o = inr o' -> validated o = true -> validated o' = true.
Proof.
  unfold extractPageToken.
  destruct (negb (has u "pageToken")); [intros H; inversion H; auto|].
  destruct (is_string (getProp u "pageToken")) eqn:Hn; cbn [negb]; [|discriminate].
  intros H; inversion H; subst. unfold validated, setPageToken.
  cbn [groupId serviceFilter timeRange pageSize pageToken].
  intros Hv. repeat (apply andb_true_iff in Hv as [Hv ?]).
  repeat (apply andb_true_iff; split); try assumption.
  rewrite Hn. apply orb_true_r.
Qed.

(** Every builder that [populateRequestOptions] makes (from a string or a
    record; an instance handed in is not looked at) has a string group id,
    a service filter of strings only, a time range whose period is a
    string or undefined, a numeric page size and a string page token, the
    optional ones when present. *)
Lemma populateRequestOptions_validated (u : value) (o : ListErrorOptions) :
  instanceofListErrorOptions u = false ->
  populateRequestOptions u = Instance o ->
  validated o = true.
Proof.
  intros Hi. unfold populateRequestOptions. rewrite Hi.
  destruct (is_string u) eqn:Hs.
  { intros H; inversion H; subst. unfold validated, setGroupId.
    cbn [groupId serviceFilter timeRange pageSize pageToken new]. now rewrite Hs. }
  destruct (negb (is_object u) || negb (is_string (getProp u "groupId"))) eqn:Hg;
    [discriminate|].
  apply orb_false_iff in Hg as [_ Hg]. apply negb_false_iff in Hg.
  unfold andThen.
  destruct (extractServiceFilter u _) as [e1|o1] eqn:H1;
    [intros H; pose proof (extractServiceFilter_error _ _ _ H1); now destruct e1|].
  destruct (extractTimeRange u o1) as [e2|o2] eqn:H2;
    [intros H; pose proof (extractTimeRange_error _ _ _ H2); now destruct e2|].
  destruct (extractPageSize u o2) as [e3|o3] eqn:H3;
    [intros H; pose proof (extractPageSize_error _ _ _ H3); now destruct e3|].
  destruct (extractPageToken u o3) as [e4|o4] eqn:H4;
    [intros H; pose proof (extractPageToken_error _ _ _ H4); now destruct e4|].
  intros H; inversion H; subst.
  apply (extractPageToken_validated _ _ _ H4),
    (extractPageSize_validated _ _ _ H3),
    (extractTimeRange_validated _ _ _ H2),
    (extractServiceFilter_validated _ _ _ H1).
  unfold validated, setGroupId.
  cbn [groupId serviceFilter timeRange pageSize pageToken new]. now rewrite Hg.
Qed.

(** ** What a validated builder exports *)

Definition allEntries (R : string -> value -> bool) (o : props) : bool :=
  forallb (fun kv => R (fst kv) (snd kv)) o.

(** The type of an exported value: a number under [pageSize], a string
    under any other key. *)
Definition queryTyped (k : string) (v : value) : bool :=
  if String.eqb k "pageSize" then is_number v else is_string v.

Lemma allEntries_setProp R k v o :
  R k v = true -> allEntries R o = true -> allEntries R (setProp k v o) = true.
Proof.
  intros Hv. induction o as [|[k' v'] tl IH]; simpl.
  - now rewrite Hv.
  - intros H. apply andb_true_iff in H as [H1 H2].
    destruct (String.eqb k k'); simpl.
    + now rewrite Hv.
    + now rewrite H1, IH.
Qed.

Lemma allEntries_extend R src : forall acc,
  allEntries (fun k v => negb (defined v) || R k v) src = true ->
  allEntries R acc = true ->
  allEntries R (extend acc src) = true.
Proof.
  induction src as [|[k v] tl IH]; intros acc Hs Ha; [exact Ha|].
  simpl in Hs. apply andb_true_iff in Hs as [H1 H2].
  rewrite extend_cons. apply IH; [exact H2|].
  destruct v; try exact Ha; apply allEntries_setProp; assumption.
Qed.

Lemma allEntries_flatten prefix ps : forall acc,
  (forall k, String.eqb (prefix ++ "." ++ k) "pageSize" = false) ->
  allValues is_string ps = true ->
  allEntries queryTyped acc = true ->
  allEntries queryTyped
    (transform ps (fun acc v key => setProp (prefix ++ "." ++ key) v acc) acc)
  = true.
Proof.
  unfold transform. induction ps as [|[k v] tl IH]; intros acc Hp Hs Ha; [exact Ha|].
  simpl in Hs. apply andb_true_iff in Hs as [H1 H2].
  cbn [fold_left fst snd]. apply IH; [exact Hp | exact H2 |].
  apply allEntries_setProp; [|exact Ha]. unfold queryTyped. now rewrite Hp.
Qed.

Lemma allEntries_weaken (R R' : string -> value -> bool) o :
  (forall k v, R k v = true -> R' k v = true) ->
  allEntries R o = true -> allEntries R' o = true.
Proof.
  intros H. induction o as [|[k v] tl IH]; simpl; [reflexivity|].
  intros Ha. apply andb_true_iff in Ha as [H1 H2].
  now rewrite (H _ _ H1), IH.
Qed.

Lemma validated_export (o : ListErrorOptions) :
  validated o = true ->
  allEntries queryTyped (exportAsRequestOptions o) = true.
Proof.
  unfold validated. intros Hv.
  apply andb_true_iff in Hv as [Hv Htok].
  apply andb_true_iff in Hv as [Hv Hsize].
  apply andb_true_iff in Hv as [Hv Htr].
  apply andb_true_iff in Hv as [Hg Hsf].
  rewrite exportAsRequestOptions_steps. unfold exportSteps. rewrite Hg, Hsize.
  set (acc1 := setProp "groupId" (groupId o) []).
  assert (A1 : allEntries queryTyped acc1 = true).
  { apply allEntries_setProp; [exact Hg | reflexivity]. }
  set (acc2 := if validateQueryObjectsForExport (serviceFilter o)
               then extend acc1
                      (prefixQueryObjectForExport "serviceFilter" (serviceFilter o))
               else acc1).
  assert (A2 : allEntries queryTyped acc2 = true).
  { subst acc2. destruct (validateQueryObjectsForExport (serviceFilter o)); [|exact A1].
    apply allEntries_extend; [|exact A1].
    apply (allEntries_weaken queryTyped); [intros k v ->; apply orb_true_r|].
    destruct (serviceFilter o) as [| | | | | | | | ps |]; try discriminate Hsf;
      try reflexivity.
    unfold prefixQueryObjectForExport. cbn [ownEntries].
    apply allEntries_flatten; [intros k; reflexivity | exact Hsf | reflexivity]. }
  set (acc3 := if validateQueryObjectsForExport (timeRange o)
               then extend acc2 (prefixQueryObjectForExport "timeRange" (timeRange o))
               else acc2).
  assert (A3 : allEntries queryTyped acc3 = true).
  { subst acc3. destruct (timeRange o) as [| | | | | | | | ps |];
      try discriminate Htr; try exact A2.
    destruct ps as [|[k v] tl]; try discriminate Htr; try exact A2.
    destruct v, tl; try discriminate Htr; apply String.eqb_eq in Htr; subst k.
    - exact A2.
    - cbn. apply allEntries_setProp; [reflexivity | exact A2]. }
  assert (A4 : allEntries queryTyped (setProp "pageSize" (pageSize o) acc3) = true).
  { apply allEntries_setProp; [exact Hsize | exact A3]. }
  destruct (is_string (pageToken o)) eqn:Ht; [|exact A4].
  apply allEntries_setProp; [exact Ht | exact A4].
Qed.

(** X9: what [populateRequestOptions] builds from a string or a record
    exports well: every value of the export is a string, except the one
    under [pageSize], which is a number; the group id and a page size are
    always there. *)
Theorem populateRequestOptions_export_typed (u : value) (o : ListErrorOptions) :
  instanceofListErrorOptions u = false ->
  populateRequestOptions u = Instance o ->
  allEntries queryTyped (exportAsRequestOptions o) = true
  /\ lookup "groupId" (exportAsRequestOptions o) = Some (groupId o)
  /\ lookup "pageSize" (exportAsRequestOptions o) = Some (pageSize o).
Proof.
  intros Hi Hp. pose proof (populateRequestOptions_validated u o Hi Hp) as Hv.
  split; [now apply validated_export|].
  destruct (export_scalars o) as (E1 & E2 & _). rewrite E1, E2.
  unfold validated in Hv.
  apply andb_true_iff in Hv as [Hv _].
  apply andb_true_iff in Hv as [Hv Hsize].
  apply andb_true_iff in Hv as [Hv _].
  apply andb_true_iff in Hv as [Hg _].
  now rewrite Hg, Hsize.
Qed.

(** An instance of [populateRequestOptions_export_typed]: a record with
    every optional field. *)
Lemma populateRequestOptions_export_typed_witness :
  let o := {| groupId := Str "xyz";
              serviceFilter := Obj [ ("service", Str "web") ];
              timeRange := Obj [ ("period", Str "PERIOD_ONE_DAY") ];
              pageSize := Num 5;
              pageToken := Str "next" |} in
  allEntries queryTyped (exportAsRequestOptions o) = true
  /\ lookup "groupId" (exportAsRequestOptions o) = Some (groupId o)
  /\ lookup "pageSize" (exportAsRequestOptions o) = Some (pageSize o).
Proof.
  intros o.
  apply (populateRequestOptions_export_typed
           (Obj [ ("groupId", Str "xyz");
                  ("serviceFilter", Obj [ ("service", Str "web") ]);
                  ("timeRange", Str "PERIOD_ONE_DAY");
                  ("pageSize", Num 5);
                  ("pageToken", Str "next") ]) o);
    vm_compute; reflexivity.
Defined.

End PopulateMore.

(* ================================================================== *)
(** * More on the dispatcher *)
(* ================================================================== *)

Module DispatcherMore.
Import Js.
Import RequestHandler.
Import ExportFacts.
Import ExportMore.
Import DispatcherFacts.

Definition validatedCb (userCb : value) : value :=
  if is_fn userCb then userCb else noOp.

Definition requests (t : list effect) : list effect :=
  filter (fun e => match e with Request _ => true | _ => false end) t.

(** X11: [sendError] and [deleteAllErrors] stop at a preflight error
    (reporting disabled, or no project id): the error is logged, the
    transport is not asked, and the callback (the no-op when the caller
    gave none) is called once with the error, [null] and [null]. *)
Theorem send_and_delete_short_circuit (self : RequestHandler)
    (errorMessage userCb e : value) :
  preflightError self = Some e ->
  sendError self errorMessage userCb
  = [LoggerError (Str (message e)); Call (validatedCb userCb) e Null Null]
  /\ deleteAllErrors self userCb
     = [LoggerError (Str (message e)); Call (validatedCb userCb) e Null Null]
  /\ requested (sendError self errorMessage userCb) = false
  /\ requested (deleteAllErrors self userCb) = false.
Proof.
  intros H.
  assert (S : sendError self errorMessage userCb
              = [LoggerError (Str (message e)); Call (validatedCb userCb) e Null Null]).
  { unfold sendError. rewrite (requestPreflight_error _ _ _ _ H).
    now rewrite (preflightError_truthy _ _ H). }
  assert (D : deleteAllErrors self userCb
              = [LoggerError (Str (message e)); Call (validatedCb userCb) e Null Null]).
  { unfold deleteAllErrors. rewrite (requestPreflight_error _ _ _ _ H).
    now rewrite (preflightError_truthy _ _ H). }
  rewrite S, D. repeat split.
Qed.

(** An instance of [send_and_delete_short_circuit]: the configuration
    could not resolve a project id, and the caller gave no callback. *)
Lemma send_and_delete_short_circuit_witness :
  let self := {| _request := fun _ => (Null, Obj [], Obj []);
                 _config := {| getShouldReportErrorsToAPI := true;
                               getProjectId := inl "no project id";
                               getKey := Null |} |} in
  let e := UnableToRetrieveProjectId "no project id" in
  sendError self (Obj []) Undefined
  = [LoggerError (Str (message e)); Call noOp e Null Null]
  /\ deleteAllErrors self Undefined
     = [LoggerError (Str (message e)); Call noOp e Null Null]
  /\ requested (sendError self (Obj []) Undefined) = false
  /\ requested (deleteAllErrors self Undefined) = false.
Proof.
  intros self e.
  apply (send_and_delete_short_circuit self (Obj []) Undefined e). reflexivity.
Defined.

(** X13: after a clean preflight the transport's answer reaches the
    callback as it is, whatever it is; when its [err] is truthy a
    [BadAPIInteraction] is logged first, built from the intended action
    and from [err.message] as that value has it (the message of an error
    object, the [message] property of a plain object, [undefined] for a
    string), and otherwise nothing is logged.  The report goes by POST to
    [events:report] with the payload as JSON, the deletion by DELETE to
    [events], both under the resolved project id and with the API key as
    only query option. *)
Theorem transport_answer_forwarded (self : RequestHandler)
    (errorMessage userCb : value) (id : string) :
  getShouldReportErrorsToAPI (_config self) = true ->
  getProjectId (_config self) = inr id ->
  let report := {| uri_ := {| href := API ++ "/" ++ id ++ "/events:report";
                              query := getAPIKeyOptions self |};
                   method := "POST"; json := Some errorMessage |} in
  let delete := {| uri_ := {| href := API ++ "/" ++ id ++ "/events";
                              query := getAPIKeyOptions self |};
                   method := "DELETE"; json := None |} in
  let answer (o : requestOptions) := _request self o in
  sendError self errorMessage userCb
  = (Request report
       :: (if truthy (fst (fst (answer report)))
           then [LoggerBadAPIInteraction "write an error to the API"
                   (errMessage (fst (fst (answer report))))]
           else [])
       ++ [Call (validatedCb userCb) (fst (fst (answer report)))
             (snd (fst (answer report))) (snd (answer report))])%list
  /\ deleteAllErrors self userCb
     = (Request delete
          :: (if truthy (fst (fst (answer delete)))
              then [LoggerBadAPIInteraction
                      ("delete all errors from project: " ++ id)
                      (errMessage (fst (fst (answer delete))))]
              else [])
          ++ [Call (validatedCb userCb) (fst (fst (answer delete)))
                (snd (fst (answer delete))) (snd (answer delete))])%list.
Proof.
  intros Hr Hid report delete answer.
  assert (Hrep : {| uri_ := manufactureAPIHref (Some id) API_ENDPOINTS_report
                              (getAPIKeyOptions self);
                    method := "POST"; json := Some errorMessage |} = report)
    by reflexivity.
  assert (Hdel : {| uri_ := manufactureAPIHref (Some id) API_ENDPOINTS_deleteAllEvents
                              (getAPIKeyOptions self);
                    method := "DELETE"; json := None |} = delete)
    by reflexivity.
  unfold sendError, deleteAllErrors, requestPreflight, request.
  rewrite Hr, Hid. cbn [negb truthy]. rewrite Hrep, Hdel. subst answer. cbv beta.
  destruct (_request self report) as [[e1 r1] b1].
  destruct (_request self delete) as [[e2 r2] b2].
  split; reflexivity.
Qed.

(** An instance of [transport_answer_forwarded]: the transport fails with
    a plain object that carries a message. *)
Lemma transport_answer_forwarded_witness :
  let failure := Obj [ ("message", Str "boom") ] in
  let self := {| _request := fun _ => (failure, Null, Null);
                 _config := {| getShouldReportErrorsToAPI := true;
                               getProjectId := inr "my-project";
                               getKey := Str "secret" |} |} in
  let report := {| uri_ := {| href := API ++ "/my-project/events:report";
                              query := [ ("key", Str "secret") ] |};
                   method := "POST"; json := Some (Obj []) |} in
  let delete := {| uri_ := {| href := API ++ "/my-project/events";
                              query := [ ("key", Str "secret") ] |};
                   method := "DELETE"; json := None |} in
  sendError self (Obj []) (Fn "cb")
  = [ Request report;
      LoggerBadAPIInteraction "write an error to the API" (Str "boom");
      Call (Fn "cb") failure Null Null ]
  /\ deleteAllErrors self (Fn "cb")
     = [ Request delete;
         LoggerBadAPIInteraction "delete all errors from project: my-project"
           (Str "boom");
         Call (Fn "cb") failure Null Null ].
Proof.
  intros failure self report delete.
  exact (transport_answer_forwarded self (Obj []) (Fn "cb") "my-project"
           eq_refl eq_refl).
Defined.

(** ** The query of a list request *)

Lemma in_keys_setProp k' k v o :
  In k' (map fst (setProp k v o)) -> k' = k \/ In k' (map fst o).
Proof.
  induction o as [|[k0 v0] tl IH]; simpl.
  - intros [H|[]]; auto.
  - destruct (String.eqb_spec k k0) as [->|Hne]; simpl.
    + intros [H|H]; auto.
    + intros [H|H]; auto. destruct (IH H); auto.
Qed.

Lemma NoDup_setProp k v o :
  NoDup (map fst o) -> NoDup (map fst (setProp k v o)).
Proof.
  induction o as [|[k0 v0] tl IH]; simpl; intros H.
  - constructor; [intros [] | constructor].
  - inversion H as [|? ? Hnotin Hnd]; subst.
    destruct (String.eqb_spec k k0) as [->|Hne]; simpl.
    + now constructor.
    + constructor; [|now apply IH].
      intros Hin. apply in_keys_setProp in Hin as [->|Hin]; auto.
Qed.

Lemma NoDup_extend src : forall acc,
  NoDup (map fst acc) -> NoDup (map fst (extend acc src)).
Proof.
  induction src as [|[k v] tl IH]; intros acc H; [exact H|].
  rewrite extend_cons. apply IH. destruct v; try exact H; now apply NoDup_setProp.
Qed.

Lemma export_nodup (this : ListErrorOptions) :
  NoDup (map fst (ListErrorOptions.exportAsRequestOptions this)).
Proof.
  rewrite exportAsRequestOptions_steps. unfold exportSteps.
  destruct (is_string (groupId this)),
    (ListErrorOptions.validateQueryObjectsForExport (serviceFilter this)),
    (ListErrorOptions.validateQueryObjectsForExport (timeRange this)),
    (is_number (pageSize this)), (is_string (pageToken this));
    repeat first [ apply NoDup_setProp | apply NoDup_extend ]; constructor.
Qed.

(** Merging a table with distinct keys and no undefined value: the merged
    table reads as the source where the source has the key, and as the
    target elsewhere. *)
Lemma lookup_extend src : forall acc k,
  NoDup (map fst src) -> allValues defined src = true ->
  lookup k (extend acc src)
  = match lookup k src with Some v => Some v | None => lookup k acc end.
Proof.
  induction src as [|[k' v] tl IH]; intros acc k Hnd Hd; [reflexivity|].
  inversion Hnd as [|? ? Hnotin Hnd']; subst.
  simpl in Hd. apply andb_true_iff in Hd as [Hv Hd].
  rewrite extend_cons, (IH _ k Hnd' Hd). cbn [lookup].
  destruct (String.eqb_spec k k') as [->|Hne].
  - rewrite (lookup_not_in _ _ Hnotin). destruct v; try discriminate Hv;
      apply lookup_setProp_same.
  - destruct (lookup k tl); [reflexivity|].
    destruct v; try discriminate Hv; now apply lookup_setProp_other.
Qed.

(** X14: after a clean preflight [listErrors] asks the transport once, by
    GET to [events] under the resolved project id, and the query it sends
    is the export of the builder plus the API key: [key] is bound to the
    configured key when there is one and absent otherwise, and every
    other name is bound exactly as the export binds it.  The export can
    never shadow the key. *)
Theorem listErrors_query (self : RequestHandler) (listErrorOptions : ListErrorOptions)
    (userCb : value) (id : string) :
  getShouldReportErrorsToAPI (_config self) = true ->
  getProjectId (_config self) = inr id ->
  exists r,
    requests (listErrors self listErrorOptions userCb) = [Request r]
    /\ method r = "GET" /\ json r = None
    /\ href (uri_ r) = API ++ "/" ++ id ++ "/events"
    /\ forall k,
         lookup k (query (uri_ r))
         = (if String.eqb k "key"
            then (if truthy (getKey (_config self))
                  then Some (getKey (_config self)) else None)
            else lookup k (ListErrorOptions.exportAsRequestOptions listErrorOptions)).
Proof.
  intros Hr Hid.
  set (q := extend (getAPIKeyOptions self)
              (ListErrorOptions.exportAsRequestOptions listErrorOptions)).
  exists {| uri_ := manufactureAPIHref (Some id) API_ENDPOINTS_listEvents q;
            method := "GET"; json := None |}.
  split.
  { unfold listErrors, requestPreflight, request. rewrite Hr, Hid. cbn [negb].
    fold q.
    destruct (_request self _) as [[err response] body].
    destruct (truthy err); reflexivity. }
  repeat split. intros k. cbn [uri_ query manufactureAPIHref]. subst q.
  rewrite (lookup_extend _ _ k (export_nodup listErrorOptions)
             (export_defined listErrorOptions)).
  destruct (String.eqb_spec k "key") as [->|Hne].
  - rewrite (lookup_outside exportKey _ "key" (export_keys listErrorOptions))
      by reflexivity.
    unfold getAPIKeyOptions. destruct (truthy (getKey (_config self))); reflexivity.
  - destruct (lookup k _); [reflexivity|].
    unfold getAPIKeyOptions. destruct (truthy (getKey (_config self))); [|reflexivity].
    cbn [lookup]. apply String.eqb_neq in Hne. now rewrite Hne.
Qed.

(** An instance of [listErrors_query]: a key, a group id and a period. *)
Lemma listErrors_query_witness :
  let self := {| _request := fun _ => (Null, Obj [], Obj []);
                 _config := {| getShouldReportErrorsToAPI := true;
                               getProjectId := inr "my-project";
                               getKey := Str "secret" |} |} in
  let o := ListErrorOptions.setTimeRange "PERIOD_ONE_DAY"
             (ListErrorOptions.setGroupId (Str "xyz") ListErrorOptions.new) in
  exists r,
    requests (listErrors self o (Fn "cb")) = [Request r]
    /\ method r = "GET" /\ json r = None
    /\ href (uri_ r) = API ++ "/" ++ "my-project" ++ "/events"
    /\ forall k,
         lookup k (query (uri_ r))
         = (if String.eqb k "key" then Some (Str "secret")
            else lookup k (ListErrorOptions.exportAsRequestOptions o)).
Proof.
  intros self o.
  exact (listErrors_query self o (Fn "cb") "my-project" eq_refl eq_refl).
Defined.

End DispatcherMore.

(* ================================================================== *)
(** * More on the configuration: where its values come from *)
(* ================================================================== *)

Module ConfigurationMore.
Import Js.
Import Configuration.
Import ConfigurationFacts.
Local Open Scope js_scope.

(** The service context that local gathering stores: the two module
    variables of the environment, the empty string for an unset one. *)
Definition localServiceContext (env : Env) : ServiceContext :=
  {| service := match envValue (GAE_MODULE_NAME env) with Str s => s | _ => "" end;
     version := match envValue (GAE_MODULE_VERSION env) with Str s => s | _ => "" end |}.

Definition localReport (given : value) (current : bool) : bool :=
  if isPlainObject given then
    match getProp given "reportUncaughtExceptions" with
    | Bool b => b
    | _ => current
    end
  else current.

Definition localKey (given : value) (current : value) : value :=
  if isPlainObject given && isString (getProp given "key")
  then getProp given "key" else current.

Lemma bind_run {A B} (m : M A) (k : A -> M B) c c1 t1 r :
  m c = (c1, t1, r) ->
  bind m k c
  = match r with
    | Normal a => let '(c2, t2, r2) := k a c1 in (c2, (t1 ++ t2)%list, r2)
    | Throw e => (c1, t1, Throw e)
    end.
Proof. intros H. unfold bind. rewrite H. now destruct r. Qed.

Section Class.

Variable isNaN : string -> bool.
Variable packageVersion : string.

(** What [_checkLocalProjectId] leaves in [_projectId]: the value already
    there if it is a string, else the environment's project if it names one
    that is not numeric, else the supplied one under the same test, else
    what was there. *)
Definition localProjectId (env : Env) (given current : value) : value :=
  if isString current then current
  else if namesProject isNaN false (envValue (GCLOUD_PROJECT env))
       then envValue (GCLOUD_PROJECT env)
  else if isPlainObject given && namesProject isNaN false (getProp given "projectId")
       then getProp given "projectId"
  else current.

(** The same for [_projectNumber], which is kept when it is a number and
    otherwise looks for a numeric name. *)
Definition localProjectNumber (env : Env) (given current : value) : value :=
  if isNumber current then current
  else if namesProject isNaN true (envValue (GCLOUD_PROJECT env))
       then envValue (GCLOUD_PROJECT env)
  else if isPlainObject given && namesProject isNaN true (getProp given "projectId")
       then getProp given "projectId"
  else current.

(** The instance after local gathering, field by field.  When the
    service-context step throws, the two fields gathered after it are not
    reached. *)
Definition gathered (env : Env) (c : Configuration) : Configuration :=
  let given := _givenConfiguration c in
  let reached := match fault given with None => true | Some _ => false end in
  {| _initState := _initState c;
     _initError := _initError c;
     _reportUncaughtExceptions :=
       if reached then localReport given (_reportUncaughtExceptions c)
       else _reportUncaughtExceptions c;
     _shouldReportErrorsToAPI := _shouldReportErrorsToAPI c;
     _projectId := localProjectId env given (_projectId c);
     _projectNumber := localProjectNumber env given (_projectNumber c);
     _key := if reached then localKey given (_key c) else _key c;
     _serviceContext := localServiceContext env;
     _version := _version c;
     _givenConfiguration := given;
     _events := _events c |}.

Lemma _checkLocalProjectId_exact env c :
  _checkLocalProjectId isNaN env c
  = (set_projectId (localProjectId env (_givenConfiguration c) (_projectId c)) c,
     [], Normal tt).
Proof.
  destruct c. unfold _checkLocalProjectId, localProjectId.
  rewrite (bind_normal _ _ _ _ [] _ eq_refl).
  cbn [_projectId _givenConfiguration app].
  repeat match goal with
         | |- context [if ?b then _ else _] => destruct b
         end; reflexivity.
Qed.

Lemma _checkLocalProjectNumber_exact env c :
  _checkLocalProjectNumber isNaN env c
  = (set_projectNumber
       (localProjectNumber env (_givenConfiguration c) (_projectNumber c)) c,
     [], Normal tt).
Proof.
  destruct c. unfold _checkLocalProjectNumber, localProjectNumber.
  rewrite (bind_normal _ _ _ _ [] _ eq_refl).
  cbn [_projectNumber _givenConfiguration app].
  repeat match goal with
         | |- context [if ?b then _ else _] => destruct b
         end; reflexivity.
Qed.

Lemma _checkLocalServiceContext_exact env c :
  _checkLocalServiceContext env c
  = (set_serviceContext (localServiceContext env) c, [],
     gatherCompletion (_givenConfiguration c)).
Proof.
  destruct c. unfold _checkLocalServiceContext, gatherCompletion, fault.
  erewrite bind_normal by reflexivity.
  erewrite bind_normal by reflexivity.
  erewrite bind_normal by reflexivity.
  cbn [_givenConfiguration set_serviceContext _serviceContext service version].
  match goal with
  | |- context [if ?b then _ else _] => destruct b
  end; [|reflexivity].
  match goal with
  | |- context [isString ?v] => destruct (isString v)
  end; [reflexivity|].
  erewrite bind_normal by reflexivity.
  match goal with
  | |- context [isString ?v] => destruct (isString v)
  end; reflexivity.
Qed.

(** Local gathering, as one step. *)
Lemma _gatherLocalConfiguration_exact env c :
  _gatherLocalConfiguration isNaN env c
  = (gathered env c, [], gatherCompletion (_givenConfiguration c)).
Proof.
  unfold _gatherLocalConfiguration.
  rewrite (bind_normal _ _ _ _ _ _ (_checkLocalProjectId_exact env c)).
  rewrite (bind_normal _ _ _ _ _ _ (_checkLocalProjectNumber_exact env _)).
  rewrite (bind_run _ _ _ _ _ _ (_checkLocalServiceContext_exact env _)).
  destruct c. unfold gathered, gatherCompletion.
  cbn [set_projectId set_projectNumber set_serviceContext _initState _initError
       _reportUncaughtExceptions _shouldReportErrorsToAPI _projectId _projectNumber
       _key _serviceContext _version _givenConfiguration _events].
  destruct (fault _givenConfiguration0) as [e|]; [reflexivity|].
  cbn [app].
  rewrite (bind_normal _ _ _ _ [] _ eq_refl).
  cbn [set_projectId set_projectNumber set_serviceContext _initState _initError
       _reportUncaughtExceptions _shouldReportErrorsToAPI _projectId _projectNumber
       _key _serviceContext _version _givenConfiguration _events].
  unfold localReport, localKey.
  destruct (isPlainObject _givenConfiguration0); [|reflexivity].
  destruct (getProp _givenConfiguration0 "reportUncaughtExceptions");
    (erewrite bind_normal by reflexivity);
    cbn [andb]; destruct (isString (getProp _givenConfiguration0 "key"));
    reflexivity.
Qed.

(** ** The integrity check and the settlement path, as one step *)

Definition settle (c : Configuration) : Configuration * list effect * completion unit :=
  if _initState c then (c, [], Normal tt)
  else if isNull (_projectId c) && isNull (_projectNumber c) then
    let c1 := set_initError unableToGather (set_initState true c) in
    match listenersOf "error" c with
    | [] => (c1, [Emit "error" (TheError unableToGather)], Throw unableToGather)
    | ls =>
        (set_events
           (filter (fun l => negb (String.eqb (fst l) "error")) (_events c)) c1,
         Emit "error" (TheError unableToGather)
           :: map (fun l => Invoke l (TheError unableToGather)) ls,
         Normal tt)
    end
  else
    (set_events (filter (fun l => negb (String.eqb (fst l) "ready")) (_events c))
       (set_initState true c),
     Emit "ready" TheInstance
       :: map (fun l => Invoke l TheInstance) (listenersOf "ready" c),
     Normal tt).

Lemma _checkConfigurationIntegrity_exact c :
  _checkConfigurationIntegrity c = settle c.
Proof.
  unfold settle. destruct (_initState c) eqn:Hs.
  { now apply _checkConfigurationIntegrity_settled. }
  unfold _checkConfigurationIntegrity.
  rewrite (bind_normal _ _ c c [] c) by reflexivity. rewrite Hs.
  cbn [negb]. erewrite bind_normal by reflexivity.
  erewrite bind_normal by reflexivity.
  cbn [_projectId _projectNumber set_initState].
  destruct (isNull (_projectId c) && isNull (_projectNumber c)).
  - erewrite bind_normal by reflexivity. erewrite bind_normal by reflexivity.
    rewrite emit_run.
    rewrite (listenersOf_core "error" c (set_initError _ (set_initState true c)))
      by reflexivity.
    destruct (listenersOf "error" c) as [|l ls]; reflexivity.
  - rewrite emit_run.
    rewrite (listenersOf_core "ready" c (set_initState true c)) by reflexivity.
    destruct (listenersOf "ready" c) as [|l ls]; reflexivity.
Qed.

(** What the integrity check never touches. *)
Lemma settle_keeps c :
  let c' := instanceAfter (settle c) in
  _projectId c' = _projectId c
  /\ _projectNumber c' = _projectNumber c
  /\ _key c' = _key c
  /\ _serviceContext c' = _serviceContext c
  /\ _reportUncaughtExceptions c' = _reportUncaughtExceptions c
  /\ _shouldReportErrorsToAPI c' = _shouldReportErrorsToAPI c
  /\ _version c' = _version c
  /\ _givenConfiguration c' = _givenConfiguration c.
Proof.
  unfold settle. destruct (_initState c); [repeat split|].
  destruct (isNull (_projectId c) && isNull (_projectNumber c));
    [destruct (listenersOf "error" c)|]; repeat split.
Qed.

(** The first step of a settlement call: the remote value is stored when
    the callback reports success, else the failure is logged. *)
Definition remote (k : call) (c : Configuration) : Configuration :=
  match k with
  | AssimilateProjectNumber _ err projectNum =>
      if isUndefined err && isNumber projectNum
      then set_projectNumber projectNum c else c
  | AssimilateProjectId _ err projectId =>
      if isNull err && isString projectId then set_projectId projectId c else c
  | _ => c
  end.

Definition remoteLog (k : call) : list effect :=
  match k with
  | AssimilateProjectNumber _ err projectNum =>
      if isUndefined err && isNumber projectNum then [] else [ConsoleError]
  | AssimilateProjectId _ err projectId =>
      if isNull err && isString projectId then [] else [ConsoleError]
  | _ => []
  end.

Definition envOf (k : call) : Env :=
  match k with
  | AssimilateProjectNumber env _ _ | AssimilateProjectId env _ _ => env
  | _ => noEnv
  end.

Lemma remote_given k c : _givenConfiguration (remote k c) = _givenConfiguration c.
Proof.
  destruct k; cbn [remote]; try reflexivity;
    match goal with |- context [if ?b then _ else _] => destruct b end; reflexivity.
Qed.

(** A settlement call, as one step: the remote value, local gathering,
    and, unless gathering threw, the integrity check. *)
Lemma settlement_exact (k : call) c :
  isSettlement k = true ->
  perform isNaN k c
  = match fault (_givenConfiguration c) with
    | Some e => (gathered (envOf k) (remote k c), remoteLog k, Throw e)
    | None =>
        let '(c2, t2, r) := settle (gathered (envOf k) (remote k c)) in
        (c2, (remoteLog k ++ t2)%list, r)
    end.
Proof.
  destruct k as [env err projectNum | env err projectId | cb | cb];
    try discriminate; intros _;
    cbn [perform remote remoteLog envOf];
    unfold _assimilateProjectNumber, _assimilateProjectId.
  - set (h := if isUndefined err && isNumber projectNum
              then set_projectNumber projectNum c else c).
    assert (E0 : (if isUndefined err && isNumber projectNum
                  then update (set_projectNumber projectNum) else log ConsoleError) c
                 = (h, if isUndefined err && isNumber projectNum
                       then [] else [ConsoleError], Normal tt)).
    { subst h. destruct (isUndefined err && isNumber projectNum); reflexivity. }
    assert (G : _givenConfiguration h = _givenConfiguration c).
    { subst h. destruct (isUndefined err && isNumber projectNum); reflexivity. }
    rewrite (bind_normal _ _ _ _ _ _ E0).
    rewrite (bind_run _ _ _ _ _ _ (_gatherLocalConfiguration_exact env h)).
    unfold gatherCompletion. rewrite G.
    destruct (fault (_givenConfiguration c)); [now rewrite app_nil_r|].
    rewrite _checkConfigurationIntegrity_exact.
    destruct (settle (gathered env h)) as [[c2 t2] r]. reflexivity.
  - set (h := if isNull err && isString projectId
              then set_projectId projectId c else c).
    assert (E0 : (if isNull err && isString projectId
                  then update (set_projectId projectId) else log ConsoleError) c
                 = (h, if isNull err && isString projectId
                       then [] else [ConsoleError], Normal tt)).
    { subst h. destruct (isNull err && isString projectId); reflexivity. }
    assert (G : _givenConfiguration h = _givenConfiguration c).
    { subst h. destruct (isNull err && isString projectId); reflexivity. }
    rewrite (bind_normal _ _ _ _ _ _ E0).
    rewrite (bind_run _ _ _ _ _ _ (_gatherLocalConfiguration_exact env h)).
    unfold gatherCompletion. rewrite G.
    destruct (fault (_givenConfiguration c)); [now rewrite app_nil_r|].
    rewrite _checkConfigurationIntegrity_exact.
    destruct (settle (gathered env h)) as [[c2 t2] r]. reflexivity.
Qed.

(** The instance after a settlement call has, in every field that the
    integrity check leaves alone, what local gathering put there. *)
Lemma settlement_fields (k : call) c :
  isSettlement k = true ->
  let c' := instanceAfter (perform isNaN k c) in
  let g := gathered (envOf k) (remote k c) in
  _projectId c' = _projectId g
  /\ _projectNumber c' = _projectNumber g
  /\ _key c' = _key g
  /\ _serviceContext c' = _serviceContext g
  /\ _reportUncaughtExceptions c' = _reportUncaughtExceptions g
  /\ _shouldReportErrorsToAPI c' = _shouldReportErrorsToAPI g
  /\ _version c' = _version g
  /\ _givenConfiguration c' = _givenConfiguration g.
Proof.
  intros Hk. cbv zeta. rewrite (settlement_exact k c Hk).
  destruct (fault (_givenConfiguration c)); [repeat split|].
  pose proof (settle_keeps (gathered (envOf k) (remote k c))) as H.
  destruct (settle (gathered (envOf k) (remote k c))) as [[c2 t2] r]. exact H.
Qed.

(** ** Where the project identifiers come from *)

Lemma namesProject_Str numeric s :
  s <> "" -> namesProject isNaN numeric (Str s) = Bool.eqb (negb (isNaN s)) numeric.
Proof. intros H. destruct s; [contradiction | reflexivity]. Qed.

Lemma namesProject_isString numeric v :
  namesProject isNaN numeric v = true -> isString v = true /\ isNumber v = false.
Proof. destruct v; try discriminate. now split. Qed.

(** X15: a value that the metadata service delivers always ends up in the
    instance, whatever the environment and the supplied configuration
    say, and whatever state the instance is in: a successful
    [_assimilateProjectNumber] leaves that number in [_projectNumber], a
    successful [_assimilateProjectId] leaves that string in [_projectId]. *)
Theorem remote_value_wins (env : Env) (c : Configuration) (n : Z) (id : string) :
  _projectNumber
    (instanceAfter (_assimilateProjectNumber isNaN env Undefined (Num n) c))
  = Num n
  /\ _projectId (instanceAfter (_assimilateProjectId isNaN env Null (Str id) c))
     = Str id.
Proof.
  split.
  - destruct (settlement_fields (AssimilateProjectNumber env Undefined (Num n)) c
                eq_refl) as (_ & H & _).
    cbn [perform] in H. rewrite H. reflexivity.
  - destruct (settlement_fields (AssimilateProjectId env Null (Str id)) c
                eq_refl) as (H & _).
    cbn [perform] in H. rewrite H. reflexivity.
Qed.

(** X16: when the metadata callback fails, a non-empty [GCLOUD_PROJECT]
    decides before the supplied configuration is looked at: if it is not
    numeric it becomes [_projectId] (unless a string is already there),
    if it is numeric it becomes [_projectNumber], as the string it is
    (unless a number is already there). *)
Theorem environment_project_first (env : Env) (c : Configuration)
    (err projectNum : value) (s : string) :
  isUndefined err && isNumber projectNum = false ->
  GCLOUD_PROJECT env = Some s ->
  s <> "" ->
  let c' := instanceAfter (_assimilateProjectNumber isNaN env err projectNum c) in
  (isNaN s = true -> isString (_projectId c) = false -> _projectId c' = Str s)
  /\ (isNaN s = false -> isNumber (_projectNumber c) = false ->
      _projectNumber c' = Str s).
Proof.
  intros Hfail Henv Hs c'. subst c'.
  destruct (settlement_fields (AssimilateProjectNumber env err projectNum) c
              eq_refl) as (H1 & H2 & _).
  cbn [perform] in H1, H2. rewrite H1, H2.
  cbn [gathered _projectId _projectNumber remote envOf]. rewrite Hfail.
  unfold localProjectId, localProjectNumber. rewrite Henv. cbn [envValue].
  rewrite !(namesProject_Str _ s Hs).
  split; intros Hn Hc; rewrite Hn, Hc; reflexivity.
Qed.

End Class.

(** An instance of [environment_project_first]: the variable names the
    project, the supplied configuration names another. *)
Lemma environment_project_first_witness :
  let env := {| NODE_ENV := None; GCLOUD_PROJECT := Some "from-env";
                GAE_MODULE_NAME := None; GAE_MODULE_VERSION := None |} in
  let c := construct "0.1.0" env (Obj [ ("projectId", Str "from-config") ]) in
  _projectId
    (instanceAfter
       (_assimilateProjectNumber notDigits env (Err "Error" "ENOTFOUND") Undefined c))
  = Str "from-env".
Proof.
  intros env c.
  apply (environment_project_first notDigits env c (Err "Error" "ENOTFOUND") Undefined
           "from-env"); try reflexivity. discriminate.
Defined.

End ConfigurationMore.

(* ================================================================== *)
(** * Configuration: outcomes of a settlement and of whole lifetimes *)
(* ================================================================== *)

Module SettlingFacts.
Import Js.
Import Configuration.
Import ConfigurationFacts.
Import ConfigurationMore.
Local Open Scope js_scope.

(** ** Registering listeners, exactly *)

Lemma addReadyListener_exact callback c :
  addReadyListener callback c
  = if negb (_initState c) && isFunction callback then
      (set_events (_events c ++ [("ready", callback)])%list c, [], Normal tt)
    else if _initState c && isNull (_initError c) then
      if isFunction callback then (c, [Invoke callback TheInstance], Normal tt)
      else (c, [], Throw (TypeError "callback is not a function"))
    else (c, [], Normal tt).
Proof.
  unfold addReadyListener. rewrite (bind_normal _ _ c c [] c) by reflexivity.
  destruct (negb (_initState c) && isFunction callback); [reflexivity|].
  destruct (_initState c && isNull (_initError c)); [|reflexivity].
  unfold callListener. destruct (isFunction callback); reflexivity.
Qed.

Lemma addErrorListener_exact callback c :
  addErrorListener callback c
  = if negb (_initState c) && isFunction callback then
      (set_events (_events c ++ [("error", callback)])%list c, [], Normal tt)
    else if _initState c && negb (isNull (_initError c)) then
      if isFunction callback
      then (c, [Invoke callback (TheError (_initError c))], Normal tt)
      else (c, [], Throw (TypeError "callback is not a function"))
    else (c, [], Normal tt).
Proof.
  unfold addErrorListener. rewrite (bind_normal _ _ c c [] c) by reflexivity.
  destruct (negb (_initState c) && isFunction callback); [reflexivity|].
  destruct (_initState c && negb (isNull (_initError c))); [|reflexivity].
  unfold callListener. destruct (isFunction callback); reflexivity.
Qed.

(** X17: a callback that is not a function is dropped without a word
    while the instance is not initialized; handed to the registration of
    the outcome that did occur, it is called all the same and the call
    throws a [TypeError]; handed to the other registration it is ignored.
    The instance is never changed. *)
Theorem non_function_listener (this : Configuration) (v : value) :
  isFunction v = false ->
  if _initState this then
    if isNull (_initError this) then
      addReadyListener v this
      = (this, [], Throw (TypeError "callback is not a function"))
      /\ addErrorListener v this = (this, [], Normal tt)
    else
      addErrorListener v this
      = (this, [], Throw (TypeError "callback is not a function"))
      /\ addReadyListener v this = (this, [], Normal tt)
  else
    addReadyListener v this = (this, [], Normal tt)
    /\ addErrorListener v this = (this, [], Normal tt).
Proof.
  intros Hv. rewrite addReadyListener_exact, addErrorListener_exact, Hv.
  destruct (_initState this); cbn [negb andb];
    [destruct (isNull (_initError this))|]; split; reflexivity.
Qed.

(** A number handed to [addReadyListener] after a successful settlement. *)
Lemma non_function_listener_witness :
  let this :=
    fst (lifetime notDigits [ AssimilateProjectNumber noEnv Undefined (Num 1234) ]
           (construct "0.1.0" noEnv (Obj [])) []) in
  addReadyListener (Num 7) this
  = (this, [], Throw (TypeError "callback is not a function"))
  /\ addErrorListener (Num 7) this = (this, [], Normal tt).
Proof.
  intros this. apply (non_function_listener this (Num 7)). reflexivity.
Defined.

(** The fields that registering a listener cannot touch. *)
Definition sameButEvents (c c' : Configuration) : Prop :=
  _initState c' = _initState c
  /\ _initError c' = _initError c
  /\ _reportUncaughtExceptions c' = _reportUncaughtExceptions c
  /\ _shouldReportErrorsToAPI c' = _shouldReportErrorsToAPI c
  /\ _projectId c' = _projectId c
  /\ _projectNumber c' = _projectNumber c
  /\ _key c' = _key c
  /\ _serviceContext c' = _serviceContext c
  /\ _version c' = _version c
  /\ _givenConfiguration c' = _givenConfiguration c.

Lemma addReadyListener_fields callback c :
  sameButEvents c (instanceAfter (addReadyListener callback c)).
Proof.
  rewrite addReadyListener_exact.
  destruct (negb (_initState c) && isFunction callback); [repeat split|].
  destruct (_initState c && isNull (_initError c)); [|repeat split].
  destruct (isFunction callback); repeat split.
Qed.

Lemma addErrorListener_fields callback c :
  sameButEvents c (instanceAfter (addErrorListener callback c)).
Proof.
  rewrite addErrorListener_exact.
  destruct (negb (_initState c) && isFunction callback); [repeat split|].
  destruct (_initState c && negb (isNull (_initError c))); [|repeat split].
  destruct (isFunction callback); repeat split.
Qed.

(** ** Removing the listeners of one event *)

Lemma listeners_removed (event : string) (evs : list (string * value)) :
  filter (fun l => String.eqb (fst l) event)
    (filter (fun l => negb (String.eqb (fst l) event)) evs) = [].
Proof.
  induction evs as [|[e l] evs IH]; [reflexivity|]. cbn [filter fst].
  destruct (String.eqb e event) eqn:E; cbn [negb]; [exact IH|].
  cbn [filter fst]. now rewrite E.
Qed.

Lemma listeners_kept (event other : string) (evs : list (string * value)) :
  String.eqb event other = false ->
  filter (fun l => String.eqb (fst l) other)
    (filter (fun l => negb (String.eqb (fst l) event)) evs)
  = filter (fun l => String.eqb (fst l) other) evs.
Proof.
  intros Hne. induction evs as [|[e l] evs IH]; [reflexivity|]. cbn [filter fst].
  destruct (String.eqb e event) eqn:E; cbn [negb].
  - apply String.eqb_eq in E. subst e. rewrite Hne. exact IH.
  - cbn [filter fst]. destruct (String.eqb e other); [now rewrite IH | exact IH].
Qed.

Section Settling.

Variable isNaN : string -> bool.
Variable packageVersion : string.

Lemma gathered_initState env c : _initState (gathered isNaN env c) = _initState c.
Proof. reflexivity. Qed.

Lemma remote_initState k c : _initState (remote k c) = _initState c.
Proof.
  destruct k; cbn [remote]; try reflexivity;
    match goal with |- context [if ?b then _ else _] => destruct b end; reflexivity.
Qed.

Lemma remote_events k c : _events (remote k c) = _events c.
Proof.
  destruct k; cbn [remote]; try reflexivity;
    match goal with |- context [if ?b then _ else _] => destruct b end; reflexivity.
Qed.

Lemma remote_initError k c : _initError (remote k c) = _initError c.
Proof.
  destruct k; cbn [remote]; try reflexivity;
    match goal with |- context [if ?b then _ else _] => destruct b end; reflexivity.
Qed.

(** A value that names no project: anything but a non-empty string. *)
Definition unnamed (v : value) : bool := negb (isString v) || isEmpty v.

Lemma unnamed_namesProject numeric v :
  unnamed v = true -> namesProject isNaN numeric v = false.
Proof.
  destruct v; try reflexivity. unfold unnamed. cbn [isString is_string negb orb].
  intros H. cbn [namesProject]. now rewrite H.
Qed.

Lemma remoteLog_quiet k : emissions (remoteLog k) = [] /\ invocations (remoteLog k) = [].
Proof.
  destruct k; cbn [remoteLog]; try (split; reflexivity);
    match goal with |- context [if ?b then _ else _] => destruct b end;
    split; reflexivity.
Qed.

(** X18: with no identifier anywhere (the metadata callback failed,
    [GCLOUD_PROJECT] is unset or empty, the supplied configuration has no
    non-empty string as [projectId]) both identifiers stay [null]; on the
    first settlement the error is stored and emitted, the [error]
    listeners are called with it in registration order, and with no
    [error] listener the error is thrown out of the settlement call. *)
Theorem unidentified_settles_to_error (env : Env) (c : Configuration)
    (err projectNum : value) :
  _projectId c = Null ->
  _projectNumber c = Null ->
  isUndefined err && isNumber projectNum = false ->
  unnamed (envValue (GCLOUD_PROJECT env)) = true ->
  unnamed (getProp (_givenConfiguration c) "projectId") = true ->
  let x := _assimilateProjectNumber isNaN env err projectNum c in
  _projectId (instanceAfter x) = Null
  /\ _projectNumber (instanceAfter x) = Null
  /\ (_initState c = false -> fault (_givenConfiguration c) = None ->
      _initState (instanceAfter x) = true
      /\ _initError (instanceAfter x) = unableToGather
      /\ emissions (effectsOf x) = [Emit "error" (TheError unableToGather)]
      /\ invocations (effectsOf x)
         = map (fun l => Invoke l (TheError unableToGather)) (listenersOf "error" c)
      /\ resultOf x
         = match listenersOf "error" c with
           | [] => Throw unableToGather
           | _ => Normal tt
           end).
Proof.
  intros Hid Hnum Hfail Henv Hcfg x. subst x.
  set (k := AssimilateProjectNumber env err projectNum).
  change (_assimilateProjectNumber isNaN env err projectNum c)
    with (perform isNaN k c).
  destruct (settlement_fields isNaN k c eq_refl) as (F1 & F2 & _).
  set (g := gathered isNaN (envOf k) (remote k c)) in *.
  assert (R : remote k c = c) by (subst k; cbn [remote]; now rewrite Hfail).
  assert (Gid : _projectId g = Null).
  { subst g. rewrite R. cbn [gathered _projectId envOf k]. unfold localProjectId.
    rewrite Hid, !(unnamed_namesProject false) by assumption.
    now rewrite andb_false_r. }
  assert (Gnum : _projectNumber g = Null).
  { subst g. rewrite R. cbn [gathered _projectNumber envOf k].
    unfold localProjectNumber.
    rewrite Hnum, !(unnamed_namesProject true) by assumption.
    now rewrite andb_false_r. }
  split; [congruence|]. split; [congruence|].
  intros Hi Hf. rewrite (settlement_exact isNaN k c eq_refl), Hf.
  fold g.
  assert (Gi : _initState g = false) by (subst g; now rewrite R).
  assert (Ev : _events g = _events c) by (subst g; now rewrite R).
  unfold settle. rewrite Gi, Gid, Gnum. cbn [isNull is_null andb].
  rewrite (listenersOf_core "error" c g Ev).
  destruct (remoteLog_quiet k) as [Q1 Q2].
  destruct (listenersOf "error" c) as [|l ls];
    cbn [instanceAfter effectsOf resultOf fst snd];
    rewrite emissions_app, invocations_app, Q1, Q2; cbn [app];
    repeat split.
  - cbn [emissions invocations filter map]. f_equal.
    + apply (emissions_invokes (l :: ls)).
  - cbn [invocations filter]. apply (invocations_invokes (l :: ls)).
Qed.

(** X19: a non-empty [projectId] in the supplied configuration is enough
    to settle: on the first settlement (with local gathering running to
    its end) the instance becomes ready, whatever the metadata callback
    reported.  With no [GCLOUD_PROJECT], a name that is not numeric is
    stored as [_projectId]; a numeric one is stored, as a string, as
    [_projectNumber] when the metadata service gave no number. *)
Theorem supplied_project_settles (env : Env) (c : Configuration)
    (err projectNum : value) (fields : props) (s : string) :
  _givenConfiguration c = Obj fields ->
  getProp (Obj fields) "projectId" = Str s ->
  s <> "" ->
  _initState c = false ->
  fault (Obj fields) = None ->
  let x := _assimilateProjectNumber isNaN env err projectNum c in
  emissions (effectsOf x) = [Emit "ready" TheInstance]
  /\ invocations (effectsOf x)
     = map (fun l => Invoke l TheInstance) (listenersOf "ready" c)
  /\ resultOf x = Normal tt
  /\ _initState (instanceAfter x) = true
  /\ _initError (instanceAfter x) = _initError c
  /\ (GCLOUD_PROJECT env = None -> isString (_projectId c) = false ->
      isNaN s = true -> _projectId (instanceAfter x) = Str s)
  /\ (GCLOUD_PROJECT env = None -> isUndefined err && isNumber projectNum = false ->
      isNumber (_projectNumber c) = false ->
      isNaN s = false -> _projectNumber (instanceAfter x) = Str s).
Proof.
  intros Hg Hp Hs Hi Hf x. subst x.
  set (k := AssimilateProjectNumber env err projectNum).
  change (_assimilateProjectNumber isNaN env err projectNum c)
    with (perform isNaN k c).
  destruct (settlement_fields isNaN k c eq_refl) as (F1 & F2 & _).
  rewrite (settlement_exact isNaN k c eq_refl) in *. rewrite Hg, Hf in *.
  set (g := gathered isNaN (envOf k) (remote k c)) in *.
  assert (Gi : _initState g = false).
  { subst g. now rewrite gathered_initState, remote_initState. }
  assert (Gid : _projectId g
                = localProjectId isNaN env (Obj fields) (_projectId (remote k c))).
  { subst g. cbn [gathered _projectId envOf k]. now rewrite remote_given, Hg. }
  assert (Gnum : _projectNumber g
                 = localProjectNumber isNaN env (Obj fields)
                     (_projectNumber (remote k c))).
  { subst g. cbn [gathered _projectNumber envOf k]. now rewrite remote_given, Hg. }
  assert (Some_id : isNull (_projectId g) && isNull (_projectNumber g) = false).
  { rewrite Gid, Gnum. unfold localProjectId, localProjectNumber.
    rewrite Hp, !(namesProject_Str isNaN _ s Hs). cbn [isPlainObject andb].
    destruct (isNaN s); cbn [negb Bool.eqb].
    - destruct (isString (_projectId (remote k c))) eqn:E1.
      { destruct (_projectId (remote k c)); try discriminate E1. reflexivity. }
      destruct (namesProject isNaN false (envValue (GCLOUD_PROJECT env))) eqn:E2.
      { destruct (envValue (GCLOUD_PROJECT env)); try discriminate E2. reflexivity. }
      reflexivity.
    - apply andb_false_iff. right.
      destruct (isNumber (_projectNumber (remote k c))) eqn:E1.
      { destruct (_projectNumber (remote k c)); try discriminate E1. reflexivity. }
      destruct (namesProject isNaN true (envValue (GCLOUD_PROJECT env))) eqn:E2.
      { destruct (envValue (GCLOUD_PROJECT env)); try discriminate E2. reflexivity. }
      reflexivity. }
  assert (Ev : _events g = _events c).
  { subst g. cbn [gathered _events]. apply remote_events. }
  assert (Er : _initError g = _initError c).
  { subst g. cbn [gathered _initError]. apply remote_initError. }
  unfold settle in *. rewrite Gi, Some_id in *.
  cbn [instanceAfter effectsOf resultOf fst snd] in *.
  rewrite emissions_app, invocations_app.
  assert (Q : emissions (remoteLog k) = [] /\ invocations (remoteLog k) = []).
  { subst k. cbn [remoteLog]. destruct (isUndefined err && isNumber projectNum);
      split; reflexivity. }
  destruct Q as [Q1 Q2]. rewrite Q1, Q2. cbn [app emissions invocations filter].
  rewrite emissions_invokes, invocations_invokes.
  rewrite (listenersOf_core "ready" c g Ev).
  repeat split; try assumption.
  - intros He Hc Hn. rewrite F1, Gid. unfold localProjectId.
    subst k. cbn [remote].
    assert (R : _projectId (if isUndefined err && isNumber projectNum
                            then set_projectNumber projectNum c else c)
                = _projectId c) by (destruct (isUndefined err && isNumber projectNum);
                                    reflexivity).
    rewrite R, Hc, He, Hp. cbn [envValue isPlainObject andb].
    rewrite (namesProject_Str isNaN _ s Hs), Hn. reflexivity.
  - intros He Hfail Hc Hn. rewrite F2, Gnum. unfold localProjectNumber.
    subst k. cbn [remote]. rewrite Hfail, Hc, He, Hp.
    cbn [envValue isPlainObject andb].
    rewrite (namesProject_Str isNaN _ s Hs), Hn. reflexivity.
Qed.

(** ** Listeners registered before the settlement *)

Definition readyCallbacks (calls : list call) : list value :=
  flat_map (fun k => match k with
                     | AddReadyListener cb => if isFunction cb then [cb] else []
                     | _ => []
                     end) calls.

Definition errorCallbacks (calls : list call) : list value :=
  flat_map (fun k => match k with
                     | AddErrorListener cb => if isFunction cb then [cb] else []
                     | _ => []
                     end) calls.

Definition registrations (calls : list call) : bool :=
  forallb (fun k => negb (isSettlement k)) calls.

Lemma sameButEvents_refl c : sameButEvents c c.
Proof. repeat split. Qed.

Lemma sameButEvents_trans c1 c2 c3 :
  sameButEvents c1 c2 -> sameButEvents c2 c3 -> sameButEvents c1 c3.
Proof.
  unfold sameButEvents. intros H1 H2. decompose [and] H1. decompose [and] H2.
  repeat split; congruence.
Qed.

Lemma listenersOf_once event ev cb c :
  listenersOf event (set_events (_events c ++ [(ev, cb)])%list c)
  = (listenersOf event c ++ (if String.eqb ev event then [cb] else []))%list.
Proof.
  unfold listenersOf. cbn [_events set_events]. rewrite filter_app, map_app.
  cbn [filter fst]. now destruct (String.eqb ev event).
Qed.

Lemma registrations_run regs : forall c t,
  registrations regs = true ->
  _initState c = false ->
  let r := lifetime isNaN regs c t in
  snd r = t
  /\ sameButEvents c (fst r)
  /\ listenersOf "ready" (fst r) = (listenersOf "ready" c ++ readyCallbacks regs)%list
  /\ listenersOf "error" (fst r) = (listenersOf "error" c ++ errorCallbacks regs)%list.
Proof.
  induction regs as [|k rest IH]; intros c t Hr Hi.
  { cbn. rewrite !app_nil_r. repeat split. }
  cbn [registrations forallb] in Hr. apply andb_true_iff in Hr as [Hk Hr].
  cbv zeta. rewrite lifetime_step.
  destruct k as [env err projectNum | env err projectId | cb | cb];
    try discriminate Hk; cbn [perform readyCallbacks errorCallbacks flat_map].
  - rewrite addReadyListener_exact, Hi. cbn [negb andb].
    destruct (isFunction cb); cbn [instanceAfter effectsOf fst snd];
      rewrite app_nil_r.
    + destruct (IH (set_events (_events c ++ [("ready", cb)])%list c) t Hr Hi)
        as (A & B & C & D).
      rewrite A, C, D, !listenersOf_once.
      change (String.eqb "ready" "ready") with true.
      change (String.eqb "ready" "error") with false. cbv iota.
      rewrite ?app_nil_r, <- ?app_assoc. repeat split; apply B.
    + destruct (IH c t Hr Hi) as (A & B & C & D). rewrite A, C, D.
      repeat split; apply B.
  - rewrite addErrorListener_exact, Hi. cbn [negb andb].
    destruct (isFunction cb); cbn [instanceAfter effectsOf fst snd];
      rewrite app_nil_r.
    + destruct (IH (set_events (_events c ++ [("error", cb)])%list c) t Hr Hi)
        as (A & B & C & D).
      rewrite A, C, D, !listenersOf_once.
      change (String.eqb "error" "error") with true.
      change (String.eqb "error" "ready") with false. cbv iota.
      rewrite ?app_nil_r, <- ?app_assoc. repeat split; apply B.
    + destruct (IH c t Hr Hi) as (A & B & C & D). rewrite A, C, D.
      repeat split; apply B.
Qed.

Lemma fault_construct env given :
  fault (_givenConfiguration (construct packageVersion env given)) = fault given.
Proof. destruct given; reflexivity. Qed.

(** X20: listeners registered on a new instance are not called before the
    settlement; the first settlement whose local gathering runs to its
    end calls the listeners of the outcome, and only those, each once, in
    the order of their registration (callbacks that are not functions
    were never registered), and removes them; the listeners of the other
    outcome stay registered. *)
Theorem registered_listeners_fire (env : Env) (given : value)
    (regs : list call) (k : call) :
  registrations regs = true ->
  isSettlement k = true ->
  fault given = None ->
  let before := lifetime isNaN regs (construct packageVersion env given) [] in
  let x := perform isNaN k (fst before) in
  let after := instanceAfter x in
  let unidentified := isNull (_projectId after) && isNull (_projectNumber after) in
  snd before = []
  /\ invocations (effectsOf x)
     = (if unidentified
        then map (fun l => Invoke l (TheError unableToGather)) (errorCallbacks regs)
        else map (fun l => Invoke l TheInstance) (readyCallbacks regs))
  /\ listenersOf "ready" after = (if unidentified then readyCallbacks regs else [])
  /\ listenersOf "error" after = (if unidentified then [] else errorCallbacks regs).
Proof.
  intros Hr Hk Hf before x after unidentified.
  destruct (registrations_run regs (construct packageVersion env given) [] Hr eq_refl)
    as (A & B & C0 & D0).
  fold before in A, B, C0, D0.
  split; [exact A|].
  set (this := fst before) in *.
  assert (C : listenersOf "ready" this = readyCallbacks regs) by exact C0.
  assert (D : listenersOf "error" this = errorCallbacks regs) by exact D0.
  clear C0 D0.
  destruct B as (Bi & _ & _ & _ & _ & _ & _ & _ & _ & Bg).
  assert (Hf' : fault (_givenConfiguration this) = None).
  { rewrite Bg, fault_construct. exact Hf. }
  subst unidentified after x.
  rewrite (settlement_exact isNaN k this Hk), Hf'.
  set (g := gathered isNaN (envOf k) (remote k this)).
  assert (Gi : _initState g = false).
  { subst g. rewrite gathered_initState, remote_initState. exact Bi. }
  assert (Ev : _events g = _events this).
  { subst g. cbn [gathered _events]. apply remote_events. }
  rewrite <- (listenersOf_core "ready" this g Ev) in C.
  rewrite <- (listenersOf_core "error" this g Ev) in D.
  destruct (remoteLog_quiet k) as [_ Q].
  unfold settle. rewrite Gi.
  destruct (isNull (_projectId g) && isNull (_projectNumber g)) eqn:U.
  - destruct (listenersOf "error" g) as [|l ls] eqn:L;
      cbn [instanceAfter effectsOf fst snd];
      cbn [set_events set_initError set_initState _projectId _projectNumber];
      rewrite U, invocations_app, Q; cbn [app].
    + rewrite <- D. repeat split.
      * unfold listenersOf in *. exact C.
      * unfold listenersOf in *. exact L.
    + rewrite <- D. split; [apply (invocations_invokes (l :: ls))|].
      unfold listenersOf. cbn [_events set_events]. rewrite listeners_removed.
      rewrite (listeners_kept "error" "ready") by reflexivity.
      split; [exact C | reflexivity].
  - cbn [instanceAfter effectsOf fst snd].
    cbn [set_events set_initError set_initState _projectId _projectNumber].
    rewrite U, invocations_app, Q. cbn [app].
    rewrite C. split; [apply invocations_invokes|].
    unfold listenersOf. cbn [_events set_events]. rewrite listeners_removed.
    rewrite (listeners_kept "ready" "error") by reflexivity.
    split; [reflexivity | exact D].
Qed.

(** ** Local gathering, run again *)

Lemma localProjectId_again env given v :
  localProjectId isNaN env given (localProjectId isNaN env given v)
  = localProjectId isNaN env given v.
Proof.
  unfold localProjectId.
  destruct (isString v) eqn:E1; [now rewrite E1|].
  destruct (namesProject isNaN false (envValue (GCLOUD_PROJECT env))) eqn:E2.
  { destruct (namesProject_isString isNaN _ _ E2) as [-> _]. reflexivity. }
  destruct (isPlainObject given
            && namesProject isNaN false (getProp given "projectId")) eqn:E3.
  { apply andb_true_iff in E3 as [_ E3].
    destruct (namesProject_isString isNaN _ _ E3) as [-> _]. reflexivity. }
  now rewrite E1.
Qed.

Lemma localProjectNumber_again env given v :
  localProjectNumber isNaN env given (localProjectNumber isNaN env given v)
  = localProjectNumber isNaN env given v.
Proof.
  unfold localProjectNumber.
  destruct (isNumber v) eqn:E1; [now rewrite E1|].
  destruct (namesProject isNaN true (envValue (GCLOUD_PROJECT env))) eqn:E2.
  { destruct (namesProject_isString isNaN _ _ E2) as [_ ->]. reflexivity. }
  destruct (isPlainObject given
            && namesProject isNaN true (getProp given "projectId")) eqn:E3.
  { pose proof E3 as E3'. apply andb_true_iff in E3' as [_ E3'].
    destruct (namesProject_isString isNaN _ _ E3') as [_ ->]. reflexivity. }
  now rewrite E1.
Qed.

Lemma localReport_again given b :
  localReport given (localReport given b) = localReport given b.
Proof.
  unfold localReport. destruct (isPlainObject given); [|reflexivity].
  destruct (getProp given "reportUncaughtExceptions"); reflexivity.
Qed.

Lemma localKey_again given v : localKey given (localKey given v) = localKey given v.
Proof.
  unfold localKey.
  destruct (isPlainObject given && isString (getProp given "key")); reflexivity.
Qed.

Lemma gathered_again env c :
  gathered isNaN env (gathered isNaN env c) = gathered isNaN env c.
Proof.
  unfold gathered.
  cbn [_initState _initError _reportUncaughtExceptions _shouldReportErrorsToAPI
       _projectId _projectNumber _key _serviceContext _version
       _givenConfiguration _events].
  rewrite localProjectId_again, localProjectNumber_again.
  destruct (fault (_givenConfiguration c)); [reflexivity|].
  now rewrite localReport_again, localKey_again.
Qed.

(** X21: local gathering is idempotent: run a second time under the same
    environment, it changes nothing and ends the same way. *)
Theorem _gatherLocalConfiguration_idempotent (env : Env) (c : Configuration) :
  let x := _gatherLocalConfiguration isNaN env c in
  _gatherLocalConfiguration isNaN env (instanceAfter x)
  = (instanceAfter x, [], resultOf x).
Proof.
  cbv zeta. rewrite !_gatherLocalConfiguration_exact.
  cbn [instanceAfter resultOf fst snd]. now rewrite gathered_again.
Qed.

(** ** Once the instance is initialized *)

Lemma perform_initialized (k : call) c :
  _initState c = true ->
  let x := perform isNaN k c in
  _initState (instanceAfter x) = true
  /\ _initError (instanceAfter x) = _initError c
  /\ _events (instanceAfter x) = _events c
  /\ emissions (effectsOf x) = [].
Proof.
  intros Hi. destruct (isSettlement k) eqn:Hk.
  - cbv zeta. rewrite (settlement_exact isNaN k c Hk).
    set (g := gathered isNaN (envOf k) (remote k c)).
    assert (Gi : _initState g = true).
    { subst g. now rewrite gathered_initState, remote_initState. }
    assert (Ge : _initError g = _initError c).
    { subst g. cbn [gathered _initError]. apply remote_initError. }
    assert (Gv : _events g = _events c).
    { subst g. cbn [gathered _events]. apply remote_events. }
    destruct (remoteLog_quiet k) as [Q _].
    destruct (fault (_givenConfiguration c)).
    + cbn [instanceAfter effectsOf fst snd]. repeat split; assumption.
    + unfold settle. rewrite Gi. cbn [instanceAfter effectsOf fst snd].
      rewrite app_nil_r. repeat split; assumption.
  - destruct k as [env err projectNum | env err projectId | cb | cb];
      try discriminate Hk; cbn [perform]; cbv zeta.
    + rewrite addReadyListener_exact, Hi. cbn [negb andb].
      destruct (isNull (_initError c)); [destruct (isFunction cb)|];
        repeat split; assumption.
    + rewrite addErrorListener_exact, Hi. cbn [negb andb].
      destruct (negb (isNull (_initError c))); [destruct (isFunction cb)|];
        repeat split; assumption.
Qed.

(** X22: the outcome is final.  Whatever is called on an initialized
    instance, in whatever order, the instance stays initialized, the
    stored error stays what it is, no event is emitted any more and the
    list of registered listeners never changes again. *)
Theorem outcome_is_final (calls : list call) (c : Configuration) (t : list effect) :
  _initState c = true ->
  let r := lifetime isNaN calls c t in
  _initState (fst r) = true
  /\ _initError (fst r) = _initError c
  /\ _events (fst r) = _events c
  /\ emissions (snd r) = emissions t.
Proof.
  revert c t. induction calls as [|k rest IH]; intros c t Hi; [repeat split; exact Hi|].
  cbv zeta. rewrite lifetime_step.
  destruct (perform_initialized k c Hi) as (A & B & C & D).
  destruct (IH _ (t ++ effectsOf (perform isNaN k c))%list A) as (A' & B' & C' & D').
  rewrite A', B', C', D', emissions_app, D, app_nil_r. repeat split; assumption.
Qed.

(** X23: on an instance that was constructed and then used in any way,
    the stored error tells what was emitted: before initialization
    nothing, after it [ready] alone when no error is stored and else
    [error] alone, carrying the stored error, which is the one error the
    class creates. *)
Theorem stored_error_matches_event (env : Env) (given : value) (calls : list call) :
  let r := lifetime isNaN calls (construct packageVersion env given) [] in
  emissions (snd r)
  = (if _initState (fst r) then
       if isNull (_initError (fst r)) then [Emit "ready" TheInstance]
       else [Emit "error" (TheError (_initError (fst r)))]
     else [])
  /\ (_initError (fst r) = Null \/ _initError (fst r) = unableToGather)
  /\ (_initState (fst r) = false -> _initError (fst r) = Null).
Proof.
  intros r.
  pose proof (settledOnce_lifetime isNaN calls _ _
                (settledOnce_construct packageVersion env given)) as Inv.
  fold r in Inv. unfold settledOnce in Inv.
  destruct (_initState (fst r)).
  - destruct Inv as [_ [[E1 E2] | [E1 E2]]]; rewrite E1, E2;
      repeat split; auto; discriminate.
  - destruct Inv as [E1 E2]. rewrite E1, E2. repeat split; auto.
Qed.

(** ** What a lifetime never changes *)

Lemma remote_fixed k c :
  _shouldReportErrorsToAPI (remote k c) = _shouldReportErrorsToAPI c
  /\ _version (remote k c) = _version c
  /\ _key (remote k c) = _key c
  /\ _reportUncaughtExceptions (remote k c) = _reportUncaughtExceptions c.
Proof.
  destruct k; cbn [remote]; try (repeat split; reflexivity);
    match goal with |- context [if ?b then _ else _] => destruct b end;
    repeat split; reflexivity.
Qed.

Lemma perform_fixed (k : call) c :
  let c' := instanceAfter (perform isNaN k c) in
  _shouldReportErrorsToAPI c' = _shouldReportErrorsToAPI c
  /\ _version c' = _version c
  /\ _givenConfiguration c' = _givenConfiguration c.
Proof.
  destruct (isSettlement k) eqn:Hk.
  - destruct (settlement_fields isNaN k c Hk) as (_ & _ & _ & _ & _ & A & B & C).
    destruct (remote_fixed k c) as (R1 & R2 & _).
    cbv zeta. rewrite A, B, C. cbn [gathered _shouldReportErrorsToAPI _version
                                    _givenConfiguration].
    rewrite remote_given. repeat split; assumption.
  - destruct k as [env err projectNum | env err projectId | cb | cb];
      try discriminate Hk; cbn [perform].
    + destruct (addReadyListener_fields cb c) as (_ & _ & _ & A & _ & _ & _ & _ & B & C).
      repeat split; assumption.
    + destruct (addErrorListener_fields cb c) as (_ & _ & _ & A & _ & _ & _ & _ & B & C).
      repeat split; assumption.
Qed.

(** X24: three fields are fixed at construction for good: whether errors
    are reported to the API (decided by [NODE_ENV] alone), the version of
    the package, and the supplied configuration (kept only if it is a
    plain object).  No sequence of calls changes them. *)
Theorem construction_fields_fixed (env : Env) (given : value) (calls : list call) :
  let this := fst (lifetime isNaN calls (construct packageVersion env given) []) in
  _shouldReportErrorsToAPI this
  = match NODE_ENV env with
    | Some s => String.eqb s "production"
    | None => false
    end
  /\ _version this = packageVersion
  /\ _givenConfiguration this = (if isPlainObject given then given else Null).
Proof.
  cbv zeta.
  assert (G : forall c t,
             let this := fst (lifetime isNaN calls c t) in
             _shouldReportErrorsToAPI this = _shouldReportErrorsToAPI c
             /\ _version this = _version c
             /\ _givenConfiguration this = _givenConfiguration c).
  { induction calls as [|k rest IH]; intros c t; [repeat split|].
    cbv zeta. rewrite lifetime_step.
    destruct (perform_fixed k c) as (A & B & C).
    destruct (IH (instanceAfter (perform isNaN k c))
                (t ++ effectsOf (perform isNaN k c))%list) as (A' & B' & C').
    repeat split; congruence. }
  apply (G (construct packageVersion env given) []).
Qed.

(** ** The values that the getters can return *)

Definition projectIdTyped (v : value) : bool := isNull v || isString v.

Definition projectNumberTyped (v : value) : bool :=
  isNull v || isNumber v || namesProject isNaN true v.

Definition typed (c : Configuration) : Prop :=
  projectIdTyped (_projectId c) = true
  /\ projectNumberTyped (_projectNumber c) = true
  /\ projectIdTyped (_key c) = true.

Lemma localProjectId_typed env given v :
  projectIdTyped v = true -> projectIdTyped (localProjectId isNaN env given v) = true.
Proof.
  intros H. unfold localProjectId.
  destruct (isString v); [exact H|].
  destruct (namesProject isNaN false (envValue (GCLOUD_PROJECT env))) eqn:E2.
  { destruct (namesProject_isString isNaN _ _ E2) as [E _].
    unfold projectIdTyped. rewrite E. apply orb_true_r. }
  destruct (isPlainObject given
            && namesProject isNaN false (getProp given "projectId")) eqn:E3;
    [|exact H].
  apply andb_true_iff in E3 as [_ E3].
  destruct (namesProject_isString isNaN _ _ E3) as [E _].
  unfold projectIdTyped. rewrite E. apply orb_true_r.
Qed.

Lemma localProjectNumber_typed env given v :
  projectNumberTyped v = true ->
  projectNumberTyped (localProjectNumber isNaN env given v) = true.
Proof.
  intros H. unfold localProjectNumber.
  destruct (isNumber v); [exact H|].
  destruct (namesProject isNaN true (envValue (GCLOUD_PROJECT env))) eqn:E2.
  { unfold projectNumberTyped. rewrite E2. apply orb_true_r. }
  destruct (isPlainObject given
            && namesProject isNaN true (getProp given "projectId")) eqn:E3;
    [|exact H].
  apply andb_true_iff in E3 as [_ E3].
  unfold projectNumberTyped. rewrite E3. apply orb_true_r.
Qed.

Lemma localKey_typed given v :
  projectIdTyped v = true -> projectIdTyped (localKey given v) = true.
Proof.
  intros H. unfold localKey.
  destruct (isPlainObject given && isString (getProp given "key")) eqn:E; [|exact H].
  apply andb_true_iff in E as [_ E]. unfold projectIdTyped. rewrite E.
  apply orb_true_r.
Qed.

Lemma remote_typed k c : typed c -> typed (remote k c).
Proof.
  intros (A & B & C). destruct k as [env err v | env err v | cb | cb];
    cbn [remote]; try (repeat split; assumption).
  - destruct (isUndefined err && isNumber v) eqn:E; [|repeat split; assumption].
    apply andb_true_iff in E as [_ E]. repeat split; try assumption.
    cbn [set_projectNumber _projectNumber]. unfold projectNumberTyped.
    rewrite E. now rewrite orb_true_r.
  - destruct (isNull err && isString v) eqn:E; [|repeat split; assumption].
    apply andb_true_iff in E as [_ E]. repeat split; try assumption.
    cbn [set_projectId _projectId]. unfold projectIdTyped.
    rewrite E. apply orb_true_r.
Qed.

Lemma perform_typed (k : call) c : typed c -> typed (instanceAfter (perform isNaN k c)).
Proof.
  intros T. destruct (isSettlement k) eqn:Hk.
  - destruct (settlement_fields isNaN k c Hk) as (A & B & C & _).
    destruct (remote_typed k c T) as (T1 & T2 & T3).
    unfold typed. rewrite A, B, C. cbn [gathered _projectId _projectNumber _key].
    repeat split.
    + now apply localProjectId_typed.
    + now apply localProjectNumber_typed.
    + destruct (fault (_givenConfiguration (remote k c)));
        [exact T3 | now apply localKey_typed].
  - destruct T as (T1 & T2 & T3).
    destruct k as [env err projectNum | env err projectId | cb | cb];
      try discriminate Hk; cbn [perform].
    + destruct (addReadyListener_fields cb c) as (_ & _ & _ & _ & A & B & C & _).
      unfold typed. now rewrite A, B, C.
    + destruct (addErrorListener_fields cb c) as (_ & _ & _ & _ & A & B & C & _).
      unfold typed. now rewrite A, B, C.
Qed.

(** X26: what the getters of an instance can return, at any point of any
    lifetime: the project id is [null] or a string; the project number is
    [null], a number, or a non-empty string that is numeric; the key is
    [null] or a string. *)
Theorem identifiers_typed (env : Env) (given : value) (calls : list call) :
  let this := fst (lifetime isNaN calls (construct packageVersion env given) []) in
  (isNull (_projectId this) || isString (_projectId this) = true)
  /\ (isNull (_projectNumber this) || isNumber (_projectNumber this)
      || namesProject isNaN true (_projectNumber this) = true)
  /\ (isNull (_key this) || isString (_key this) = true).
Proof.
  cbv zeta.
  assert (G : forall c t, typed c -> typed (fst (lifetime isNaN calls c t))).
  { induction calls as [|k rest IH]; intros c t T; [exact T|].
    rewrite lifetime_step. apply IH. now apply perform_typed. }
  apply (G (construct packageVersion env given) []). repeat split.
Qed.

(** ** A supplied service context *)

Lemma perform_faulty (k : call) c e :
  fault (_givenConfiguration c) = Some e ->
  _initState c = false ->
  let x := perform isNaN k c in
  _initState (instanceAfter x) = false
  /\ _givenConfiguration (instanceAfter x) = _givenConfiguration c
  /\ _initError (instanceAfter x) = _initError c
  /\ _key (instanceAfter x) = _key c
  /\ _reportUncaughtExceptions (instanceAfter x) = _reportUncaughtExceptions c
  /\ emissions (effectsOf x) = []
  /\ invocations (effectsOf x) = []
  /\ (isSettlement k = true -> resultOf x = Throw e).
Proof.
  intros Hf Hi. destruct (isSettlement k) eqn:Hk.
  - cbv zeta. rewrite (settlement_exact isNaN k c Hk), Hf.
    cbn [instanceAfter effectsOf resultOf fst snd].
    destruct (remoteLog_quiet k) as [Q1 Q2].
    destruct (remote_fixed k c) as (_ & _ & R3 & R4).
    cbn [gathered _initState _givenConfiguration _initError _key
         _reportUncaughtExceptions].
    rewrite remote_given, Hf, remote_initState, remote_initError.
    repeat split; assumption.
  - destruct k as [env err projectNum | env err projectId | cb | cb];
      try discriminate Hk; cbn [perform]; cbv zeta.
    + rewrite addReadyListener_exact, Hi. cbn [negb andb].
      destruct (isFunction cb); repeat split; try assumption; discriminate.
    + rewrite addErrorListener_exact, Hi. cbn [negb andb].
      destruct (isFunction cb); repeat split; try assumption; discriminate.
Qed.

Lemma fault_kind given e :
  fault given = Some e ->
  e = ReferenceError "this_serviceContext is not defined"
  \/ e = TypeError "Cannot set property 'version' of undefined".
Proof.
  unfold fault.
  destruct (isPlainObject given && isPlainObject (getProp given "serviceContext"));
    [|discriminate].
  destruct (isString (getProp (getProp given "serviceContext") "service")).
  { intros H. left. now inversion H. }
  destruct (isString (getProp (getProp given "serviceContext") "version"));
    [|discriminate].
  intros H. right. now inversion H.
Qed.

(** While local gathering throws, nothing of the outcome moves, whatever
    is called. *)
Lemma faulty_lifetime calls : forall c t e,
  fault (_givenConfiguration c) = Some e ->
  _initState c = false ->
  let r := lifetime isNaN calls c t in
  _initState (fst r) = false
  /\ fault (_givenConfiguration (fst r)) = Some e
  /\ _initError (fst r) = _initError c
  /\ emissions (snd r) = emissions t
  /\ invocations (snd r) = invocations t.
Proof.
  induction calls as [|k rest IH]; intros c t e Hc Hi.
  - cbn. repeat split; assumption.
  - cbv zeta. rewrite lifetime_step.
    destruct (perform_faulty k c e Hc Hi) as (A & B & C & _ & _ & F & G & _).
    rewrite <- B in Hc.
    destruct (IH _ (t ++ effectsOf (perform isNaN k c))%list e Hc A)
      as (A' & B' & C' & E' & F').
    rewrite emissions_app, F, app_nil_r in E'.
    rewrite invocations_app, G, app_nil_r in F'.
    repeat split; congruence.
Qed.

(** ** The claims that the service-context assignments break *)

(** C1, as the code has it when the supplied configuration gives
    [serviceContext.service] or [serviceContext.version] as a string:
    [_checkLocalServiceContext] then assigns to [this_serviceContext] or
    to [this.serviceContext], neither of which exists, so local gathering
    throws before the integrity check is reached.  On an instance built
    from such a configuration every settlement attempt throws, the first
    one and each one after it, whatever was called before; the instance
    is never initialized and no event is emitted. *)
Theorem settlement_attempts_keep_throwing (env : Env) (given : value)
    (calls : list call) (k : call) (e : value) :
  fault given = Some e ->
  isSettlement k = true ->
  let r := lifetime isNaN calls (construct packageVersion env given) [] in
  let x := perform isNaN k (fst r) in
  resultOf x = Throw e
  /\ (e = ReferenceError "this_serviceContext is not defined"
      \/ e = TypeError "Cannot set property 'version' of undefined")
  /\ _initState (fst r) = false
  /\ emissions (snd r) = []
  /\ _initState (instanceAfter x) = false
  /\ emissions (effectsOf x) = [].
Proof.
  intros Hf Hk r x.
  pose proof (fault_kind given e Hf) as Kind.
  rewrite <- (fault_construct env given) in Hf.
  destruct (faulty_lifetime calls (construct packageVersion env given) [] e Hf eq_refl)
    as (A & B & _ & D & _).
  fold r in A, B, D.
  destruct (perform_faulty k (fst r) e B A) as (P1 & _ & _ & _ & _ & P6 & _ & P8).
  fold x in P1, P6, P8.
  repeat split; try assumption. now apply P8.
Qed.

(** C2, as the code has it on the same configurations: the first
    settlement attempt (only listeners were registered before it) ends in
    neither event.  Whatever the metadata callback reports and whatever
    identifiers were gathered, the call throws out of local gathering:
    nothing is emitted, no listener is called, [_initError] stays [null]
    and the instance is not initialized. *)
Theorem first_attempt_emits_neither (env : Env) (given : value)
    (regs : list call) (k : call) (e : value) :
  fault given = Some e ->
  registrations regs = true ->
  isSettlement k = true ->
  let this := fst (lifetime isNaN regs (construct packageVersion env given) []) in
  let x := perform isNaN k this in
  emissions (effectsOf x) = []
  /\ invocations (effectsOf x) = []
  /\ _initState (instanceAfter x) = false
  /\ _initError (instanceAfter x) = Null
  /\ resultOf x = Throw e.
Proof.
  intros Hf Hr Hk this x.
  destruct (registrations_run regs (construct packageVersion env given) [] Hr eq_refl)
    as (_ & B & _).
  fold this in B.
  destruct B as (Bi & Be & _ & _ & _ & _ & _ & _ & _ & Bg).
  assert (Hf' : fault (_givenConfiguration this) = Some e).
  { rewrite Bg, fault_construct. exact Hf. }
  destruct (perform_faulty k this e Hf' Bi) as (P1 & _ & P3 & _ & _ & P6 & P7 & P8).
  fold x in P1, P3, P6, P7, P8.
  repeat split; try assumption.
  - rewrite P3. exact Be.
  - now apply P8.
Qed.

End Settling.

(** ** Instances *)

(** The metadata callback fails and the supplied configuration names the
    project. *)
Lemma supplied_project_settles_witness :
  let fields := [ ("projectId", Str "my-project") ] in
  let c := construct "0.1.0" noEnv (Obj fields) in
  let x := _assimilateProjectNumber notDigits noEnv (Err "Error" "ENOTFOUND")
             Undefined c in
  emissions (effectsOf x) = [Emit "ready" TheInstance]
  /\ resultOf x = Normal tt
  /\ _initState (instanceAfter x) = true
  /\ _projectId (instanceAfter x) = Str "my-project".
Proof.
  intros fields c x.
  destruct (supplied_project_settles notDigits noEnv c (Err "Error" "ENOTFOUND")
              Undefined fields "my-project" eq_refl eq_refl ltac:(discriminate)
              eq_refl eq_refl) as (A & _ & B & C & _ & D & _).
  exact (conj A (conj B (conj C (D eq_refl eq_refl eq_refl)))).
Defined.

(** Nothing names the project, and one listener waits for the error. *)
Lemma unidentified_settles_to_error_witness :
  let c := fst (lifetime notDigits [ AddErrorListener (Fn "onError") ]
                  (construct "0.1.0" noEnv (Obj [ ("projectId", Str "") ])) []) in
  let x := _assimilateProjectNumber notDigits noEnv (Err "Error" "ENOTFOUND")
             Undefined c in
  _projectId (instanceAfter x) = Null
  /\ _projectNumber (instanceAfter x) = Null
  /\ _initError (instanceAfter x) = unableToGather
  /\ emissions (effectsOf x) = [Emit "error" (TheError unableToGather)]
  /\ invocations (effectsOf x) = [Invoke (Fn "onError") (TheError unableToGather)]
  /\ resultOf x = Normal tt.
Proof.
  intros c x.
  destruct (unidentified_settles_to_error notDigits noEnv c (Err "Error" "ENOTFOUND")
              Undefined eq_refl eq_refl eq_refl eq_refl eq_refl) as (A & B & C).
  destruct (C eq_refl eq_refl) as (_ & D & E & F & G).
  exact (conj A (conj B (conj D (conj E (conj F G))))).
Defined.

(** Four registrations, one of them not a function, then a successful
    settlement. *)
Lemma registered_listeners_fire_witness :
  let regs := [ AddReadyListener (Fn "first"); AddErrorListener (Fn "onError");
                AddReadyListener (Num 3); AddReadyListener (Fn "second") ] in
  let k := AssimilateProjectNumber noEnv Undefined (Num 1234) in
  let before := lifetime notDigits regs (construct "0.1.0" noEnv (Obj [])) [] in
  let x := perform notDigits k (fst before) in
  let after := instanceAfter x in
  let unidentified := isNull (_projectId after) && isNull (_projectNumber after) in
  snd before = []
  /\ invocations (effectsOf x)
     = (if unidentified
        then map (fun l => Invoke l (TheError unableToGather)) (errorCallbacks regs)
        else map (fun l => Invoke l TheInstance) (readyCallbacks regs))
  /\ listenersOf "ready" after = (if unidentified then readyCallbacks regs else [])
  /\ listenersOf "error" after = (if unidentified then [] else errorCallbacks regs).
Proof.
  intros regs k before x.
  apply (registered_listeners_fire notDigits "0.1.0" noEnv (Obj []) regs k);
    reflexivity.
Defined.

(** A settled instance, then a late listener and a second metadata
    answer. *)
Lemma outcome_is_final_witness :
  let c := fst (lifetime notDigits
                  [ AssimilateProjectNumber noEnv (Err "Error" "ENOTFOUND") Undefined ]
                  (construct "0.1.0" noEnv (Obj [])) []) in
  let r := lifetime notDigits
             [ AddErrorListener (Fn "late");
               AssimilateProjectId noEnv Null (Str "my-project") ] c [] in
  _initState (fst r) = true
  /\ _initError (fst r) = _initError c
  /\ _events (fst r) = _events c
  /\ emissions (snd r) = emissions [].
Proof.
  intros c r.
  exact (outcome_is_final notDigits
           [ AddErrorListener (Fn "late");
             AssimilateProjectId noEnv Null (Str "my-project") ] c [] eq_refl).
Defined.

(** The configuration of the repository's own test of the service
    context: a project id, and a service and a version as strings. *)
Definition servedConfiguration : value :=
  Obj [ ("projectId", Str "test-123");
        ("serviceContext", Obj [ ("service", Str "test"); ("version", Str "1.2.x") ]) ].

(** The metadata service fails at the first attempt and answers at the
    second: both attempts throw. *)
Lemma settlement_attempts_keep_throwing_witness :
  let e := ReferenceError "this_serviceContext is not defined" in
  let calls := [ AssimilateProjectNumber noEnv (Err "Error" "ENOTFOUND") Undefined ] in
  let k := AssimilateProjectNumber noEnv Undefined (Num 1234) in
  let r := lifetime notDigits calls (construct "0.1.0" noEnv servedConfiguration) [] in
  let x := perform notDigits k (fst r) in
  resultOf x = Throw e
  /\ (e = ReferenceError "this_serviceContext is not defined"
      \/ e = TypeError "Cannot set property 'version' of undefined")
  /\ _initState (fst r) = false
  /\ emissions (snd r) = []
  /\ _initState (instanceAfter x) = false
  /\ emissions (effectsOf x) = [].
Proof.
  intros e calls k r x.
  apply (settlement_attempts_keep_throwing notDigits "0.1.0" noEnv servedConfiguration
           calls k e); reflexivity.
Defined.

(** The test's scenario: both listeners are registered, the metadata
    service fails, and the supplied project id is gathered; the attempt
    ends in neither event. *)
Lemma first_attempt_emits_neither_witness :
  let e := ReferenceError "this_serviceContext is not defined" in
  let regs := [ AddReadyListener (Fn "onReady"); AddErrorListener (Fn "onError") ] in
  let k := AssimilateProjectNumber noEnv (Err "Error" "ENOTFOUND") Undefined in
  let this := fst (lifetime notDigits regs
                     (construct "0.1.0" noEnv servedConfiguration) []) in
  let x := perform notDigits k this in
  emissions (effectsOf x) = []
  /\ invocations (effectsOf x) = []
  /\ _initState (instanceAfter x) = false
  /\ _initError (instanceAfter x) = Null
  /\ resultOf x = Throw e.
Proof.
  intros e regs k this x.
  apply (first_attempt_emits_neither notDigits "0.1.0" noEnv servedConfiguration
           regs k e); reflexivity.
Defined.

(** In that scenario the instance is identified all the same. *)
Example first_attempt_identified :
  let regs := [ AddReadyListener (Fn "onReady"); AddErrorListener (Fn "onError") ] in
  let k := AssimilateProjectNumber noEnv (Err "Error" "ENOTFOUND") Undefined in
  let this := fst (lifetime notDigits regs
                     (construct "0.1.0" noEnv servedConfiguration) []) in
  _projectId (instanceAfter (perform notDigits k this)) = Str "test-123".
Proof. reflexivity. Qed.

End SettlingFacts.
